(** * VentasPro ledger engine: sessions, inventory movements and sales

    A shallow embedding of the Express/better-sqlite3 server of the
    repository (the route handlers and [getCurrentSession]) together with
    the properties of its session / inventory / sales transaction model.
    After the server come the two parts of the client that prepare or
    replace its requests: the cart of the selling screen and the offline
    mirror that the [api] object keeps in [localStorage].

    Modelling conventions.
    - The SQLite database is a record of five tables; a table is the list
      of its rows in rowid (insertion) order.  No statement of the server
      deletes a row, so the AUTOINCREMENT key handed out by an INSERT is
      one more than the largest key of the table.
    - JSON numbers bound to INTEGER columns are integers ([Z]); values of
      REAL columns (prices, totals) are only stored and returned, never
      computed with, and are carried as rationals ([Q]).  A field the
      client may leave out or send as [null] is an [option].
    - Stocks and quantities are added and subtracted in [Z].  The code does
      it in IEEE doubles, which agrees with [Z] as long as the operands and
      the result are safe integers ([safe_integer], up to 2^53 - 1 in
      magnitude).  Comparisons are exact either way.  A property that names
      the value of a sum or of a difference is stated on that range.
    - [CURRENT_TIMESTAMP] / [new Date()] is an explicit argument [now].
    - A handler is a function from the database to a response and the
      database it leaves behind.  Statements run in a state monad whose
      exceptions carry the database at the point of the throw: whatever a
      handler wrote outside [transaction] is still there when its [catch]
      block answers.
    - The foreign keys of the schema are not a failure path of the
      model: no handler inserts a row whose session, product or sale it
      has not just read or written, so no statement can violate one,
      whether or not the connection enforces them.  The CHECK constraints
      of [movements.type] and [sales.payment_method] and the NOT NULL
      constraints of [products.name] and [products.price] can fail, and
      are modelled.
    - Every route of the server is modelled. *)

From Stdlib Require Import ZArith QArith List String Bool Lia.
From Stdlib Require Import Permutation Sorted.
Import ListNotations.
Local Open Scope string_scope.
Local Open Scope list_scope.
Local Open Scope Z_scope.

(** ** Tables *)

Definition timestamp := Z.

Record session := mkSession {
  s_id : Z;
  s_start_time : timestamp;
  s_end_time : option timestamp;
  s_is_closed : Z
}.

Record product := mkProduct {
  p_id : Z;
  p_name : string;
  p_price : Q;
  p_stock : Z;
  p_initial_stock : Z;
  p_deleted : Z;
  p_image : option string
}.

Record movement := mkMovement {
  m_id : Z;
  m_session_id : Z;
  m_product_id : Z;
  m_type : string;
  m_quantity : Z;
  m_reason : option string;
  m_timestamp : timestamp
}.

Record sale := mkSale {
  sa_id : Z;
  sa_session_id : Z;
  sa_total : Q;
  sa_payment_method : option string;
  sa_timestamp : timestamp
}.

Record sale_item := mkSaleItem {
  si_id : Z;
  si_sale_id : Z;
  si_product_id : Z;
  si_quantity : Z;
  si_price_at_sale : Q
}.

Record db := mkDb {
  sessions : list session;
  products : list product;
  movements : list movement;
  sales : list sale;
  sale_items : list sale_item
}.

(** The database right after the schema has been created. *)
Definition empty_db : db := mkDb [] [] [] [] [].

(** ** Exceptions, statements and transactions *)

Inductive exn :=
| JsError (msg : string)
| TypeError (msg : string)
| SqliteError (msg : string).

Definition message (e : exn) : string :=
  match e with
  | JsError m => m
  | TypeError m => m
  | SqliteError m => m
  end.

Inductive outcome (A : Type) :=
| Ok (a : A) (st : db)
| Throw (e : exn) (st : db).
Arguments Ok {A} a st.
Arguments Throw {A} e st.

Definition M (A : Type) := db -> outcome A.

Definition ret {A} (a : A) : M A := fun st => Ok a st.

Definition bind {A B} (m : M A) (k : A -> M B) : M B :=
  fun st =>
    match m st with
    | Ok a st' => k a st'
    | Throw e st' => Throw e st'
    end.

Definition throw {A} (e : exn) : M A := fun st => Throw e st.

Notation "x <- m ;; k" := (bind m (fun x => k))
  (at level 61, m at next level, right associativity).
Notation "m ;;; k" := (bind m (fun _ => k))
  (at level 61, right associativity).

(** [db.transaction(fn)()]: commit when [fn] returns, roll the database
    back to where it was and rethrow when [fn] throws. *)
Definition transaction {A} (fn : M A) : M A :=
  fun st =>
    match fn st with
    | Ok a st' => Ok a st'
    | Throw e _ => Throw e st
    end.

(** [for (const x of xs) body(x)] *)
Fixpoint for_of {A} (xs : list A) (body : A -> M unit) : M unit :=
  match xs with
  | [] => ret tt
  | x :: rest => body x ;;; for_of rest body
  end.

(** [lastInsertRowid] of an INSERT into a table whose keys are [ids]. *)
Definition next_id (ids : list Z) : Z := 1 + fold_right Z.max 0 ids.

(** ** SQL statements *)

(** [INSERT INTO sessions (is_closed) VALUES (0)] *)
Definition insert_session (now : timestamp) : M Z :=
  fun st =>
    let id := next_id (map s_id (sessions st)) in
    Ok id (mkDb (sessions st ++ [mkSession id now None 0])
                (products st) (movements st) (sales st) (sale_items st)).

(** The row of largest id ([ORDER BY id DESC LIMIT 1]). *)
Fixpoint last_by_id (l : list session) : option session :=
  match l with
  | [] => None
  | s :: rest =>
      match last_by_id rest with
      | Some s' => if s_id s <? s_id s' then Some s' else Some s
      | None => Some s
      end
  end.

Definition is_open (s : session) : bool := s_is_closed s =? 0.

(** [SELECT * FROM sessions WHERE is_closed = 0 ORDER BY id DESC LIMIT 1] *)
Definition select_open_session : M (option session) :=
  fun st => Ok (last_by_id (filter is_open (sessions st))) st.

(** [UPDATE sessions SET is_closed = 1, end_time = CURRENT_TIMESTAMP WHERE id = ?] *)
Definition close_row (now : timestamp) (id : Z) (s : session) : session :=
  if s_id s =? id
  then mkSession (s_id s) (s_start_time s) (Some now) 1
  else s.

Definition update_session_closed (now : timestamp) (id : Z) : M unit :=
  fun st =>
    Ok tt (mkDb (map (close_row now id) (sessions st))
                (products st) (movements st) (sales st) (sale_items st)).

(** [SELECT * FROM products WHERE deleted = 0] *)
Definition select_products : M (list product) :=
  fun st => Ok (filter (fun p => p_deleted p =? 0) (products st)) st.

(** [INSERT INTO products (name, price, stock, initial_stock) VALUES (?, ?, ?, ?)] *)
Definition insert_product (name : string) (price : Q) (stock initial_stock : Z)
  : M Z :=
  fun st =>
    let id := next_id (map p_id (products st)) in
    Ok id (mkDb (sessions st)
                (products st ++ [mkProduct id name price stock initial_stock 0 None])
                (movements st) (sales st) (sale_items st)).

(** Number of rows an UPDATE ... WHERE id = ? touches ([result.changes]). *)
Definition changes_of (id : Z) (l : list product) : Z :=
  Z.of_nat (List.length (filter (fun p => p_id p =? id) l)).

Definition update_products (f : product -> product) (id : Z) : M Z :=
  fun st =>
    Ok (changes_of id (products st))
       (mkDb (sessions st)
             (map (fun p => if p_id p =? id then f p else p) (products st))
             (movements st) (sales st) (sale_items st)).

(** [UPDATE products SET name = ?, price = ?, stock = ? WHERE id = ?] *)
Definition update_product_row (name : string) (price : Q) (stock : Z) (id : Z)
  : M Z :=
  update_products
    (fun p => mkProduct (p_id p) name price stock
                        (p_initial_stock p) (p_deleted p) (p_image p)) id.

(** [UPDATE products SET deleted = 1 WHERE id = ?] *)
Definition update_product_deleted (id : Z) : M Z :=
  update_products
    (fun p => mkProduct (p_id p) (p_name p) (p_price p) (p_stock p)
                        (p_initial_stock p) 1 (p_image p)) id.

Definition set_stock (stock : Z) (p : product) : product :=
  mkProduct (p_id p) (p_name p) (p_price p) stock
            (p_initial_stock p) (p_deleted p) (p_image p).

(** [UPDATE products SET stock = ? WHERE id = ?] *)
Definition update_product_stock (newStock : Z) (id : Z) : M Z :=
  update_products (set_stock newStock) id.

(** [UPDATE products SET stock = stock - ? WHERE id = ?].  The difference is
    that of [Z], which is what SQLite computes as long as stock, quantity
    and result are safe integers. *)
Definition decrement_product_stock (quantity : Z) (id : Z) : M Z :=
  update_products (fun p => set_stock (p_stock p - quantity) p) id.

(** [SELECT stock FROM products WHERE id = ?], [.get()]: the first row
    that matches, [undefined] ([None]) when there is none. *)
Definition select_stock (id : Z) : M (option Z) :=
  fun st =>
    Ok (option_map p_stock (find (fun p => p_id p =? id) (products st))) st.

(** [CHECK(type IN ('entry', 'waste', 'sale'))] *)
Definition check_type (type : string) : bool :=
  String.eqb type "entry" || String.eqb type "waste" || String.eqb type "sale".

(** [INSERT INTO movements (session_id, product_id, type, quantity, reason)
    VALUES (?, ?, ?, ?, ?)] *)
Definition insert_movement (now : timestamp) (session_id product_id : Z)
    (type : string) (quantity : Z) (reason : option string) : M Z :=
  fun st =>
    if check_type type then
      let id := next_id (map m_id (movements st)) in
      Ok id (mkDb (sessions st) (products st)
                  (movements st ++
                     [mkMovement id session_id product_id type quantity reason now])
                  (sales st) (sale_items st))
    else Throw (SqliteError "CHECK constraint failed: type IN ('entry', 'waste', 'sale')") st.

(** [CHECK(payment_method IN ('cash', 'transfer'))]; a NULL passes. *)
Definition check_payment_method (pm : option string) : bool :=
  match pm with
  | None => true
  | Some s => String.eqb s "cash" || String.eqb s "transfer"
  end.

(** [INSERT INTO sales (session_id, total, payment_method) VALUES (?, ?, ?)] *)
Definition insert_sale (now : timestamp) (session_id : Z) (total : Q)
    (payment_method : option string) : M Z :=
  fun st =>
    if check_payment_method payment_method then
      let id := next_id (map sa_id (sales st)) in
      Ok id (mkDb (sessions st) (products st) (movements st)
                  (sales st ++ [mkSale id session_id total payment_method now])
                  (sale_items st))
    else Throw (SqliteError "CHECK constraint failed: payment_method IN ('cash', 'transfer')") st.

(** [INSERT INTO sale_items (sale_id, product_id, quantity, price_at_sale)
    VALUES (?, ?, ?, ?)] *)
Definition insert_sale_item (sale_id product_id quantity : Z) (price : Q) : M Z :=
  fun st =>
    let id := next_id (map si_id (sale_items st)) in
    Ok id (mkDb (sessions st) (products st) (movements st) (sales st)
                (sale_items st ++ [mkSaleItem id sale_id product_id quantity price])).

(** [SELECT * FROM sales WHERE session_id = ?] *)
Definition select_sales (session_id : Z) (st : db) : list sale :=
  filter (fun s => sa_session_id s =? session_id) (sales st).

(** [SELECT m.*, p.name as product_name FROM movements m
    JOIN products p ON m.product_id = p.id WHERE m.session_id = ?] *)
Definition select_movements (session_id : Z) (st : db)
  : list (movement * string) :=
  flat_map
    (fun m =>
       map (fun p => (m, p_name p))
           (filter (fun p => m_product_id m =? p_id p) (products st)))
    (filter (fun m => m_session_id m =? session_id) (movements st)).

(** ** Responses *)

Inductive body :=
| BSession (s : session)                       (* a session row *)
| BError (error : string)                      (* { error } *)
| BInternalError (details : string)            (* { error: "Internal server error", details } *)
| BClosed (closed_id new_id : Z)               (* { success: true, closed_id, new_id } *)
| BProducts (rows : list product)
| BId (id : Z)                                 (* { id } *)
| BChanges (changes : Z)                       (* { success: true, changes } *)
| BNewStock (newStock : Z)                     (* { success: true, newStock } *)
| BSaleId (saleId : Z)                         (* { success: true, saleId } *)
| BReport (sales : list sale) (movements : list (movement * string))
          (session : option session).          (* { sales, movements [, session] } *)

Record response := mkResponse { status : Z; json : body }.

(** [res.json(b)] answers with status 200, [res.status(c).json(b)] with [c]. *)
Definition res_json (b : body) : response := mkResponse 200 b.
Definition res_status_json (c : Z) (b : body) : response := mkResponse c b.

(** [try { ... } catch (e) { ... }] around a handler's body. *)
Definition try_catch (m : M response) (handler : exn -> response)
  : db -> response * db :=
  fun st =>
    match m st with
    | Ok r st' => (r, st')
    | Throw e st' => (handler e, st')
    end.

(** The global Express error handler, for the routes without a [try]. *)
Definition global_error_handler (e : exn) : response :=
  res_status_json 500 (BInternalError (message e)).

(** ** Sessions *)

Definition getCurrentSession (now : timestamp) : M session :=
  session <- select_open_session ;;
  match session with
  | Some s => ret s
  | None =>
      id <- insert_session now ;;
      ret (mkSession id now None 0)
  end.

(** [GET /api/sessions/current] *)
Definition get_sessions_current (now : timestamp) : db -> response * db :=
  try_catch
    (s <- getCurrentSession now ;; ret (res_json (BSession s)))
    (fun _ => res_status_json 500 (BError "Failed to get session")).

Definition close_transaction (now : timestamp) : M (Z * Z) :=
  transaction
    (session <- getCurrentSession now ;;
     update_session_closed now (s_id session) ;;;
     new_id <- insert_session now ;;
     ret (s_id session, new_id)).

(** [POST /api/sessions/close] *)
Definition post_sessions_close (now : timestamp) : db -> response * db :=
  try_catch
    (result <- close_transaction now ;;
     ret (res_json (BClosed (fst result) (snd result))))
    (fun _ => res_status_json 500 (BError "Failed to close session")).

(** ** Products *)

(** [GET /api/products] *)
Definition get_products : db -> response * db :=
  try_catch
    (rows <- select_products ;; ret (res_json (BProducts rows)))
    (fun _ => res_status_json 500 (BError "Failed to get products")).

(** [POST /api/products], on a body that carries the three fields (with
    one missing or [null]: [post_products_body]). *)
Definition post_products (name : string) (price : Q) (initial_stock : Z)
  : db -> response * db :=
  try_catch
    (id <- insert_product name price initial_stock initial_stock ;;
     ret (res_json (BId id)))
    (fun _ => res_status_json 500 (BError "Failed to create product")).

(** [PUT /api/products/:id], on a body that carries the three fields (with
    one missing or [null]: [put_products_id_body]).  [id] is
    [parseInt(req.params.id)], with [None] for NaN. *)
Definition put_products_id (id : option Z) (name : string) (price : Q)
    (stock : Z) : db -> response * db :=
  try_catch
    (match id with
     | None => ret (res_status_json 400 (BError "Invalid product ID"))
     | Some id =>
         changes <- update_product_row name price stock id ;;
         ret (res_json (BChanges changes))
     end)
    (fun e => res_status_json 500 (BError (message e))).

(** [DELETE /api/products/:id] *)
Definition delete_products_id (id : option Z) : db -> response * db :=
  try_catch
    (match id with
     | None => ret (res_status_json 400 (BError "Invalid product ID"))
     | Some id =>
         changes <- update_product_deleted id ;;
         ret (res_json (BChanges changes))
     end)
    (fun e => res_status_json 500 (BError (message e))).

(** ** Inventory movements *)

(** The stock computation of the handler: either the early 400 answer or
    [newStock].  [+=] and [-=] are those of [Z], which is what JavaScript
    computes as long as stock, quantity and result are safe integers. *)
Definition move_new_stock (stock : Z) (type : string) (quantity : Z)
  : response + Z :=
  if String.eqb type "entry" then inr (stock + quantity)
  else if String.eqb type "waste" then
    if stock <? quantity
    then inl (res_status_json 400 (BError "Insufficient stock for waste"))
    else inr (stock - quantity)
  else inr stock.

(** [POST /api/inventory/move] *)
Definition post_inventory_move (now : timestamp) (product_id : Z)
    (type : string) (quantity : Z) (reason : option string)
  : db -> response * db :=
  try_catch
    (session <- getCurrentSession now ;;
     product <- select_stock product_id ;;
     match product with
     | None => ret (res_status_json 404 (BError "Product not found"))
     | Some stock =>
         match move_new_stock stock type quantity with
         | inl early => ret early
         | inr newStock =>
             transaction
               (update_product_stock newStock product_id ;;;
                insert_movement now (s_id session) product_id type quantity reason ;;;
                ret tt) ;;;
             ret (res_json (BNewStock newStock))
         end
     end)
    (fun _ => res_status_json 500 (BError "Failed to record movement")).

(** ** Sales *)

Record item := mkItem {
  item_id : Z;
  item_name : string;
  item_quantity : Z;
  item_price : Q
}.

(** What [product.stock] throws when [product] is [undefined]. *)
Definition undefined_stock : exn :=
  TypeError "Cannot read properties of undefined (reading 'stock')".

Definition insufficient_stock_for (name : string) : string :=
  String.append "Insufficient stock for " name.

(** The body of the loop over the items of a sale. *)
Definition sale_item_body (now : timestamp) (session_id saleId : Z) (it : item)
  : M unit :=
  product <- select_stock (item_id it) ;;
  match product with
  | None => throw undefined_stock
  | Some stock =>
      if stock <? item_quantity it
      then throw (JsError (insufficient_stock_for (item_name it)))
      else
        insert_sale_item saleId (item_id it) (item_quantity it) (item_price it) ;;;
        decrement_product_stock (item_quantity it) (item_id it) ;;;
        insert_movement now session_id (item_id it) "sale" (item_quantity it)
                        (Some "Venta") ;;;
        ret tt
  end.

Definition sale_transaction (now : timestamp) (session_id : Z)
    (items : list item) (payment_method : option string) (total : Q) : M Z :=
  transaction
    (saleId <- insert_sale now session_id total payment_method ;;
     for_of items (sale_item_body now session_id saleId) ;;;
     ret saleId).

(** [POST /api/sales] *)
Definition post_sales (now : timestamp) (items : list item)
    (payment_method : option string) (total : Q) : db -> response * db :=
  try_catch
    (session <- getCurrentSession now ;;
     saleId <- sale_transaction now (s_id session) items payment_method total ;;
     ret (res_json (BSaleId saleId)))
    (fun e => res_status_json 400 (BError (message e))).

(** ** Reports *)

(** [GET /api/reports/session/:id] *)
Definition get_reports_session (sessionId : Z) : db -> response * db :=
  fun st =>
    (res_json (BReport (select_sales sessionId st)
                       (select_movements sessionId st) None), st).

(** [GET /api/reports/current] *)
Definition get_reports_current (now : timestamp) : db -> response * db :=
  try_catch
    (session <- getCurrentSession now ;;
     fun st =>
       Ok (res_json (BReport (select_sales (s_id session) st)
                             (select_movements (s_id session) st)
                             (Some session))) st)
    global_error_handler.

(** ** The engine as a whole *)

Inductive request :=
| GetCurrentSession
| CloseSession
| ListProducts
| AddProduct (name : string) (price : Q) (initial_stock : Z)
| UpdateProduct (id : option Z) (name : string) (price : Q) (stock : Z)
| SoftDeleteProduct (id : option Z)
| RecordMovement (product_id : Z) (type : string) (quantity : Z)
                 (reason : option string)
| Checkout (items : list item) (payment_method : option string) (total : Q)
| ReportForSession (sessionId : Z)
| ReportCurrent.

Definition handle (now : timestamp) (r : request) : db -> response * db :=
  match r with
  | GetCurrentSession => get_sessions_current now
  | CloseSession => post_sessions_close now
  | ListProducts => get_products
  | AddProduct name price initial_stock => post_products name price initial_stock
  | UpdateProduct id name price stock => put_products_id id name price stock
  | SoftDeleteProduct id => delete_products_id id
  | RecordMovement product_id type quantity reason =>
      post_inventory_move now product_id type quantity reason
  | Checkout items payment_method total => post_sales now items payment_method total
  | ReportForSession sessionId => get_reports_session sessionId
  | ReportCurrent => get_reports_current now
  end.

(** The database after a sequence of timestamped requests. *)
Fixpoint run (reqs : list (timestamp * request)) (st : db) : db :=
  match reqs with
  | [] => st
  | (now, r) :: rest => run rest (snd (handle now r st))
  end.

(** ** Example databases *)

Definition prod (id : Z) (name : string) (stock : Z) : product :=
  mkProduct id name (10 # 1) stock stock 0 None.

Definition db0 : db :=
  mkDb [mkSession 1 100 None 0] [prod 1 "P1" 2; prod 2 "P2" 0] [] [] [].

(** * Vocabulary of the properties *)

(** The stock the engine reads for a product id, as [SELECT stock ... .get()]
    does: that of the first matching row. *)
Definition stock_of (id : Z) (st : db) : option Z :=
  option_map p_stock (find (fun p => p_id p =? id) (products st)).

(** Number of sessions with [is_closed = 0]. *)
Definition open_count (st : db) : nat :=
  List.length (filter is_open (sessions st)).

(** Products, movements, sales and sale items are what they were. *)
Definition same_ledger (st st' : db) : Prop :=
  products st' = products st /\
  movements st' = movements st /\
  sales st' = sales st /\
  sale_items st' = sale_items st.

(** [id] is the primary key of [products]. *)
Definition products_pk (st : db) : Prop := NoDup (map p_id (products st)).

Definition stock_nonneg (st : db) : Prop :=
  Forall (fun p => 0 <= p_stock p) (products st).

(** The session [getCurrentSession] answers with, and the database it
    leaves: untouched when a session is open, one fresh row otherwise. *)
Definition current (now : timestamp) (st : db) : session :=
  match last_by_id (filter is_open (sessions st)) with
  | Some s => s
  | None => mkSession (next_id (map s_id (sessions st))) now None 0
  end.

Definition opened (now : timestamp) (st : db) : db :=
  match last_by_id (filter is_open (sessions st)) with
  | Some _ => st
  | None =>
      mkDb (sessions st ++
              [mkSession (next_id (map s_id (sessions st))) now None 0])
           (products st) (movements st) (sales st) (sale_items st)
  end.

(** What one pass of the sale loop stages for an item that passes its
    stock check. *)
Definition stage_item (now : timestamp) (session_id saleId : Z) (it : item)
    (st : db) : db :=
  mkDb (sessions st)
       (map (fun p => if p_id p =? item_id it
                      then set_stock (p_stock p - item_quantity it) p
                      else p) (products st))
       (movements st ++
          [mkMovement (next_id (map m_id (movements st))) session_id
                      (item_id it) "sale" (item_quantity it) (Some "Venta") now])
       (sales st)
       (sale_items st ++
          [mkSaleItem (next_id (map si_id (sale_items st))) saleId
                      (item_id it) (item_quantity it) (item_price it)]).

(** [m] relates the database it starts from to the one it ends with,
    whether it returns or throws. *)
Definition respects (R : db -> db -> Prop) {A} (m : M A) : Prop :=
  forall st,
    match m st with
    | Ok _ st' => R st st'
    | Throw _ st' => R st st'
    end.

(** The database [POST /api/sessions/close] commits. *)
Definition closed (now : timestamp) (st : db) : db :=
  let st1 := opened now st in
  let rows := map (close_row now (s_id (current now st))) (sessions st1) in
  mkDb (rows ++ [mkSession (next_id (map s_id rows)) now None 0])
       (products st1) (movements st1) (sales st1) (sale_items st1).

(** The database a recorded movement commits. *)
Definition moved (now : timestamp) (sid product_id : Z) (type : string)
    (quantity : Z) (reason : option string) (newStock : Z) (st : db) : db :=
  mkDb (sessions st)
       (map (fun p => if p_id p =? product_id then set_stock newStock p else p)
            (products st))
       (movements st ++
          [mkMovement (next_id (map m_id (movements st))) sid product_id type
                      quantity reason now])
       (sales st) (sale_items st).

Definition same_sessions (st st' : db) : Prop := sessions st' = sessions st.

(** Requests that go through [getCurrentSession]. *)
Definition uses_session (r : request) : bool :=
  match r with
  | GetCurrentSession | CloseSession | ReportCurrent => true
  | RecordMovement _ _ _ _ | Checkout _ _ _ => true
  | _ => false
  end.

(** The primary key holds and no stock is negative. *)
Definition stock_inv (st : db) : Prop := products_pk st /\ stock_nonneg st.

Definition keeps_stock_inv (st st' : db) : Prop := stock_inv st -> stock_inv st'.

(** The movements under which stock stays non-negative: any that is not an
    entry, and entries of a non-negative quantity. *)
Definition entry_quantity_ok (type : string) (quantity : Z) : bool :=
  if String.eqb type "entry" then 0 <=? quantity else true.

(** Calls of [recordMovement] and [checkout]; an entry carries a
    non-negative quantity. *)
Definition ledger_call (r : request) : bool :=
  match r with
  | RecordMovement _ type quantity _ => entry_quantity_ok type quantity
  | Checkout _ _ _ => true
  | _ => false
  end.

(** The database in which the loop of a sale reaches the item that comes
    after [pre]: the sale row inserted and the rows of [pre] staged.
    [None] when the transaction throws before it gets there. *)
Definition staged (now : timestamp) (sid : Z) (pm : option string) (total : Q)
    (pre : list item) (st : db) : option db :=
  match (saleId <- insert_sale now sid total pm ;;
         for_of pre (sale_item_body now sid saleId)) st with
  | Ok _ st' => Some st'
  | Throw _ _ => None
  end.

(** [it] fails its stock check at the moment its row is processed. *)
Definition fails_stock_check (now : timestamp) (items : list item)
    (pm : option string) (total : Q) (st : db) (it : item) : Prop :=
  exists pre post stk stock,
    items = pre ++ it :: post /\
    staged now (s_id (current now st)) pm total pre (opened now st) = Some stk /\
    stock_of (item_id it) stk = Some stock /\
    stock < item_quantity it.

(** What a movement row and a sale item row say, their keys apart. *)
Definition movement_data (m : movement)
  : Z * Z * string * Z * option string * timestamp :=
  (m_session_id m, m_product_id m, m_type m, m_quantity m, m_reason m,
   m_timestamp m).

Definition sale_item_data (si : sale_item) : Z * Z * Z * Q :=
  (si_sale_id si, si_product_id si, si_quantity si, si_price_at_sale si).

(** The row [PUT /api/products/:id] writes over [p]. *)
Definition overwrite (name : string) (price : Q) (stock : Z) (p : product)
  : product :=
  mkProduct (p_id p) name price stock (p_initial_stock p) (p_deleted p)
            (p_image p).

Definition soft_delete (p : product) : product :=
  mkProduct (p_id p) (p_name p) (p_price p) (p_stock p) (p_initial_stock p) 1
            (p_image p).

(** ** What a request can do to the database *)

(** After [INSERT INTO products]. *)
Definition added (name : string) (price : Q) (stock : Z) (st : db) : db :=
  mkDb (sessions st)
       (products st ++
          [mkProduct (next_id (map p_id (products st))) name price stock stock
                     0 None])
       (movements st) (sales st) (sale_items st).

(** After an UPDATE of the product rows of one id. *)
Definition updated (f : product -> product) (id : Z) (st : db) : db :=
  mkDb (sessions st)
       (map (fun p => if p_id p =? id then f p else p) (products st))
       (movements st) (sales st) (sale_items st).

(** After [INSERT INTO sales]. *)
Definition sale_added (now : timestamp) (sid : Z) (total : Q)
    (pm : option string) (st : db) : db :=
  mkDb (sessions st) (products st) (movements st)
       (sales st ++ [mkSale (next_id (map sa_id (sales st))) sid total pm now])
       (sale_items st).

(** After the loop of a sale has staged all of [items]. *)
Definition sold (now : timestamp) (sid saleId : Z) (items : list item)
    (st : db) : db :=
  fold_left (fun s it => stage_item now sid saleId it s) items st.

(** [effect now st r st']: [st'] is a database the request [r] may leave
    when it is handled at [now] in [st].  Each rule is one way out of a
    handler: an answer without a write, a write of [getCurrentSession]
    alone, or a committed transaction. *)
Inductive effect (now : timestamp) (st : db) : request -> db -> Prop :=
| effect_none r :
    effect now st r st
| effect_opened r :
    uses_session r = true ->
    effect now st r (opened now st)
| effect_closed :
    effect now st CloseSession (closed now st)
| effect_added name price stock :
    effect now st (AddProduct name price stock) (added name price stock st)
| effect_overwritten id name price stock :
    effect now st (UpdateProduct (Some id) name price stock)
           (updated (overwrite name price stock) id st)
| effect_deleted id :
    effect now st (SoftDeleteProduct (Some id)) (updated soft_delete id st)
| effect_moved product_id type quantity reason stock newStock :
    stock_of product_id st = Some stock ->
    move_new_stock stock type quantity = inr newStock ->
    check_type type = true ->
    effect now st (RecordMovement product_id type quantity reason)
           (moved now (s_id (current now st)) product_id type quantity reason
                  newStock (opened now st))
| effect_sold items pm total :
    Forall (fun it => In (item_id it) (map p_id (products st))) items ->
    effect now st (Checkout items pm total)
           (sold now (s_id (current now st))
                 (next_id (map sa_id (sales st))) items
                 (sale_added now (s_id (current now st)) total pm
                             (opened now st))).

(** The primary keys of the five tables. *)
Definition pk_all (st : db) : Prop :=
  NoDup (map s_id (sessions st)) /\
  NoDup (map p_id (products st)) /\
  NoDup (map m_id (movements st)) /\
  NoDup (map sa_id (sales st)) /\
  NoDup (map si_id (sale_items st)).

(** The foreign keys of the schema: every movement and sale names a
    session, every movement and sale item a product, every sale item a
    sale, that has a row. *)
Definition fk_all (st : db) : Prop :=
  Forall (fun m => In (m_session_id m) (map s_id (sessions st)) /\
                   In (m_product_id m) (map p_id (products st)))
         (movements st) /\
  Forall (fun s => In (sa_session_id s) (map s_id (sessions st))) (sales st) /\
  Forall (fun si => In (si_sale_id si) (map sa_id (sales st)) /\
                    In (si_product_id si) (map p_id (products st)))
         (sale_items st).

(** [st'] has every row [st] has, in place: the ledger tables of [st'] are
    those of [st] with rows after them, and so are the ids of its sessions
    and products. *)
Definition extends (st st' : db) : Prop :=
  (exists l, map s_id (sessions st') = map s_id (sessions st) ++ l) /\
  (exists l, map p_id (products st') = map p_id (products st) ++ l) /\
  (exists l, movements st' = movements st ++ l) /\
  (exists l, sales st' = sales st ++ l) /\
  (exists l, sale_items st' = sale_items st ++ l).

(** ** The audit trail *)

(** What a movement adds to the stock of its product. *)
Definition delta (m : movement) : Z :=
  if String.eqb (m_type m) "entry" then m_quantity m
  else if String.eqb (m_type m) "waste" || String.eqb (m_type m) "sale"
       then - m_quantity m
       else 0.

(** The sum of the movements of a product. *)
Definition balance (id : Z) (ms : list movement) : Z :=
  fold_right (fun m acc => if m_product_id m =? id then delta m + acc else acc)
             0 ms.

(** Every stock is explained by the audit trail: it is the initial stock
    plus the entries, less the wastes and the sales, of the product.  The
    primary key of products and the product key of movements go with it. *)
Definition stock_audited (st : db) : Prop :=
  products_pk st /\
  Forall (fun m => In (m_product_id m) (map p_id (products st))) (movements st) /\
  Forall (fun p => p_stock p = p_initial_stock p + balance (p_id p) (movements st))
         (products st).

(** The requests that go through the audit trail: all but updateProduct,
    which overwrites the stock, and a movement of type "sale" asked of the
    move handler, which logs a sale without selling. *)
Definition audited (r : request) : bool :=
  match r with
  | UpdateProduct _ _ _ _ => false
  | RecordMovement _ type _ _ => negb (String.eqb type "sale")
  | _ => true
  end.

(** ** The history of closed sessions *)

(** Order of two [end_time]s, NULL below every time. *)
Definition end_time_leb (a b : option timestamp) : bool :=
  match a, b with
  | None, _ => true
  | Some _, None => false
  | Some x, Some y => x <=? y
  end.

(** [ORDER BY end_time DESC]: latest first, NULLs last.  SQL leaves the
    order of rows with equal [end_time] open; here they keep the order of
    the table. *)
Fixpoint insert_by_end_time (s : session) (l : list session) : list session :=
  match l with
  | [] => [s]
  | x :: rest =>
      if end_time_leb (s_end_time x) (s_end_time s)
      then s :: x :: rest
      else x :: insert_by_end_time s rest
  end.

Fixpoint order_by_end_time_desc (l : list session) : list session :=
  match l with
  | [] => []
  | s :: rest => insert_by_end_time s (order_by_end_time_desc rest)
  end.

(** [SELECT * FROM sessions WHERE is_closed = 1 ORDER BY end_time DESC] *)
Definition select_closed_sessions : M (list session) :=
  fun st =>
    Ok (order_by_end_time_desc
          (filter (fun s => s_is_closed s =? 1) (sessions st))) st.

(** What [GET /api/sessions/history] answers with: the rows, or
    [{ error }]. *)
Inductive history_body :=
| HSessions (rows : list session)
| HError (error : string).

(** [GET /api/sessions/history]: status and body, and the database. *)
Definition get_sessions_history (st : db) : (Z * history_body) * db :=
  match select_closed_sessions st with
  | Ok rows st' => ((200, HSessions rows), st')
  | Throw _ st' => ((500, HError "Failed to get history"), st')
  end.

(** The rows of the history. *)
Definition history (st : db) : list session :=
  order_by_end_time_desc (filter (fun s => s_is_closed s =? 1) (sessions st)).

(** Rows in the order [ORDER BY end_time DESC] asks for. *)
Definition latest_first (a b : session) : Prop :=
  end_time_leb (s_end_time b) (s_end_time a) = true.

(** * The cart of the client

    The state updaters of the selling screen, as functions of the previous
    cart.  A cart item is a product of the listing with a quantity; its
    [stock] is the one the listing showed when the item was added. *)

(** [interface Product] *)
Record client_product := mkClientProduct {
  cp_id : Z;
  cp_name : string;
  cp_price : Q;
  cp_stock : Z;
  cp_initial_stock : Z
}.

(** [interface CartItem extends Product] *)
Record cart_item := mkCartItem {
  ci_id : Z;
  ci_name : string;
  ci_price : Q;
  ci_stock : Z;
  ci_initial_stock : Z;
  ci_quantity : Z
}.

Definition with_quantity (quantity : Z) (it : cart_item) : cart_item :=
  mkCartItem (ci_id it) (ci_name it) (ci_price it) (ci_stock it)
             (ci_initial_stock it) quantity.

(** [addToCart(product)]: nothing for a product out of stock; one more of a
    product already in the cart, unless the cart has as many as the stock;
    else a new item of quantity 1 at the end. *)
Definition addToCart (product : client_product) (prev : list cart_item)
  : list cart_item :=
  if cp_stock product <=? 0 then prev
  else
    match find (fun it => ci_id it =? cp_id product) prev with
    | Some existing =>
        if cp_stock product <=? ci_quantity existing then prev
        else map (fun it => if ci_id it =? cp_id product
                            then with_quantity (ci_quantity it + 1) it
                            else it) prev
    | None =>
        prev ++ [mkCartItem (cp_id product) (cp_name product) (cp_price product)
                            (cp_stock product) (cp_initial_stock product) 1]
    end.

(** [removeFromCart(productId)] *)
Definition removeFromCart (productId : Z) (prev : list cart_item)
  : list cart_item :=
  filter (fun it => negb (ci_id it =? productId)) prev.

(** [updateCartQuantity(productId, delta)]:
    [Math.max(1, Math.min(item.quantity + delta, item.stock))] *)
Definition updateCartQuantity (productId delta : Z) (prev : list cart_item)
  : list cart_item :=
  map (fun it =>
         if ci_id it =? productId
         then with_quantity
                (Z.max 1 (Z.min (ci_quantity it + delta) (ci_stock it))) it
         else it) prev.

(** What the selling screen does to its cart. *)
Inductive cart_action :=
| AddToCart (product : client_product)
| RemoveFromCart (productId : Z)
| UpdateCartQuantity (productId delta : Z).

Definition cart_step (a : cart_action) (cart : list cart_item) : list cart_item :=
  match a with
  | AddToCart product => addToCart product cart
  | RemoveFromCart productId => removeFromCart productId cart
  | UpdateCartQuantity productId delta => updateCartQuantity productId delta cart
  end.

(** The cart after a sequence of actions, first action first. *)
Definition cart_after (actions : list cart_action) (cart : list cart_item)
  : list cart_item :=
  fold_left (fun c a => cart_step a c) actions cart.

(** The fields of a cart item that [POST /api/sales] reads when the cart is
    sent as [items]. *)
Definition item_of_cart (it : cart_item) : item :=
  mkItem (ci_id it) (ci_name it) (ci_quantity it) (ci_price it).

(** * The offline mirror of the client

    What the [api] object of the client does to its [localStorage] tables
    when the request to the server has failed.  The clock read by
    [Date.now()] and [new Date()] is the argument [now]. *)

(** A movement of the local table:
    [{ ...move, product_name, id, session_id, timestamp }]. *)
Record local_movement := mkLocalMovement {
  lm_product_id : Z;
  lm_type : string;
  lm_quantity : Z;
  lm_reason : option string;
  lm_product_name : string;
  lm_id : Z;
  lm_session_id : Z;
  lm_timestamp : timestamp
}.

(** The tables under the keys [vpro_products], [vpro_sessions] and
    [vpro_movements]. *)
Record local_store := mkLocalStore {
  l_products : list product;
  l_sessions : list session;
  l_movements : list local_movement
}.

(** [localDB.getCurrentSession()]: the first session with
    [is_closed === 0]; without one, a new session, stored at the end. *)
Definition localDB_getCurrentSession (now : timestamp) (sessions : list session)
  : session * list session :=
  match find (fun s => s_is_closed s =? 0) sessions with
  | Some current => (current, sessions)
  | None =>
      let current := mkSession now now None 0 in
      (current, sessions ++ [current])
  end.

(** The session [sessions.find(...)] returned, closed in place. *)
Fixpoint close_first_open (now : timestamp) (sessions : list session)
  : list session :=
  match sessions with
  | [] => []
  | s :: rest =>
      if s_is_closed s =? 0
      then mkSession (s_id s) (s_start_time s) (Some now) 1 :: rest
      else s :: close_first_open now rest
  end.

(** [api.closeSession()] after the request has failed. *)
Definition api_closeSession (now : timestamp) (sessions : list session)
  : list session :=
  match find (fun s => s_is_closed s =? 0) sessions with
  | Some _ => close_first_open now sessions ++ [mkSession now now None 0]
  | None => sessions
  end.

(** The product [products.find(...)] returned, its stock changed in place. *)
Fixpoint update_first (id : Z) (f : product -> product) (l : list product)
  : list product :=
  match l with
  | [] => []
  | p :: rest =>
      if p_id p =? id then f p :: rest else p :: update_first id f rest
  end.

(** [api.moveInventory(move)] after the request has failed.  As on the
    server, [+=] and [-=] are those of [Z], exact on safe integers. *)
Definition api_moveInventory (now : timestamp) (product_id : Z) (type : string)
    (quantity : Z) (reason : option string) (store : local_store)
  : local_store :=
  match find (fun p => p_id p =? product_id) (l_products store) with
  | Some product =>
      let products :=
        update_first product_id
          (fun p =>
             if String.eqb type "entry" then set_stock (p_stock p + quantity) p
             else if String.eqb type "waste"
                  then set_stock (p_stock p - quantity) p
                  else p)
          (l_products store) in
      let (session, sessions) :=
        localDB_getCurrentSession now (l_sessions store) in
      mkLocalStore products sessions
        (l_movements store ++
           [mkLocalMovement product_id type quantity reason (p_name product)
                            now (s_id session) now])
  | None => store
  end.

(** What the offline session screen can do. *)
Inductive local_session_action :=
| LocalGetCurrentSession
| LocalCloseSession.

Definition local_session_step (a : timestamp * local_session_action)
    (sessions : list session) : list session :=
  match snd a with
  | LocalGetCurrentSession => snd (localDB_getCurrentSession (fst a) sessions)
  | LocalCloseSession => api_closeSession (fst a) sessions
  end.

Definition local_open_count (sessions : list session) : nat :=
  List.length (filter (fun s => s_is_closed s =? 0) sessions).

(** The stock the offline mirror reads for a product id. *)
Definition local_stock_of (id : Z) (store : local_store) : option Z :=
  option_map p_stock (find (fun p => p_id p =? id) (l_products store)).

(** ** The range in which the arithmetic is exact *)

(** [Number.MIN_SAFE_INTEGER <= z <= Number.MAX_SAFE_INTEGER].  The server
    and the client add and subtract stocks and quantities as IEEE doubles
    (JavaScript's [+=] and [-=], SQLite's [stock - ?] on a bound number);
    on integers of this range, with a result in this range, that is the
    addition and subtraction of [Z]. *)
Definition safe_integer (z : Z) : Prop :=
  - 9007199254740991 <= z <= 9007199254740991.

Definition safe_stocks (st : db) : Prop :=
  Forall (fun p => safe_integer (p_stock p)) (products st).

(** The numbers of a request are in the range; the quantities of a sale,
    which are subtracted one after the other in the loop, are moreover not
    negative, so that every stock the loop passes through lies between the
    stock it ends with and the stock it started from. *)
Definition safe_request (r : request) : Prop :=
  match r with
  | AddProduct _ _ initial_stock => safe_integer initial_stock
  | UpdateProduct _ _ _ stock => safe_integer stock
  | RecordMovement _ _ quantity _ => safe_integer quantity
  | Checkout items _ _ =>
      Forall (fun it => 0 <= item_quantity it /\ safe_integer (item_quantity it))
             items
  | _ => True
  end.

(** The requests and the stocks they leave, one request after the other,
    stay in the range. *)
Fixpoint safe_run (reqs : list (timestamp * request)) (st : db) : Prop :=
  match reqs with
  | [] => True
  | (now, r) :: rest =>
      safe_request r /\
      safe_stocks (snd (handle now r st)) /\
      safe_run rest (snd (handle now r st))
  end.

(** * The catalogue, with the body of the request as it arrives

    [post_products] and [put_products_id] above are the two handlers on a
    body that carries a name, a price and a stock.  Here a field of the
    body may be missing or [null] ([None]): better-sqlite3 binds both as
    NULL.  [stock] and [initial_stock] are nullable columns, so a row can
    hold NULL there; [name] and [price] are NOT NULL, and a statement that
    would write NULL into one of them fails with a [SqliteError] and
    writes nothing.  The two handlers touch no other table, so the state
    is the table [products] alone. *)

Record product_row := mkProductRow {
  r_id : Z;
  r_name : string;
  r_price : Q;
  r_stock : option Z;
  r_initial_stock : option Z;
  r_deleted : Z;
  r_image : option string
}.

(** A row of the typed table, as a row of this one. *)
Definition row_of (p : product) : product_row :=
  mkProductRow (p_id p) (p_name p) (p_price p) (Some (p_stock p))
               (Some (p_initial_stock p)) (p_deleted p) (p_image p).

(** [name TEXT NOT NULL, price REAL NOT NULL], checked in column order on
    the row about to be written. *)
Definition not_null_products (name : option string) (price : option Q)
  : exn + string * Q :=
  match name, price with
  | None, _ => inl (SqliteError "NOT NULL constraint failed: products.name")
  | Some _, None =>
      inl (SqliteError "NOT NULL constraint failed: products.price")
  | Some n, Some p => inr (n, p)
  end.

(** [INSERT INTO products (name, price, stock, initial_stock) VALUES (?, ?, ?, ?)]:
    the new id and the table, or the exception, the table being as it was. *)
Definition insert_product_body (name : option string) (price : option Q)
    (stock initial_stock : option Z) (rows : list product_row)
  : exn + Z * list product_row :=
  match not_null_products name price with
  | inl e => inl e
  | inr (n, p) =>
      let id := next_id (map r_id rows) in
      inr (id, rows ++ [mkProductRow id n p stock initial_stock 0 None])
  end.

Definition changes_of_rows (id : Z) (rows : list product_row) : Z :=
  Z.of_nat (List.length (filter (fun r => r_id r =? id) rows)).

(** The row [PUT /api/products/:id] writes over [r]. *)
Definition overwrite_row (name : string) (price : Q) (stock : option Z)
    (r : product_row) : product_row :=
  mkProductRow (r_id r) name price stock (r_initial_stock r) (r_deleted r)
               (r_image r).

(** [UPDATE products SET name = ?, price = ?, stock = ? WHERE id = ?].  The
    constraints are checked on the rows the statement writes: when no row
    has the id there is nothing to check and nothing changes. *)
Definition update_product_row_body (name : option string) (price : option Q)
    (stock : option Z) (id : Z) (rows : list product_row)
  : exn + Z * list product_row :=
  if changes_of_rows id rows =? 0 then inr (0, rows)
  else
    match not_null_products name price with
    | inl e => inl e
    | inr (n, p) =>
        inr (changes_of_rows id rows,
             map (fun r => if r_id r =? id then overwrite_row n p stock r
                           else r) rows)
    end.

(** [POST /api/products] on the body [{ name, price, initial_stock }]. *)
Definition post_products_body (name : option string) (price : option Q)
    (initial_stock : option Z) (rows : list product_row)
  : response * list product_row :=
  match insert_product_body name price initial_stock initial_stock rows with
  | inr (id, rows') => (res_json (BId id), rows')
  | inl _ => (res_status_json 500 (BError "Failed to create product"), rows)
  end.

(** [PUT /api/products/:id] on the body [{ name, price, stock }]; [id] is
    [parseInt(req.params.id)], with [None] for NaN. *)
Definition put_products_id_body (id : option Z) (name : option string)
    (price : option Q) (stock : option Z) (rows : list product_row)
  : response * list product_row :=
  match id with
  | None => (res_status_json 400 (BError "Invalid product ID"), rows)
  | Some id =>
      match update_product_row_body name price stock id rows with
      | inr (changes, rows') => (res_json (BChanges changes), rows')
      | inl e => (res_status_json 500 (BError (message e)), rows)
      end
  end.

(** * Properties *)

(** ** Keys *)

Lemma fold_max_ge (ids : list Z) (i : Z) :
  In i ids -> i <= fold_right Z.max 0 ids.
Proof.
  induction ids as [|a ids IH]; simpl; intros H.
  - contradiction.
  - destruct H as [-> | H]; [lia | specialize (IH H); lia].
Qed.

Lemma next_id_fresh (ids : list Z) : ~ In (next_id ids) ids.
Proof.
  intros H. apply fold_max_ge in H. unfold next_id in H. lia.
Qed.

Lemma next_id_pos (ids : list Z) : 0 < next_id ids.
Proof.
  unfold next_id.
  assert (0 <= fold_right Z.max 0 ids) by (induction ids; simpl; lia).
  lia.
Qed.

(** ** Sessions *)

Lemma last_by_id_none (l : list session) : last_by_id l = None -> l = [].
Proof.
  destruct l as [|s l]; simpl; [reflexivity|].
  destruct (last_by_id l) as [s'|]; [destruct (s_id s <? s_id s')|]; discriminate.
Qed.

Lemma last_by_id_in (l : list session) (s : session) :
  last_by_id l = Some s -> In s l.
Proof.
  revert s. induction l as [|a l IH]; simpl; intros s H; [discriminate|].
  destruct (last_by_id l) as [s'|].
  - destruct (s_id a <? s_id s'); inversion H; subst; auto.
  - inversion H; auto.
Qed.

Lemma getCurrentSession_eq (now : timestamp) (st : db) :
  getCurrentSession now st = Ok (current now st) (opened now st).
Proof.
  unfold getCurrentSession, current, opened, bind, select_open_session.
  destruct (last_by_id (filter is_open (sessions st))); reflexivity.
Qed.

Lemma opened_same_ledger (now : timestamp) (st : db) :
  same_ledger st (opened now st).
Proof.
  unfold same_ledger, opened.
  destruct (last_by_id _); simpl; auto.
Qed.

Lemma opened_id (now : timestamp) (st : db) :
  (0 < open_count st)%nat -> opened now st = st.
Proof.
  unfold open_count, opened. intros H.
  destruct (last_by_id _) eqn:E; [reflexivity|].
  apply last_by_id_none in E. rewrite E in H. simpl in H. lia.
Qed.

Lemma filter_open_app (l l' : list session) :
  filter is_open (l ++ l') = filter is_open l ++ filter is_open l'.
Proof. apply filter_app. Qed.

Lemma open_count_opened (now : timestamp) (st : db) :
  (open_count st <= 1)%nat -> open_count (opened now st) = 1%nat.
Proof.
  unfold open_count, opened. intros H.
  destruct (last_by_id _) eqn:E.
  - apply last_by_id_in in E.
    destruct (filter is_open (sessions st)); simpl in *; [contradiction | lia].
  - apply last_by_id_none in E. simpl.
    rewrite filter_open_app, E. reflexivity.
Qed.

Lemma current_open (now : timestamp) (st : db) :
  s_is_closed (current now st) = 0.
Proof.
  unfold current. destruct (last_by_id _) eqn:E; [|reflexivity].
  apply last_by_id_in, filter_In in E. destruct E as [_ E].
  unfold is_open in E. lia.
Qed.

Lemma current_in_opened (now : timestamp) (st : db) :
  In (current now st) (sessions (opened now st)).
Proof.
  unfold current, opened. destruct (last_by_id _) eqn:E.
  - apply last_by_id_in, filter_In in E. tauto.
  - simpl. apply in_or_app. right. left. reflexivity.
Qed.

(** With exactly one open session, that session is the current one. *)
Lemma current_unique (now : timestamp) (st : db) (s : session) :
  open_count st = 1%nat -> In s (sessions st) -> s_is_closed s = 0 ->
  current now st = s.
Proof.
  unfold open_count, current. intros H Hin Hs.
  assert (Hf : In s (filter is_open (sessions st))).
  { apply filter_In. split; [assumption|]. unfold is_open. lia. }
  destruct (filter is_open (sessions st)) as [|a [|b l]]; simpl in *; try lia.
  destruct Hf as [-> | []]. reflexivity.
Qed.

(** ** Frames: what a statement leaves alone *)

Section Frame.
Variable R : db -> db -> Prop.
Hypothesis R_refl : forall st, R st st.
Hypothesis R_trans : forall a b c, R a b -> R b c -> R a c.

Lemma respects_ret {A} (a : A) : respects R (ret a).
Proof. intros st. apply R_refl. Qed.

Lemma respects_throw {A} (e : exn) : respects R (@throw A e).
Proof. intros st. apply R_refl. Qed.

Lemma respects_bind {A B} (m : M A) (k : A -> M B) :
  respects R m -> (forall a, respects R (k a)) -> respects R (bind m k).
Proof.
  intros Hm Hk st. unfold bind. specialize (Hm st).
  destruct (m st) as [a st1 | e st1]; [|assumption].
  specialize (Hk a st1). destruct (k a st1); eauto.
Qed.

Lemma respects_transaction {A} (m : M A) :
  respects R m -> respects R (transaction m).
Proof.
  intros Hm st. unfold transaction. specialize (Hm st).
  destruct (m st); [assumption | apply R_refl].
Qed.

Lemma respects_for_of {A} (xs : list A) (body : A -> M unit) :
  (forall x, respects R (body x)) -> respects R (for_of xs body).
Proof.
  intros Hb. induction xs as [|x xs IH]; simpl.
  - apply respects_ret.
  - apply respects_bind; auto.
Qed.

End Frame.

(** ** The sale loop, one item at a time *)

Lemma sale_item_body_eq (now : timestamp) (sid saleId : Z) (it : item) (st : db) :
  sale_item_body now sid saleId it st =
  match stock_of (item_id it) st with
  | None => Throw undefined_stock st
  | Some stock =>
      if stock <? item_quantity it
      then Throw (JsError (insufficient_stock_for (item_name it))) st
      else Ok tt (stage_item now sid saleId it st)
  end.
Proof.
  unfold sale_item_body, stock_of, bind, select_stock.
  destruct (find _ (products st)) as [p|]; simpl; [|reflexivity].
  destruct (p_stock p <? item_quantity it); reflexivity.
Qed.

Lemma for_of_app {A} (xs ys : list A) (body : A -> M unit) (st : db) :
  for_of (xs ++ ys) body st =
  match for_of xs body st with
  | Ok _ st' => for_of ys body st'
  | Throw e st' => Throw e st'
  end.
Proof.
  revert st. induction xs as [|x xs IH]; intros st; simpl; [reflexivity|].
  unfold bind. destruct (body x st); [apply IH | reflexivity].
Qed.

(** Handlers, unfolded once. *)

Lemma get_sessions_current_eq (now : timestamp) (st : db) :
  get_sessions_current now st =
  (res_json (BSession (current now st)), opened now st).
Proof.
  unfold get_sessions_current, try_catch, bind.
  rewrite getCurrentSession_eq. reflexivity.
Qed.

Lemma post_sessions_close_eq (now : timestamp) (st : db) :
  post_sessions_close now st =
  (res_json (BClosed (s_id (current now st))
                     (next_id (map s_id
                        (map (close_row now (s_id (current now st)))
                             (sessions (opened now st)))))),
   closed now st).
Proof.
  unfold post_sessions_close, close_transaction, try_catch, transaction, bind.
  rewrite getCurrentSession_eq. reflexivity.
Qed.

Lemma post_sales_eq (now : timestamp) (items : list item)
    (pm : option string) (total : Q) (st : db) :
  post_sales now items pm total st =
  match sale_transaction now (s_id (current now st)) items pm total
                         (opened now st) with
  | Ok saleId st' => (res_json (BSaleId saleId), st')
  | Throw e st' => (res_status_json 400 (BError (message e)), st')
  end.
Proof.
  unfold post_sales, try_catch, bind.
  rewrite getCurrentSession_eq.
  destruct (sale_transaction _ _ _ _ _ _); reflexivity.
Qed.

Lemma sale_transaction_throw (now : timestamp) (sid : Z) (items : list item)
    (pm : option string) (total : Q) (st st' : db) (e : exn) :
  sale_transaction now sid items pm total st = Throw e st' -> st' = st.
Proof.
  unfold sale_transaction, transaction.
  destruct (bind _ _ st); intros H; inversion H; reflexivity.
Qed.


Lemma stock_of_products (id : Z) (st st' : db) :
  products st' = products st -> stock_of id st' = stock_of id st.
Proof. unfold stock_of. intros ->. reflexivity. Qed.

Lemma stock_of_opened (now : timestamp) (id : Z) (st : db) :
  stock_of id (opened now st) = stock_of id st.
Proof.
  unfold stock_of. destruct (opened_same_ledger now st) as [-> _]. reflexivity.
Qed.

Lemma post_inventory_move_eq (now : timestamp) (product_id : Z) (type : string)
    (quantity : Z) (reason : option string) (st : db) :
  post_inventory_move now product_id type quantity reason st =
  match stock_of product_id st with
  | None => (res_status_json 404 (BError "Product not found"), opened now st)
  | Some stock =>
      match move_new_stock stock type quantity with
      | inl early => (early, opened now st)
      | inr newStock =>
          if check_type type
          then (res_json (BNewStock newStock),
                moved now (s_id (current now st)) product_id type quantity
                      reason newStock (opened now st))
          else (res_status_json 500 (BError "Failed to record movement"),
                opened now st)
      end
  end.
Proof.
  unfold post_inventory_move, try_catch.
  unfold bind at 1. rewrite getCurrentSession_eq.
  unfold bind at 1. unfold select_stock.
  fold (stock_of product_id (opened now st)). rewrite stock_of_opened.
  destruct (stock_of product_id st) as [stock|]; [|reflexivity].
  destruct (move_new_stock stock type quantity) as [early | newStock];
    [reflexivity|].
  unfold bind, transaction, update_product_stock, update_products,
    insert_movement, moved; simpl.
  destruct (check_type type); reflexivity.
Qed.

(** *** Which sessions a request leaves behind *)

Lemma same_sessions_refl (st : db) : same_sessions st st.
Proof. reflexivity. Qed.

Lemma same_sessions_trans (a b c : db) :
  same_sessions a b -> same_sessions b c -> same_sessions a c.
Proof. unfold same_sessions. congruence. Qed.

Lemma sale_item_body_sessions (now : timestamp) (sid saleId : Z) (it : item) :
  respects same_sessions (sale_item_body now sid saleId it).
Proof.
  intros st. rewrite sale_item_body_eq.
  destruct (stock_of (item_id it) st) as [stock|]; [|reflexivity].
  destruct (stock <? item_quantity it); reflexivity.
Qed.

Lemma sale_transaction_sessions (now : timestamp) (sid : Z) (items : list item)
    (pm : option string) (total : Q) :
  respects same_sessions (sale_transaction now sid items pm total).
Proof.
  apply respects_transaction; [exact same_sessions_refl|].
  apply respects_bind; [exact same_sessions_trans | |].
  - intros st. unfold insert_sale.
    destruct (check_payment_method pm); reflexivity.
  - intros saleId. apply respects_bind; [exact same_sessions_trans | |].
    + apply respects_for_of;
        [exact same_sessions_refl | exact same_sessions_trans |].
      intros it. apply sale_item_body_sessions.
    + intros _. apply respects_ret. exact same_sessions_refl.
Qed.

Lemma handle_sessions (now : timestamp) (r : request) (st : db) :
  sessions (snd (handle now r st)) = sessions st \/
  sessions (snd (handle now r st)) = sessions (opened now st) \/
  snd (handle now r st) = closed now st.
Proof.
  destruct r; simpl.
  - right; left. rewrite get_sessions_current_eq. reflexivity.
  - right; right. rewrite post_sessions_close_eq. reflexivity.
  - left. reflexivity.
  - left. reflexivity.
  - left. destruct id; reflexivity.
  - left. destruct id; reflexivity.
  - right; left. rewrite post_inventory_move_eq.
    destruct (stock_of product_id st) as [stock|]; [|reflexivity].
    destruct (move_new_stock stock type quantity); [reflexivity|].
    destruct (check_type type); reflexivity.
  - right; left. rewrite post_sales_eq.
    pose proof (sale_transaction_sessions now (s_id (current now st)) items
                  payment_method total (opened now st)) as H.
    destruct (sale_transaction _ _ _ _ _ _); exact H.
  - left. reflexivity.
  - right; left. unfold get_reports_current, try_catch, bind.
    rewrite getCurrentSession_eq. reflexivity.
Qed.

Lemma handle_uses_session (now : timestamp) (r : request) (st : db) :
  uses_session r = true ->
  sessions (snd (handle now r st)) = sessions (opened now st) \/
  snd (handle now r st) = closed now st.
Proof.
  intros Hr. destruct (handle_sessions now r st) as [H | [H | H]]; auto.
  destruct r; simpl in Hr; try discriminate; simpl in *.
  - rewrite get_sessions_current_eq. auto.
  - rewrite post_sessions_close_eq. auto.
  - left. rewrite post_inventory_move_eq.
    destruct (stock_of product_id st) as [stock|]; [|reflexivity].
    destruct (move_new_stock stock type quantity); [reflexivity|].
    destruct (check_type type); reflexivity.
  - left. rewrite post_sales_eq.
    pose proof (sale_transaction_sessions now (s_id (current now st)) items
                  payment_method total (opened now st)) as H'.
    destruct (sale_transaction _ _ _ _ _ _); exact H'.
  - left. unfold get_reports_current, try_catch, bind.
    rewrite getCurrentSession_eq. reflexivity.
Qed.

Lemma close_row_closes (now : timestamp) (st : db) (l : list session) :
  (forall s, In s l -> s_is_closed s = 0 -> s_id s = s_id (current now st)) ->
  filter is_open (map (close_row now (s_id (current now st))) l) = [].
Proof.
  induction l as [|a l IH]; intros H; simpl; [reflexivity|].
  rewrite IH by (intros s Hs; apply H; right; exact Hs).
  unfold close_row. destruct (s_id a =? s_id (current now st)) eqn:E.
  - reflexivity.
  - unfold is_open at 1. destruct (s_is_closed a =? 0) eqn:E'; [|reflexivity].
    specialize (H a (or_introl eq_refl)). lia.
Qed.

Lemma open_count_closed (now : timestamp) (st : db) :
  (open_count st <= 1)%nat -> open_count (closed now st) = 1%nat.
Proof.
  intros H. unfold open_count, closed. simpl.
  rewrite filter_open_app, close_row_closes; [reflexivity|].
  intros s Hs Hopen. f_equal.
  pose proof (open_count_opened now st H) as H1.
  rewrite <- (current_unique now (opened now st) s H1 Hs Hopen).
  apply (current_unique now (opened now st)); auto using current_in_opened, current_open.
Qed.

Lemma open_count_sessions (st st' : db) :
  sessions st' = sessions st -> open_count st' = open_count st.
Proof. unfold open_count. intros ->. reflexivity. Qed.

Lemma open_count_handle (now : timestamp) (r : request) (st : db) :
  open_count st = 1%nat -> open_count (snd (handle now r st)) = 1%nat.
Proof.
  intros H.
  destruct (handle_sessions now r st) as [E | [E | E]].
  - rewrite (open_count_sessions _ _ E). exact H.
  - rewrite (open_count_sessions _ _ E). apply open_count_opened. lia.
  - rewrite E. apply open_count_closed. lia.
Qed.

Lemma open_count_run (reqs : list (timestamp * request)) (st : db) :
  open_count st = 1%nat -> open_count (run reqs st) = 1%nat.
Proof.
  revert st. induction reqs as [|[now r] reqs IH]; intros st H; simpl.
  - exact H.
  - apply IH, open_count_handle, H.
Qed.

Lemma open_count_run_le (reqs : list (timestamp * request)) (st : db) :
  (open_count st <= 1)%nat -> (open_count (run reqs st) <= 1)%nat.
Proof.
  revert st. induction reqs as [|[now r] reqs IH]; intros st H; simpl.
  - exact H.
  - apply IH. destruct (handle_sessions now r st) as [E | [E | E]].
    + rewrite (open_count_sessions _ _ E). exact H.
    + rewrite (open_count_sessions _ _ E), open_count_opened; auto.
    + rewrite E, open_count_closed; auto.
Qed.

Lemma close_row_id (now : timestamp) (id : Z) (s : session) :
  s_id (close_row now id s) = s_id s.
Proof. unfold close_row. destruct (s_id s =? id); reflexivity. Qed.

Lemma close_row_hit (now : timestamp) (id : Z) (s : session) :
  s_id s = id ->
  s_is_closed (close_row now id s) = 1 /\
  s_end_time (close_row now id s) = Some now.
Proof.
  intros H. unfold close_row. rewrite (proj2 (Z.eqb_eq _ _) H). auto.
Qed.

(** In what [closeSession] commits, the rows that carry the id of the
    session it closed are closed and stamped. *)
Lemma closed_rows (now : timestamp) (st : db) (s : session) :
  next_id (map s_id (map (close_row now (s_id (current now st)))
                         (sessions (opened now st)))) <>
    s_id (current now st) ->
  In s (sessions (closed now st)) -> s_id s = s_id (current now st) ->
  s_is_closed s = 1 /\ s_end_time s = Some now.
Proof.
  intros Hfresh Hin Hid. unfold closed in Hin. simpl in Hin.
  apply in_app_or in Hin. destruct Hin as [Hin | [<- | []]].
  - apply in_map_iff in Hin. destruct Hin as [x [<- Hx]].
    rewrite close_row_id in Hid. apply close_row_hit, Hid.
  - simpl in Hid. contradiction.
Qed.

(** C3.  Starting from a database with at most one open session (the empty
    database in particular), there is never more than one; once a request
    has gone through [getCurrentSession] exactly one session is open, and
    it stays so after any further sequence of requests.  [closeSession]
    answers with the id of the session that was current and the id of a
    new one, different from it; it commits, in one transaction, the
    current session closed with [end_time = now] and the new session open,
    touching nothing else; [getCurrentSession] then answers with the new
    session and writes nothing. *)
Theorem C3_exactly_one_open_session (st : db) :
  (open_count st <= 1)%nat ->
  (forall reqs, (open_count (run reqs st) <= 1)%nat) /\
  (forall now r, uses_session r = true ->
     open_count (snd (handle now r st)) = 1%nat /\
     forall reqs, open_count (run reqs (snd (handle now r st))) = 1%nat) /\
  (forall now, exists cur new_id st',
     fst (get_sessions_current now st) = res_json (BSession cur) /\
     post_sessions_close now st = (res_json (BClosed (s_id cur) new_id), st') /\
     s_is_closed cur = 0 /\
     In cur (sessions (snd (get_sessions_current now st))) /\
     sessions st' =
       map (close_row now (s_id cur))
           (sessions (snd (get_sessions_current now st))) ++
       [mkSession new_id now None 0] /\
     (forall s, In s (sessions st') -> s_id s = s_id cur ->
        s_is_closed s = 1 /\ s_end_time s = Some now) /\
     same_ledger st st' /\
     new_id <> s_id cur /\
     open_count st' = 1%nat /\
     forall now',
       get_sessions_current now' st' =
       (res_json (BSession (mkSession new_id now None 0)), st')).
Proof.
  intros Hst. split; [intros reqs; apply open_count_run_le, Hst | split].
  - intros now r Hr.
    assert (H1 : open_count (snd (handle now r st)) = 1%nat).
    { destruct (handle_uses_session now r st Hr) as [E | E].
      - rewrite (open_count_sessions _ _ E). apply open_count_opened, Hst.
      - rewrite E. apply open_count_closed, Hst. }
    split; [exact H1 | intros reqs; apply open_count_run, H1].
  - intros now.
    set (cid := s_id (current now st)).
    set (rows := map (close_row now cid) (sessions (opened now st))).
    exists (current now st), (next_id (map s_id rows)), (closed now st).
    assert (Hfresh : next_id (map s_id rows) <> cid).
    { intros E. apply (next_id_fresh (map s_id rows)). rewrite E.
      unfold rows. rewrite map_map.
      apply in_map_iff. exists (current now st). split.
      - apply close_row_id.
      - apply current_in_opened. }
    assert (Hone : open_count (closed now st) = 1%nat)
      by (apply open_count_closed, Hst).
    rewrite get_sessions_current_eq. simpl fst. simpl snd.
    split; [reflexivity|].
    split; [apply post_sessions_close_eq|].
    split; [apply current_open|].
    split; [apply current_in_opened|].
    split; [reflexivity|].
    split; [intros s; apply closed_rows, Hfresh|].
    split; [apply (opened_same_ledger now st)|].
    split; [exact Hfresh|].
    split; [exact Hone|].
    intros now'. rewrite get_sessions_current_eq.
    rewrite (opened_id now' (closed now st)) by lia.
    f_equal. f_equal. f_equal.
    apply current_unique; [exact Hone | | reflexivity].
    unfold closed. simpl. apply in_or_app. right. left. reflexivity.
Qed.

Lemma C3_exactly_one_open_session_witness :
  (open_count empty_db <= 1)%nat /\
  open_count (snd (handle 7 CloseSession empty_db)) = 1%nat /\
  open_count
    (run [(8, CloseSession); (9, GetCurrentSession)]
         (snd (handle 7 CloseSession empty_db))) = 1%nat.
Proof.
  assert (H0 : (open_count empty_db <= 1)%nat) by (vm_compute; lia).
  destruct (C3_exactly_one_open_session empty_db H0) as (_ & H & _).
  destruct (H 7 CloseSession eq_refl) as [H1 H2].
  split; [exact H0 | split; [exact H1 | apply H2]].
Defined.

(** ** Recorded movements *)

Lemma stock_of_none (id : Z) (st : db) :
  ~ In id (map p_id (products st)) -> stock_of id st = None.
Proof.
  unfold stock_of. intros H.
  destruct (find _ (products st)) as [p|] eqn:E; [|reflexivity].
  apply find_some in E. destruct E as [Hin Hid].
  contradiction H. apply in_map_iff. exists p. split; [lia | exact Hin].
Qed.

(** C5.  A waste movement that asks for more than the product's stock is
    answered 400 "Insufficient stock for waste"; products (the stock of
    that product in particular), movements, sales and sale items are left
    as they were.  The one thing the call may have written is the lazily
    opened session of [getCurrentSession]; with a session already open the
    database is untouched. *)
Theorem C5_waste_insufficient_stock (now : timestamp) (product_id quantity : Z)
    (reason : option string) (st : db) (stock : Z) :
  stock_of product_id st = Some stock ->
  stock < quantity ->
  exists st',
    post_inventory_move now product_id "waste" quantity reason st =
      (res_status_json 400 (BError "Insufficient stock for waste"), st') /\
    same_ledger st st' /\
    stock_of product_id st' = Some stock /\
    ((0 < open_count st)%nat -> st' = st).
Proof.
  intros Hs Hlt. exists (opened now st).
  rewrite post_inventory_move_eq, Hs.
  unfold move_new_stock. simpl.
  rewrite (proj2 (Z.ltb_lt _ _) Hlt).
  repeat split; try apply (opened_same_ledger now st).
  - rewrite stock_of_opened. exact Hs.
  - apply opened_id.
Qed.

Lemma C5_waste_insufficient_stock_witness :
  exists st',
    post_inventory_move 200 1 "waste" 10 (Some "Merma")
      (mkDb [mkSession 1 100 None 0] [prod 1 "A" 3] [] [] []) =
      (res_status_json 400 (BError "Insufficient stock for waste"), st') /\
    stock_of 1 st' = Some 3.
Proof.
  destruct (C5_waste_insufficient_stock 200 1 10 (Some "Merma")
              (mkDb [mkSession 1 100 None 0] [prod 1 "A" 3] [] [] []) 3
              eq_refl eq_refl) as [st' [H1 [_ [H2 _]]]].
  exists st'. split; assumption.
Defined.

(** C9 as stated fails on a soft-deleted product: the lookup of the move
    handler does not read the [deleted] column. *)
Lemma C9_counterexample :
  let st := snd (delete_products_id (Some 1) db0) in
  let r := post_inventory_move 200 1 "entry" 2 None st in
  map p_deleted (products st) = [1; 0] /\
  fst r = res_json (BNewStock 4) /\
  stock_of 1 st = Some 2 /\
  stock_of 1 (snd r) = Some 4 /\
  movements st = [] /\
  movements (snd r) = [mkMovement 1 1 1 "entry" 2 None 200].
Proof. vm_compute. repeat split. Qed.

(** C9, amended.  A movement for an id that matches no product row is
    answered 404 "Product not found"; products, movements, sales and sale
    items are left as they were (with a session already open, the whole
    database is). *)
Theorem C9_move_unknown_product (now : timestamp) (product_id : Z)
    (type : string) (quantity : Z) (reason : option string) (st : db) :
  ~ In product_id (map p_id (products st)) ->
  exists st',
    post_inventory_move now product_id type quantity reason st =
      (res_status_json 404 (BError "Product not found"), st') /\
    same_ledger st st' /\
    ((0 < open_count st)%nat -> st' = st).
Proof.
  intros H. exists (opened now st).
  rewrite post_inventory_move_eq, (stock_of_none _ _ H).
  repeat split; try apply (opened_same_ledger now st).
  apply opened_id.
Qed.

Lemma C9_move_unknown_product_witness :
  exists st',
    post_inventory_move 200 99 "entry" 2 None db0 =
      (res_status_json 404 (BError "Product not found"), st') /\
    same_ledger db0 st'.
Proof.
  destruct (C9_move_unknown_product 200 99 "entry" 2 None db0)
    as [st' [H1 [H2 _]]].
  - simpl. intros [H | [H | []]]; discriminate.
  - exists st'. split; assumption.
Defined.

(** ** Stock never below zero *)

Lemma keeps_stock_inv_refl (st : db) : keeps_stock_inv st st.
Proof. intros H. exact H. Qed.

Lemma keeps_stock_inv_trans (a b c : db) :
  keeps_stock_inv a b -> keeps_stock_inv b c -> keeps_stock_inv a c.
Proof. unfold keeps_stock_inv. auto. Qed.

Lemma stock_inv_products (st st' : db) :
  products st' = products st -> keeps_stock_inv st st'.
Proof. unfold keeps_stock_inv, stock_inv, products_pk, stock_nonneg. intros ->. auto. Qed.

Lemma map_update_ids (f : product -> product) (id : Z) (l : list product) :
  (forall p, p_id (f p) = p_id p) ->
  map p_id (map (fun p => if p_id p =? id then f p else p) l) = map p_id l.
Proof.
  intros Hf. rewrite map_map. apply map_ext.
  intros p. destruct (p_id p =? id); auto.
Qed.

(** Under the primary key, the row [.get()] finds is the only one with
    that id. *)
Lemma find_pk (id : Z) (l : list product) (p0 p : product) :
  NoDup (map p_id l) ->
  find (fun p => p_id p =? id) l = Some p0 ->
  In p l -> p_id p = id -> p = p0.
Proof.
  induction l as [|a l IH]; simpl; intros Hnd Hf Hin Hid; [contradiction|].
  inversion Hnd as [|x xs Hnotin Hnd']; subst.
  destruct (p_id a =? p_id p) eqn:E.
  - inversion Hf; subst. destruct Hin as [H | H]; [auto|].
    contradiction Hnotin. apply Z.eqb_eq in E. rewrite E.
    apply in_map. exact H.
  - destruct Hin as [H | H]; [subst; lia|]. apply IH; auto.
Qed.

Lemma stock_of_find (id : Z) (st : db) (stock : Z) :
  stock_of id st = Some stock ->
  exists p, find (fun p => p_id p =? id) (products st) = Some p /\
            p_stock p = stock /\ In p (products st) /\ p_id p = id.
Proof.
  unfold stock_of. destruct (find _ (products st)) as [p|] eqn:E; [|discriminate].
  simpl. intros H. inversion H. exists p.
  destruct (find_some _ _ E) as [Hin Hid]. repeat split; auto. lia.
Qed.

Lemma stock_nonneg_of (id : Z) (st : db) (stock : Z) :
  stock_nonneg st -> stock_of id st = Some stock -> 0 <= stock.
Proof.
  intros Hnn Hs. destruct (stock_of_find _ _ _ Hs) as [p [_ [<- [Hin _]]]].
  unfold stock_nonneg in Hnn. rewrite Forall_forall in Hnn. auto.
Qed.

(** Writing one non-negative stock into the rows of an id. *)
Lemma set_stock_inv (newStock id : Z) (l : list product) :
  0 <= newStock ->
  NoDup (map p_id l) /\ Forall (fun p => 0 <= p_stock p) l ->
  NoDup (map p_id (map (fun p => if p_id p =? id then set_stock newStock p else p) l)) /\
  Forall (fun p => 0 <= p_stock p)
         (map (fun p => if p_id p =? id then set_stock newStock p else p) l).
Proof.
  intros Hn [Hpk Hnn]. split.
  - rewrite map_update_ids; [exact Hpk | reflexivity].
  - rewrite Forall_forall in *. intros q Hq.
    apply in_map_iff in Hq. destruct Hq as [p [<- Hp]].
    destruct (p_id p =? id); simpl; auto.
Qed.

Lemma sale_item_body_stock_inv (now : timestamp) (sid saleId : Z) (it : item) :
  respects keeps_stock_inv (sale_item_body now sid saleId it).
Proof.
  intros st. rewrite sale_item_body_eq.
  destruct (stock_of (item_id it) st) as [stock|] eqn:Hs;
    [|apply keeps_stock_inv_refl].
  destruct (stock <? item_quantity it) eqn:Hlt; [apply keeps_stock_inv_refl|].
  apply Z.ltb_ge in Hlt.
  destruct (stock_of_find _ _ _ Hs) as [p0 [Hfind [Hst0 _]]].
  intros [Hpk Hnn]. unfold stock_inv, products_pk, stock_nonneg, stage_item. simpl.
  split.
  - rewrite map_update_ids; [exact Hpk | reflexivity].
  - unfold stock_nonneg in Hnn. rewrite Forall_forall in *. intros q Hq.
    apply in_map_iff in Hq. destruct Hq as [p [<- Hp]].
    destruct (p_id p =? item_id it) eqn:E; [|auto].
    apply Z.eqb_eq in E.
    rewrite (find_pk _ _ _ _ Hpk Hfind Hp E). simpl. lia.
Qed.

Lemma sale_transaction_stock_inv (now : timestamp) (sid : Z) (items : list item)
    (pm : option string) (total : Q) :
  respects keeps_stock_inv (sale_transaction now sid items pm total).
Proof.
  apply respects_transaction; [exact keeps_stock_inv_refl|].
  apply respects_bind; [exact keeps_stock_inv_trans | |].
  - intros st. unfold insert_sale.
    destruct (check_payment_method pm);
      [apply stock_inv_products; reflexivity | apply keeps_stock_inv_refl].
  - intros saleId. apply respects_bind; [exact keeps_stock_inv_trans | |].
    + apply respects_for_of;
        [exact keeps_stock_inv_refl | exact keeps_stock_inv_trans |].
      intros it. apply sale_item_body_stock_inv.
    + intros _. apply respects_ret. exact keeps_stock_inv_refl.
Qed.

(** Any sale keeps the invariant, whatever its items and quantities. *)
Lemma post_sales_stock_inv (now : timestamp) (items : list item)
    (pm : option string) (total : Q) (st : db) :
  keeps_stock_inv st (snd (post_sales now items pm total st)).
Proof.
  rewrite post_sales_eq.
  pose proof (sale_transaction_stock_inv now (s_id (current now st)) items pm
                total (opened now st)) as H.
  apply (keeps_stock_inv_trans st (opened now st)).
  - apply stock_inv_products. apply (opened_same_ledger now st).
  - destruct (sale_transaction _ _ _ _ _ _); exact H.
Qed.

Lemma post_inventory_move_stock_inv (now : timestamp) (product_id : Z)
    (type : string) (quantity : Z) (reason : option string) (st : db) :
  entry_quantity_ok type quantity = true ->
  keeps_stock_inv st
    (snd (post_inventory_move now product_id type quantity reason st)).
Proof.
  intros Hq. rewrite post_inventory_move_eq.
  assert (Hop : keeps_stock_inv st (opened now st))
    by (apply stock_inv_products; apply (opened_same_ledger now st)).
  destruct (stock_of product_id st) as [stock|] eqn:Hs; [|exact Hop].
  destruct (move_new_stock stock type quantity) as [early | newStock] eqn:Hm;
    [exact Hop|].
  destruct (check_type type); [|exact Hop].
  intros Hinv. pose proof (stock_nonneg_of _ _ _ (proj2 Hinv) Hs) as H0.
  assert (Hn : 0 <= newStock).
  { unfold move_new_stock, entry_quantity_ok in *.
    destruct (String.eqb type "entry").
    - inversion Hm. apply Z.leb_le in Hq. lia.
    - destruct (String.eqb type "waste"); [|inversion Hm; lia].
      destruct (stock <? quantity) eqn:Hlt; [discriminate|].
      apply Z.ltb_ge in Hlt. inversion Hm. lia. }
  unfold stock_inv, products_pk, stock_nonneg, moved. simpl.
  apply set_stock_inv; [exact Hn|].
  destruct (opened_same_ledger now st) as [-> _]. exact Hinv.
Qed.

(** *** The primary key of [products] is kept by every request *)

Lemma sale_transaction_product_ids (now : timestamp) (sid : Z)
    (items : list item) (pm : option string) (total : Q) :
  respects (fun st st' => map p_id (products st') = map p_id (products st))
           (sale_transaction now sid items pm total).
Proof.
  assert (Htrans : forall a b c : db,
            map p_id (products b) = map p_id (products a) ->
            map p_id (products c) = map p_id (products b) ->
            map p_id (products c) = map p_id (products a))
    by (intros a b c H1 H2; congruence).
  apply respects_transaction; [reflexivity|].
  apply respects_bind; [exact Htrans | |].
  - intros st. unfold insert_sale.
    destruct (check_payment_method pm); reflexivity.
  - intros saleId. apply respects_bind; [exact Htrans | |].
    + apply respects_for_of; [reflexivity | exact Htrans |].
      intros it st. rewrite sale_item_body_eq.
      destruct (stock_of (item_id it) st) as [stock|]; [|reflexivity].
      destruct (stock <? item_quantity it); [reflexivity|].
      unfold stage_item. simpl. apply map_update_ids. reflexivity.
    + intros _. apply respects_ret. reflexivity.
Qed.

Lemma handle_product_ids (now : timestamp) (r : request) (st : db) :
  map p_id (products (snd (handle now r st))) = map p_id (products st) \/
  map p_id (products (snd (handle now r st))) =
    map p_id (products st) ++ [next_id (map p_id (products st))].
Proof.
  destruct (opened_same_ledger now st) as [Hp _].
  destruct r; simpl.
  - left. rewrite get_sessions_current_eq. simpl. rewrite Hp. reflexivity.
  - left. rewrite post_sessions_close_eq. simpl. rewrite Hp. reflexivity.
  - left. reflexivity.
  - right. simpl. rewrite map_app. reflexivity.
  - left. destruct id; simpl; [apply map_update_ids|]; reflexivity.
  - left. destruct id; simpl; [apply map_update_ids|]; reflexivity.
  - left. rewrite post_inventory_move_eq.
    destruct (stock_of product_id st) as [stock|]; simpl; [|rewrite Hp; reflexivity].
    destruct (move_new_stock stock type quantity); simpl;
      [rewrite Hp; reflexivity|].
    destruct (check_type type); simpl; [|rewrite Hp; reflexivity].
    rewrite map_update_ids, Hp; reflexivity.
  - left. rewrite post_sales_eq.
    pose proof (sale_transaction_product_ids now (s_id (current now st)) items
                  payment_method total (opened now st)) as H.
    cbv beta in H. rewrite Hp in H.
    destruct (sale_transaction _ _ _ _ _ _); exact H.
  - left. reflexivity.
  - left. unfold get_reports_current, try_catch, bind.
    rewrite getCurrentSession_eq. simpl. rewrite Hp. reflexivity.
Qed.

Lemma products_pk_handle (now : timestamp) (r : request) (st : db) :
  products_pk st -> products_pk (snd (handle now r st)).
Proof.
  unfold products_pk. intros H.
  destruct (handle_product_ids now r st) as [-> | ->]; [exact H|].
  apply NoDup_app; [exact H | repeat constructor; simpl; tauto |].
  intros a Ha [<- | []]. exact (next_id_fresh _ Ha).
Qed.

(** Every database the engine reaches from the empty one has the key. *)
Lemma products_pk_reachable (reqs : list (timestamp * request)) :
  products_pk (run reqs empty_db).
Proof.
  assert (H : forall st, products_pk st -> products_pk (run reqs st)).
  { induction reqs as [|[now r] reqs IH]; intros st Hst; simpl; [exact Hst|].
    apply IH, products_pk_handle, Hst. }
  apply H. constructor.
Qed.

(** C1 as stated fails: the move handler adds the quantity of an entry
    without looking at its sign, so an entry of -10 on a stock of 2 is
    accepted and leaves -8. *)
Lemma C1_counterexample :
  let r := handle 200 (RecordMovement 1 "entry" (-10) None) db0 in
  stock_nonneg db0 /\
  fst r = res_json (BNewStock (-8)) /\
  stock_of 1 (snd r) = Some (-8) /\
  ~ stock_nonneg (run [(200, RecordMovement 1 "entry" (-10) None)] db0).
Proof.
  simpl. repeat split.
  - unfold stock_nonneg, db0, prod. simpl.
    repeat constructor; simpl; lia.
  - unfold stock_nonneg. vm_compute. intros H.
    inversion H as [|x l Hx _]; subst. apply Hx. reflexivity.
Qed.

(** C1, amended.  Over a products table with its primary key and no
    negative stock, after any sequence of recordMovement and checkout
    calls in which every entry has a quantity >= 0, accepted or rejected,
    no product has a negative stock.  Waste movements and sales are under
    no condition: whatever their quantities, they never take a stock below
    zero. *)
Theorem C1_stock_never_negative (st : db) (reqs : list (timestamp * request)) :
  products_pk st ->
  stock_nonneg st ->
  Forall (fun tr => ledger_call (snd tr) = true) reqs ->
  stock_nonneg (run reqs st) /\ products_pk (run reqs st).
Proof.
  intros Hpk Hnn Hreqs.
  assert (H : stock_inv (run reqs st)).
  { assert (Hinv : stock_inv st) by (split; assumption).
    clear Hpk Hnn. revert st Hinv.
    induction Hreqs as [|[now r] reqs Hr _ IH]; intros st Hinv; simpl.
    - exact Hinv.
    - apply IH. simpl in Hr.
      destruct r; simpl in Hr; try discriminate; simpl.
      + apply post_inventory_move_stock_inv; assumption.
      + apply post_sales_stock_inv; assumption. }
  destruct H. split; assumption.
Qed.

Lemma C1_stock_never_negative_witness :
  stock_nonneg
    (run [(200, RecordMovement 1 "waste" 5 None);
          (201, RecordMovement 1 "entry" 4 (Some "Reabastecimiento"));
          (202, Checkout [mkItem 1 "P1" 7 (10 # 1)] (Some "cash") (70 # 1));
          (203, Checkout [mkItem 2 "P2" (-3) (10 # 1)] (Some "cash") (0 # 1));
          (204, RecordMovement 2 "waste" (-1) None)] db0).
Proof.
  apply (C1_stock_never_negative db0).
  - unfold products_pk. simpl.
    repeat constructor; simpl; intuition discriminate.
  - unfold stock_nonneg. simpl. repeat constructor; simpl; lia.
  - repeat constructor.
Defined.

(** ** Checkout *)

Lemma find_map_update (f : product -> product) (id id' : Z) (l : list product) :
  (forall p, p_id (f p) = p_id p) ->
  find (fun p => p_id p =? id)
       (map (fun p => if p_id p =? id' then f p else p) l) =
  option_map (fun p => if p_id p =? id' then f p else p)
             (find (fun p => p_id p =? id) l).
Proof.
  intros Hf. induction l as [|a l IH]; simpl; [reflexivity|].
  assert (E : p_id (if p_id a =? id' then f a else a) = p_id a)
    by (destruct (p_id a =? id'); auto).
  rewrite E. destruct (p_id a =? id); [reflexivity | exact IH].
Qed.

Lemma stock_of_stage_item (now : timestamp) (sid saleId : Z) (it : item)
    (id : Z) (st : db) :
  stock_of id (stage_item now sid saleId it st) =
  if id =? item_id it
  then option_map (fun s => s - item_quantity it) (stock_of id st)
  else stock_of id st.
Proof.
  unfold stock_of, stage_item. simpl.
  rewrite find_map_update by reflexivity.
  destruct (find _ (products st)) as [p|] eqn:E; simpl.
  - apply find_some in E. destruct E as [_ E]. apply Z.eqb_eq in E.
    rewrite E. destruct (id =? item_id it); reflexivity.
  - destruct (id =? item_id it); reflexivity.
Qed.

Lemma post_sales_fails_stock_check (now : timestamp) (items : list item)
    (pm : option string) (total : Q) (st : db) (it : item) :
  fails_stock_check now items pm total st it ->
  post_sales now items pm total st =
  (res_status_json 400 (BError (insufficient_stock_for (item_name it))),
   opened now st).
Proof.
  intros (pre & post & stk & stock & Hitems & Hstaged & Hstock & Hlt).
  rewrite post_sales_eq. unfold sale_transaction, transaction.
  unfold staged in Hstaged. unfold bind in *.
  destruct (insert_sale now _ total pm (opened now st)) as [saleId st1 | e st1];
    [|discriminate].
  rewrite Hitems, for_of_app.
  destruct (for_of pre _ st1) as [[] st2 | e st2]; [|discriminate].
  inversion Hstaged; subst st2. simpl. unfold bind.
  rewrite sale_item_body_eq, Hstock, (proj2 (Z.ltb_lt _ _) Hlt). reflexivity.
Qed.

(** With quantities >= 0 the stock the loop reads can only be lower than
    at the start, so an item asking for more than its product has at the
    start is stopped at, unless an earlier one already was. *)
Lemma for_of_reaches_failure (now : timestamp) (sid saleId : Z)
    (items : list item) (st : db) :
  Forall (fun it => 0 <= item_quantity it) items ->
  Forall (fun it => stock_of (item_id it) st <> None) items ->
  (exists it stock, In it items /\
     stock_of (item_id it) st = Some stock /\ stock < item_quantity it) ->
  exists it pre post stk stock,
    items = pre ++ it :: post /\
    for_of pre (sale_item_body now sid saleId) st = Ok tt stk /\
    stock_of (item_id it) stk = Some stock /\
    stock < item_quantity it.
Proof.
  revert st. induction items as [|it0 rest IH]; intros st Hq Hex Hbad.
  - destruct Hbad as (it & stock & [] & _).
  - inversion Hq as [|x l Hq0 Hqrest]; subst.
    inversion Hex as [|x l Hex0 Hexrest]; subst.
    destruct (stock_of (item_id it0) st) as [s0|] eqn:Hs0; [|congruence].
    destruct (s0 <? item_quantity it0) eqn:Hlt0.
    + apply Z.ltb_lt in Hlt0.
      exists it0, [], rest, st, s0. repeat split; assumption.
    + apply Z.ltb_ge in Hlt0.
      set (st1 := stage_item now sid saleId it0 st).
      destruct (IH st1 Hqrest) as (it & pre & post & stk & stock & E1 & E2 & E3 & E4).
      * rewrite Forall_forall in *. intros x Hx. unfold st1.
        rewrite stock_of_stage_item. specialize (Hexrest x Hx).
        destruct (item_id x =? item_id it0); [|assumption].
        destruct (stock_of (item_id x) st); [discriminate | congruence].
      * destruct Hbad as (it & stock & Hin & Hst & Hlt).
        destruct Hin as [<- | Hin]; [rewrite Hs0 in Hst; inversion Hst; lia|].
        destruct (item_id it =? item_id it0) eqn:E.
        -- exists it, (stock - item_quantity it0).
           split; [exact Hin | split; [|lia]].
           unfold st1. rewrite stock_of_stage_item, E, Hst. reflexivity.
        -- exists it, stock.
           split; [exact Hin | split; [|exact Hlt]].
           unfold st1. rewrite stock_of_stage_item, E. exact Hst.
      * exists it, (it0 :: pre), post, stk, stock. repeat split; auto.
        -- simpl. rewrite E1. reflexivity.
        -- simpl. unfold bind. rewrite sale_item_body_eq, Hs0.
           rewrite (proj2 (Z.ltb_ge _ _) Hlt0). exact E2.
Qed.

Lemma insert_sale_stock_of (now : timestamp) (sid : Z) (total : Q)
    (pm : option string) (st st1 : db) (saleId : Z) :
  insert_sale now sid total pm st = Ok saleId st1 ->
  forall id, stock_of id st1 = stock_of id st.
Proof.
  unfold insert_sale. destruct (check_payment_method pm); [|discriminate].
  intros H id. inversion H; subst. reflexivity.
Qed.

(** Whether or not the products of the other items exist, such a loop
    does not run to its end. *)
Lemma for_of_throws (now : timestamp) (sid saleId : Z) (items : list item)
    (st : db) :
  Forall (fun it => 0 <= item_quantity it) items ->
  (exists it stock, In it items /\
     stock_of (item_id it) st = Some stock /\ stock < item_quantity it) ->
  exists e st', for_of items (sale_item_body now sid saleId) st = Throw e st'.
Proof.
  revert st. induction items as [|it0 rest IH]; intros st Hq Hbad.
  - destruct Hbad as (it & stock & [] & _).
  - inversion Hq as [|x l Hq0 Hqrest]; subst.
    simpl. unfold bind. rewrite sale_item_body_eq.
    destruct (stock_of (item_id it0) st) as [s0|] eqn:Hs0; [|eauto].
    destruct (s0 <? item_quantity it0) eqn:Hlt0; [eauto|].
    apply Z.ltb_ge in Hlt0. apply IH; [exact Hqrest|].
    destruct Hbad as (it & stock & Hin & Hst & Hlt).
    destruct Hin as [<- | Hin]; [rewrite Hs0 in Hst; inversion Hst; lia|].
    destruct (item_id it =? item_id it0) eqn:E.
    + exists it, (stock - item_quantity it0).
      split; [exact Hin | split; [|lia]].
      rewrite stock_of_stage_item, E, Hst. reflexivity.
    + exists it, stock.
      split; [exact Hin | split; [|exact Hlt]].
      rewrite stock_of_stage_item, E. exact Hst.
Qed.

(** C2.  checkout is atomic.
    - When an item fails its stock check at the moment its row is
      processed, the call is answered 400 "Insufficient stock for <name of
      that item>" and the sale row, the sale items, the stock decrements
      and the movements staged for the earlier items are rolled back:
      products, movements, sales and sale items are what they were before
      the call.  The whole database is when a session was open; otherwise
      the session opened by [getCurrentSession], outside the transaction,
      stays.
    - For every list of items of quantity >= 0 in which some item asks for
      more than its product's stock at the time of the call, the call
      fails (400) with the same rollback.
    - When moreover the payment method is an accepted one and every item
      names an existing product, the failure is "Insufficient stock for
      <name>" for an item of the list. *)
Theorem C2_checkout_atomic (now : timestamp) (items : list item)
    (pm : option string) (total : Q) (st : db) :
  (forall it, fails_stock_check now items pm total st it ->
     exists st',
       post_sales now items pm total st =
         (res_status_json 400 (BError (insufficient_stock_for (item_name it))),
          st') /\
       same_ledger st st' /\
       ((0 < open_count st)%nat -> st' = st)) /\
  (Forall (fun it => 0 <= item_quantity it) items ->
   (exists it stock, In it items /\
      stock_of (item_id it) st = Some stock /\ stock < item_quantity it) ->
   (status (fst (post_sales now items pm total st)) = 400 /\
    same_ledger st (snd (post_sales now items pm total st)) /\
    ((0 < open_count st)%nat -> snd (post_sales now items pm total st) = st)) /\
   (check_payment_method pm = true ->
    Forall (fun it => stock_of (item_id it) st <> None) items ->
    exists it,
      In it items /\
      fst (post_sales now items pm total st) =
        res_status_json 400 (BError (insufficient_stock_for (item_name it))))).
Proof.
  assert (HA : forall it, fails_stock_check now items pm total st it ->
     exists st',
       post_sales now items pm total st =
         (res_status_json 400 (BError (insufficient_stock_for (item_name it))),
          st') /\
       same_ledger st st' /\
       ((0 < open_count st)%nat -> st' = st)).
  { intros it Hit. exists (opened now st). split; [|split].
    - apply post_sales_fails_stock_check, Hit.
    - apply opened_same_ledger.
    - apply opened_id. }
  split; [exact HA|].
  intros Hq Hbad.
  set (sid := s_id (current now st)).
  split.
  - assert (Hthrow : exists e,
              sale_transaction now sid items pm total (opened now st) =
              Throw e (opened now st)).
    { unfold sale_transaction, transaction, bind.
      destruct (insert_sale now sid total pm (opened now st))
        as [saleId st1 | e st1] eqn:Hins; [|eauto].
      destruct (for_of_throws now sid saleId items st1 Hq) as (e & st2 & E).
      - destruct Hbad as (it & stock & Hin & Hs & Hlt).
        exists it, stock.
        rewrite (insert_sale_stock_of _ _ _ _ _ _ _ Hins), stock_of_opened.
        auto.
      - rewrite E. eauto. }
    destruct Hthrow as [e He].
    rewrite post_sales_eq. fold sid. rewrite He. simpl.
    split; [reflexivity | split; [apply opened_same_ledger | apply opened_id]].
  - intros Hpm Hex.
    destruct (insert_sale now sid total pm (opened now st))
      as [saleId st1 | e st1] eqn:Hins;
      [|unfold insert_sale in Hins; rewrite Hpm in Hins; discriminate].
    destruct (for_of_reaches_failure now sid saleId items st1 Hq)
      as (it & pre & post & stk & stock & E1 & E2 & E3 & E4).
    + rewrite Forall_forall in *. intros x Hx.
      rewrite (insert_sale_stock_of _ _ _ _ _ _ _ Hins), stock_of_opened. auto.
    + destruct Hbad as (it & stock & Hin & Hs & Hlt).
      exists it, stock.
      rewrite (insert_sale_stock_of _ _ _ _ _ _ _ Hins), stock_of_opened. auto.
    + destruct (HA it) as (st' & H1 & _).
      * exists pre, post, stk, stock. repeat split; auto.
        unfold staged, bind. fold sid. rewrite Hins, E2. reflexivity.
      * exists it. rewrite H1. split; [|reflexivity].
        rewrite E1. apply in_or_app. right. left. reflexivity.
Qed.

Lemma C2_checkout_atomic_witness :
  let r := post_sales 200 [mkItem 1 "P1" 1 (10 # 1); mkItem 2 "P2" 1 (10 # 1)]
                      (Some "cash") (20 # 1) db0 in
  snd r = db0 /\
  stock_of 1 (snd r) = Some 2 /\
  exists it, fst r =
    res_status_json 400 (BError (insufficient_stock_for (item_name it))).
Proof.
  intros r.
  destruct (C2_checkout_atomic 200
              [mkItem 1 "P1" 1 (10 # 1); mkItem 2 "P2" 1 (10 # 1)]
              (Some "cash") (20 # 1) db0) as [_ H].
  destruct H as [(_ & _ & H1) H2].
  - repeat constructor; simpl; lia.
  - exists (mkItem 2 "P2" 1 (10 # 1)), 0. simpl. repeat split; auto.
  - assert (E : snd r = db0) by (apply H1; vm_compute; lia).
    split; [exact E | split; [rewrite E; reflexivity|]].
    destruct H2 as (it & _ & H3).
    + reflexivity.
    + repeat constructor; simpl; discriminate.
    + exists it. exact H3.
Defined.

(** A loop that runs to its end has appended one sale movement and one
    sale item per item, in order, and nothing else to those tables. *)
Lemma for_of_sale_rows (now : timestamp) (sid saleId : Z) (items : list item)
    (st st' : db) :
  for_of items (sale_item_body now sid saleId) st = Ok tt st' ->
  sales st' = sales st /\
  exists ms sis,
    movements st' = movements st ++ ms /\
    sale_items st' = sale_items st ++ sis /\
    map movement_data ms =
      map (fun it => (sid, item_id it, "sale", item_quantity it,
                      Some "Venta", now)) items /\
    map sale_item_data sis =
      map (fun it => (saleId, item_id it, item_quantity it, item_price it))
          items.
Proof.
  revert st. induction items as [|it rest IH]; intros st H; simpl in H.
  - inversion H; subst. split; [reflexivity|].
    exists [], []. rewrite !app_nil_r. auto.
  - unfold bind in H. rewrite sale_item_body_eq in H.
    destruct (stock_of (item_id it) st) as [stock|]; [|discriminate].
    destruct (stock <? item_quantity it); [discriminate|].
    destruct (IH _ H) as (Hs & ms & sis & Hm & Hsi & Hmd & Hsd).
    split; [exact Hs|].
    exists (mkMovement (next_id (map m_id (movements st))) sid (item_id it)
                       "sale" (item_quantity it) (Some "Venta") now :: ms),
           (mkSaleItem (next_id (map si_id (sale_items st))) saleId
                       (item_id it) (item_quantity it) (item_price it) :: sis).
    simpl in *. rewrite Hm, Hsi, Hmd, Hsd, <- !app_assoc. auto.
Qed.

(** C4.  Under an accepted payment method:
    - on a product A with stock 5, checkout of [{A, qty 3, price 10.0}]
      with total 30.0 answers with the id of the new sale, leaves A with
      stock 2 and every other product as it was, and appends exactly one
      sale row (total 30.0, the id of the current session), one sale item
      (that sale, A, 3, 10.0) and one movement (current session, A, "sale",
      3, "Venta");
    - a checkout of N items that succeeds appends exactly N movements, all
      of type "sale", one per item in order, N sale items and one sale. *)
Theorem C4_checkout_rows (now : timestamp) (pm : option string) (st : db) :
  (check_payment_method pm = true ->
   forall A name, stock_of A st = Some 5 ->
     let saleId := next_id (map sa_id (sales st)) in
     exists cur st',
       fst (get_sessions_current now st) = res_json (BSession cur) /\
       let sid := s_id cur in
       post_sales now [mkItem A name 3 (10 # 1)] pm (30 # 1) st =
         (res_json (BSaleId saleId), st') /\
       stock_of A st' = Some 2 /\
       (forall id, id <> A -> stock_of id st' = stock_of id st) /\
       sales st' = sales st ++ [mkSale saleId sid (30 # 1) pm now] /\
       sale_items st' =
         sale_items st ++
         [mkSaleItem (next_id (map si_id (sale_items st))) saleId A 3 (10 # 1)] /\
       movements st' =
         movements st ++
         [mkMovement (next_id (map m_id (movements st))) sid A "sale" 3
                     (Some "Venta") now]) /\
  (forall items total saleId st',
     post_sales now items pm total st = (res_json (BSaleId saleId), st') ->
     exists ms sis,
       movements st' = movements st ++ ms /\
       List.length ms = List.length items /\
       Forall (fun m => m_type m = "sale") ms /\
       List.length sis = List.length items /\
       map movement_data ms =
         map (fun it => (s_id (current now st), item_id it, "sale",
                         item_quantity it, Some "Venta", now)) items /\
       sale_items st' = sale_items st ++ sis /\
       map sale_item_data sis =
         map (fun it => (saleId, item_id it, item_quantity it, item_price it))
             items /\
       sales st' =
         sales st ++ [mkSale saleId (s_id (current now st)) total pm now]).
Proof.
  destruct (opened_same_ledger now st) as (Hp & Hm & Hs & Hsi).
  split.
  - intros Hpm A name HA saleId.
    exists (current now st).
    set (sid := s_id (current now st)).
    set (it := mkItem A name 3 (10 # 1)).
    set (st1 := mkDb (sessions (opened now st)) (products (opened now st))
                     (movements (opened now st))
                     (sales (opened now st) ++
                        [mkSale (next_id (map sa_id (sales (opened now st))))
                                sid (30 # 1) pm now])
                     (sale_items (opened now st))).
    assert (H1 : forall id, stock_of id st1 = stock_of id st).
    { intros id. rewrite <- (stock_of_opened now id st). reflexivity. }
    assert (Htx : sale_transaction now sid [it] pm (30 # 1) (opened now st) =
                  Ok (next_id (map sa_id (sales (opened now st))))
                     (stage_item now sid
                        (next_id (map sa_id (sales (opened now st)))) it st1)).
    { unfold sale_transaction, transaction, bind, insert_sale. rewrite Hpm.
      fold st1. simpl for_of. unfold bind.
      rewrite sale_item_body_eq, H1. simpl item_id. rewrite HA. reflexivity. }
    rewrite post_sales_eq, get_sessions_current_eq. fold sid. fold it.
    rewrite Htx.
    eexists. split; [reflexivity|].
    split; [unfold saleId; rewrite <- Hs; reflexivity|].
    split; [|split].
    + rewrite stock_of_stage_item, H1. simpl item_id.
      rewrite Z.eqb_refl, HA. reflexivity.
    + intros id Hid. rewrite stock_of_stage_item, H1. simpl item_id.
      rewrite (proj2 (Z.eqb_neq _ _) Hid). reflexivity.
    + simpl. unfold saleId. rewrite Hs, Hsi, Hm. auto.
  - intros items total saleId st' H.
    rewrite post_sales_eq in H.
    unfold sale_transaction, transaction, bind, insert_sale in H.
    destruct (check_payment_method pm); [|discriminate].
    match type of H with
    | context [for_of items ?b ?s] =>
        destruct (for_of items b s) as [[] st2 | e st2] eqn:Hloop
    end; [|discriminate].
    inversion H; subst.
    destruct (for_of_sale_rows _ _ _ _ _ _ Hloop)
      as (Hs' & ms & sis & Hm' & Hsi' & Hmd & Hsd).
    simpl in Hs', Hm', Hsi'.
    exists ms, sis. rewrite Hm', Hsi', Hs', Hm, Hsi, Hs.
    repeat split; auto.
    + rewrite <- (length_map movement_data), Hmd, length_map. reflexivity.
    + assert (HF : Forall (fun d => snd (fst (fst (fst d))) = "sale")
                     (map movement_data ms)).
      { rewrite Hmd. apply Forall_forall. intros d Hd.
        apply in_map_iff in Hd. destruct Hd as [it [<- _]]. reflexivity. }
      rewrite Forall_map in HF. exact HF.
    + rewrite <- (length_map sale_item_data), Hsd, length_map. reflexivity.
    + rewrite Hs in Hsd. exact Hsd.
Qed.

Lemma C4_checkout_rows_witness :
  exists st',
    post_sales 200 [mkItem 1 "A" 3 (10 # 1)] (Some "cash") (30 # 1)
      (mkDb [mkSession 4 100 None 0] [prod 1 "A" 5] [] [] []) =
      (res_json (BSaleId 1), st') /\
    stock_of 1 st' = Some 2 /\
    sales st' = [mkSale 1 4 (30 # 1) (Some "cash") 200] /\
    sale_items st' = [mkSaleItem 1 1 1 3 (10 # 1)] /\
    movements st' = [mkMovement 1 4 1 "sale" 3 (Some "Venta") 200].
Proof.
  destruct (C4_checkout_rows 200 (Some "cash")
              (mkDb [mkSession 4 100 None 0] [prod 1 "A" 5] [] [] [])) as [H _].
  destruct (H eq_refl 1 "A" eq_refl) as (cur & st' & E & H1 & H2 & _ & H3 & H4 & H5).
  inversion E; subst cur.
  exists st'. repeat split; assumption.
Defined.




(** ** The catalogue *)

Lemma map_update_miss (f : product -> product) (id : Z) (l : list product) :
  ~ In id (map p_id l) ->
  map (fun p => if p_id p =? id then f p else p) l = l /\
  filter (fun p => p_id p =? id) l = [].
Proof.
  induction l as [|a l IH]; simpl; intros H; [auto|].
  destruct (p_id a =? id) eqn:E.
  - apply Z.eqb_eq in E. contradiction H. left. exact E.
  - destruct IH as [-> ->]; auto.
Qed.

Lemma update_rows_miss (f : product_row -> product_row) (id : Z)
    (rows : list product_row) :
  changes_of_rows id rows = 0 ->
  map (fun r => if r_id r =? id then f r else r) rows = rows.
Proof.
  unfold changes_of_rows.
  induction rows as [|a rows IH]; simpl; intros H; [reflexivity|].
  destruct (r_id a =? id).
  - rewrite length_cons, Nat2Z.inj_succ in H. lia.
  - rewrite IH; auto.
Qed.

Lemma changes_of_rows_in (id : Z) (rows : list product_row) :
  In id (map r_id rows) <-> 1 <= changes_of_rows id rows.
Proof.
  unfold changes_of_rows.
  induction rows as [|a rows IH]; simpl.
  - split; [tauto | lia].
  - destruct (r_id a =? id) eqn:E.
    + apply Z.eqb_eq in E. rewrite length_cons, Nat2Z.inj_succ.
      split; [lia | auto].
    + apply Z.eqb_neq in E. rewrite <- IH. tauto.
Qed.

Lemma changes_of_row_of (id : Z) (l : list product) :
  changes_of_rows id (map row_of l) = changes_of id l.
Proof.
  unfold changes_of_rows, changes_of.
  induction l as [|a l IH]; simpl; [reflexivity|].
  destruct (p_id a =? id); [rewrite !length_cons, !Nat2Z.inj_succ|]; lia.
Qed.

(** On a body that carries a name, a price and a stock, the handlers on
    the body are the handlers [post_products] and [put_products_id], row
    for row. *)
Lemma body_handlers_typed (name : string) (price : Q) (stock : Z) (st : db) :
  post_products_body (Some name) (Some price) (Some stock)
                     (map row_of (products st)) =
    (fst (post_products name price stock st),
     map row_of (products (snd (post_products name price stock st)))) /\
  forall id,
    put_products_id_body id (Some name) (Some price) (Some stock)
                         (map row_of (products st)) =
      (fst (put_products_id id name price stock st),
       map row_of (products (snd (put_products_id id name price stock st)))).
Proof.
  split.
  - unfold post_products_body, insert_product_body. simpl.
    rewrite map_map, map_app. reflexivity.
  - intros [id|]; [|reflexivity].
    unfold put_products_id_body, update_product_row_body. simpl.
    rewrite changes_of_row_of.
    assert (E : map (fun r => if r_id r =? id
                              then overwrite_row name price (Some stock) r
                              else r) (map row_of (products st)) =
                map row_of
                  (map (fun p => if p_id p =? id
                                 then mkProduct (p_id p) name price stock
                                        (p_initial_stock p) (p_deleted p)
                                        (p_image p)
                                 else p) (products st))).
    { rewrite !map_map. apply map_ext. intros p. simpl.
      destruct (p_id p =? id); reflexivity. }
    destruct (changes_of id (products st) =? 0) eqn:E0.
    + apply Z.eqb_eq in E0. rewrite E0. rewrite <- E.
      rewrite update_rows_miss; [reflexivity|].
      rewrite changes_of_row_of. exact E0.
    + rewrite E. reflexivity.
Qed.

(** C6 as stated fails, in both halves.  Negative values: neither handler
    looks at the sign of a price or of a stock; a PUT with price -5 is
    answered with success and rewrites the row, a POST with price -1 and
    stock -3 creates the product.  A stock that is not a number: a PUT
    whose body has no stock (or [null]) is answered with success as well
    and leaves the row with stock NULL.  No answer is a 400. *)
Lemma C6_counterexample :
  let r := put_products_id (Some 1) "P1" (-5 # 1) 2 db0 in
  let r' := post_products "X" (-1 # 1) (-3) db0 in
  let rows := map row_of (products db0) in
  let r'' := put_products_id_body (Some 1) (Some "P1") (Some (10 # 1)) None
                                  rows in
  (-5 # 1 < 0)%Q /\
  fst r = res_json (BChanges 1) /\
  products (snd r) <> products db0 /\
  map p_price (products (snd r)) = [(-5 # 1)%Q; (10 # 1)%Q] /\
  fst r' = res_json (BId 3) /\
  In (mkProduct 3 "X" (-1 # 1) (-3) (-3) 0 None) (products (snd r')) /\
  map r_stock rows = [Some 2; Some 0] /\
  fst r'' = res_json (BChanges 1) /\
  map r_stock (snd r'') = [None; Some 0] /\
  snd r'' <> rows.
Proof.
  simpl. repeat split.
  - vm_compute. discriminate.
  - right. right. left. reflexivity.
  - discriminate.
Qed.

(** C6, amended.  The body holds a name (a string), a price (a number) and
    a stock (an integer), each of which may be missing or [null].  Neither
    addProduct nor updateProduct validates any of them, and neither ever
    answers 400 for them.

    With name and price present, whatever the sign of price and stock and
    with or without a stock: addProduct appends the product with the
    values given (stock = initial_stock = the stock given, NULL when there
    is none; not deleted) and answers with its new id; updateProduct
    writes name, price and stock as given over every row of that id and
    answers with success and the number of rows changed, which is at least
    1 when a row has the id.

    With name or price missing, the NOT NULL constraint of the column
    refuses the row: addProduct answers 500 "Failed to create product",
    updateProduct on an id some row has answers 500 with the message of
    SQLite, and the table is as it was; updateProduct on an id no row has
    writes nothing and answers with success and 0 changes.

    An id that is not a number is answered by updateProduct with 400 and
    no change. *)
Theorem C6_products_unvalidated (name : option string) (price : option Q)
    (stock : option Z) (rows : list product_row) :
  (forall n p, name = Some n -> price = Some p ->
     post_products_body name price stock rows =
       (res_json (BId (next_id (map r_id rows))),
        rows ++ [mkProductRow (next_id (map r_id rows)) n p stock stock 0
                              None]) /\
     forall id,
       put_products_id_body (Some id) name price stock rows =
         (res_json (BChanges (changes_of_rows id rows)),
          map (fun r => if r_id r =? id then overwrite_row n p stock r
                        else r) rows) /\
       forall r, In r rows -> r_id r = id ->
         In (overwrite_row n p stock r)
            (snd (put_products_id_body (Some id) name price stock rows)) /\
         1 <= changes_of_rows id rows) /\
  (name = None \/ price = None ->
     post_products_body name price stock rows =
       (res_status_json 500 (BError "Failed to create product"), rows) /\
     forall id,
       (In id (map r_id rows) ->
        put_products_id_body (Some id) name price stock rows =
          (res_status_json 500
             (BError match name with
                     | None => "NOT NULL constraint failed: products.name"
                     | Some _ => "NOT NULL constraint failed: products.price"
                     end), rows)) /\
       (~ In id (map r_id rows) ->
        put_products_id_body (Some id) name price stock rows =
          (res_json (BChanges 0), rows))) /\
  put_products_id_body None name price stock rows =
    (res_status_json 400 (BError "Invalid product ID"), rows).
Proof.
  split; [|split; [|reflexivity]].
  - intros n p -> ->. split; [reflexivity|].
    intros id.
    assert (E : put_products_id_body (Some id) (Some n) (Some p) stock rows =
                (res_json (BChanges (changes_of_rows id rows)),
                 map (fun r => if r_id r =? id then overwrite_row n p stock r
                               else r) rows)).
    { unfold put_products_id_body, update_product_row_body. simpl.
      destruct (changes_of_rows id rows =? 0) eqn:E0; [|reflexivity].
      apply Z.eqb_eq in E0. rewrite update_rows_miss, E0; auto. }
    split; [exact E|].
    intros r Hin Hid. rewrite E. simpl. split.
    + apply in_map_iff. exists r.
      rewrite (proj2 (Z.eqb_eq _ _) Hid). auto.
    + apply changes_of_rows_in. apply in_map_iff. exists r. auto.
  - intros Hnull.
    assert (Hn : exists e, not_null_products name price = inl e /\
                 message e =
                   match name with
                   | None => "NOT NULL constraint failed: products.name"
                   | Some _ => "NOT NULL constraint failed: products.price"
                   end).
    { destruct name as [n|]; [|eexists; split; reflexivity].
      destruct Hnull as [Hnull| ->]; [discriminate|].
      eexists; split; reflexivity. }
    destruct Hn as (e & He & Hmsg).
    split.
    + unfold post_products_body, insert_product_body. rewrite He. reflexivity.
    + intros id. unfold put_products_id_body, update_product_row_body. split.
      * intros Hin. apply changes_of_rows_in in Hin.
        destruct (changes_of_rows id rows =? 0) eqn:E0;
          [apply Z.eqb_eq in E0; lia|].
        rewrite He, Hmsg. reflexivity.
      * intros Hout.
        destruct (changes_of_rows id rows =? 0) eqn:E0; [reflexivity|].
        apply Z.eqb_neq in E0. exfalso. apply Hout.
        apply changes_of_rows_in. unfold changes_of_rows in *. lia.
Qed.

Lemma C6_products_unvalidated_witness :
  put_products_id_body (Some 1) (Some "P1") (Some (-5 # 1)) None
                       (map row_of (products db0)) =
    (res_json (BChanges 1),
     [mkProductRow 1 "P1" (-5 # 1) None (Some 2) 0 None;
      row_of (prod 2 "P2" 0)]) /\
  put_products_id_body (Some 1) None (Some (-5 # 1)) (Some 4)
                       (map row_of (products db0)) =
    (res_status_json 500
       (BError "NOT NULL constraint failed: products.name"),
     map row_of (products db0)).
Proof.
  split.
  - destruct (C6_products_unvalidated (Some "P1") (Some (-5 # 1)) None
                (map row_of (products db0))) as (H & _ & _).
    destruct (H "P1" (-5 # 1) eq_refl eq_refl) as [_ H1].
    destruct (H1 1) as [H2 _]. exact H2.
  - destruct (C6_products_unvalidated None (Some (-5 # 1)) (Some 4)
                (map row_of (products db0))) as (_ & H & _).
    destruct (H (or_introl eq_refl)) as [_ H1].
    destruct (H1 1) as [H2 _]. apply H2. simpl. left. reflexivity.
Defined.

(** C7 as stated fails: an UPDATE that matches no row is not an error for
    either handler; both answer with success and [changes = 0]. *)
Lemma C7_counterexample :
  ~ In 99 (map p_id (products db0)) /\
  put_products_id (Some 99) "X" (1 # 1) 1 db0 = (mkResponse 200 (BChanges 0), db0) /\
  delete_products_id (Some 99) db0 = (mkResponse 200 (BChanges 0), db0).
Proof.
  repeat split. simpl. intros [H | [H | []]]; discriminate.
Qed.

(** C7, amended.  For an id that matches no product row, updateProduct and
    softDeleteProduct answer with success and [changes = 0], not with an
    error, and the database is left exactly as it was. *)
Theorem C7_unknown_id_changes_nothing (id : Z) (name : string) (price : Q)
    (stock : Z) (st : db) :
  ~ In id (map p_id (products st)) ->
  put_products_id (Some id) name price stock st = (res_json (BChanges 0), st) /\
  delete_products_id (Some id) st = (res_json (BChanges 0), st).
Proof.
  intros H.
  unfold put_products_id, delete_products_id, try_catch, bind,
    update_product_row, update_product_deleted, update_products, changes_of.
  destruct (map_update_miss (overwrite name price stock) id _ H) as [E1 E2].
  destruct (map_update_miss soft_delete id _ H) as [E3 _].
  unfold overwrite in E1. unfold soft_delete in E3.
  rewrite E1, E2, E3. destruct st; auto.
Qed.

Lemma C7_unknown_id_changes_nothing_witness :
  put_products_id (Some 99) "X" (1 # 1) 1 db0 = (res_json (BChanges 0), db0) /\
  delete_products_id (Some 99) db0 = (res_json (BChanges 0), db0).
Proof.
  apply (C7_unknown_id_changes_nothing 99 "X" (1 # 1) 1 db0).
  simpl. intros [H | [H | []]]; discriminate.
Defined.

(** C10.  After softDeleteProduct(id) no row of that id is in the answer
    of listProducts, while the report of every session is what it was
    before: each movement of the session that refers to the product is
    still there, joined with the name the product row carries. *)
Theorem C10_soft_delete_keeps_history (id : Z) (st : db) :
  let st' := snd (delete_products_id (Some id) st) in
  fst (delete_products_id (Some id) st) =
    res_json (BChanges (changes_of id (products st))) /\
  (exists rows,
     get_products st' = (res_json (BProducts rows), st') /\
     forall p, In p rows -> p_id p <> id) /\
  forall sessionId,
    get_reports_session sessionId st' =
      (res_json (BReport (select_sales sessionId st)
                         (select_movements sessionId st) None), st') /\
    forall m p,
      In m (movements st) -> m_session_id m = sessionId ->
      m_product_id m = id ->
      In p (products st) -> p_id p = id ->
      In (m, p_name p) (select_movements sessionId st').
Proof.
  intros st'.
  assert (Hprod : products st' =
                  map (fun p => if p_id p =? id then soft_delete p else p)
                      (products st)) by reflexivity.
  assert (Hmov : forall sid, select_movements sid st' = select_movements sid st).
  { intros sid. unfold select_movements. rewrite Hprod.
    change (movements st') with (movements st). clear Hprod.
    apply flat_map_ext. intros m.
    induction (products st) as [|a l IH]; simpl; [reflexivity|].
    destruct (p_id a =? id) eqn:E; simpl;
      destruct (m_product_id m =? p_id a); simpl; rewrite IH; reflexivity. }
  assert (Hsales : forall sid, select_sales sid st' = select_sales sid st)
    by reflexivity.
  split; [reflexivity | split].
  - exists (filter (fun p => p_deleted p =? 0) (products st')).
    split; [reflexivity|].
    intros p Hp. apply filter_In in Hp. destruct Hp as [Hin Hdel].
    rewrite Hprod in Hin.
    apply in_map_iff in Hin. destruct Hin as [q [<- _]].
    destruct (p_id q =? id) eqn:E; [simpl in Hdel; discriminate|].
    apply Z.eqb_neq, E.
  - intros sid. unfold get_reports_session.
    rewrite Hmov, Hsales. split; [reflexivity|].
    intros m p Hm Hsid Hpid Hp Hid.
    unfold select_movements. apply in_flat_map. exists m. split.
    + apply filter_In. split; [exact Hm | apply Z.eqb_eq, Hsid].
    + apply in_map_iff. exists p. split; [reflexivity|].
      apply filter_In. split; [exact Hp | apply Z.eqb_eq; congruence].
Qed.

Lemma C10_soft_delete_keeps_history_witness :
  let st := snd (post_inventory_move 150 1 "entry" 3 (Some "Reabastecimiento") db0) in
  let st' := snd (delete_products_id (Some 1) st) in
  get_products st' = (res_json (BProducts [prod 2 "P2" 0]), st') /\
  In (mkMovement 1 1 1 "entry" 3 (Some "Reabastecimiento") 150, "P1")
     (select_movements 1 st').
Proof.
  intros st st'.
  destruct (C10_soft_delete_keeps_history 1 st) as (_ & _ & H).
  split; [reflexivity|].
  destruct (H 1) as [_ H1].
  apply (H1 (mkMovement 1 1 1 "entry" 3 (Some "Reabastecimiento") 150)
            (mkProduct 1 "P1" (10 # 1) 5 2 0 None)).
  - left. reflexivity.
  - reflexivity.
  - reflexivity.
  - left. reflexivity.
  - reflexivity.
Defined.

(** * Further properties of the engine *)

(** ** getCurrentSession, called again *)

(** X1.  [getCurrentSession] is idempotent: called again with no close in
    between, whatever the clock, it answers with the same session and
    writes nothing. *)
Theorem getCurrentSession_idempotent (now now' : timestamp) (st : db) :
  exists s st1,
    getCurrentSession now st = Ok s st1 /\
    getCurrentSession now' st1 = Ok s st1 /\
    get_sessions_current now' st1 = (res_json (BSession s), st1).
Proof.
  exists (current now st), (opened now st).
  assert (H : current now' (opened now st) = current now st /\
              opened now' (opened now st) = opened now st).
  { unfold current, opened.
    destruct (last_by_id (filter is_open (sessions st))) as [s|] eqn:E.
    - rewrite E. auto.
    - apply last_by_id_none in E. simpl.
      rewrite filter_open_app, E. simpl. auto. }
  destruct H as [H1 H2].
  rewrite get_sessions_current_eq, !getCurrentSession_eq, H1, H2. auto.
Qed.

(** ** Movements that are recorded *)

Lemma stock_of_moved (now : timestamp) (sid product_id : Z) (type : string)
    (quantity : Z) (reason : option string) (newStock : Z) (st : db) (id : Z) :
  stock_of id (moved now sid product_id type quantity reason newStock st) =
  if id =? product_id
  then option_map (fun _ => newStock) (stock_of id st)
  else stock_of id st.
Proof.
  unfold stock_of, moved. simpl.
  rewrite find_map_update by reflexivity.
  destruct (find _ (products st)) as [p|] eqn:E; simpl.
  - apply find_some in E. destruct E as [_ E]. apply Z.eqb_eq in E.
    rewrite E. destruct (id =? product_id); reflexivity.
  - destruct (id =? product_id); reflexivity.
Qed.

Lemma post_inventory_move_commit (now : timestamp) (product_id : Z)
    (type : string) (quantity : Z) (reason : option string) (st : db)
    (stock newStock : Z) :
  stock_of product_id st = Some stock ->
  move_new_stock stock type quantity = inr newStock ->
  check_type type = true ->
  post_inventory_move now product_id type quantity reason st =
  (res_json (BNewStock newStock),
   moved now (s_id (current now st)) product_id type quantity reason newStock
         (opened now st)).
Proof.
  intros Hs Hm Hc. rewrite post_inventory_move_eq, Hs, Hm, Hc. reflexivity.
Qed.

Lemma moved_opened_facts (now : timestamp) (product_id : Z) (type : string)
    (quantity : Z) (reason : option string) (newStock stock : Z) (st : db) :
  stock_of product_id st = Some stock ->
  let st' := moved now (s_id (current now st)) product_id type quantity reason
                   newStock (opened now st) in
  stock_of product_id st' = Some newStock /\
  (forall id, id <> product_id -> stock_of id st' = stock_of id st) /\
  movements st' =
    movements st ++
    [mkMovement (next_id (map m_id (movements st))) (s_id (current now st))
                product_id type quantity reason now] /\
  sales st' = sales st /\
  sale_items st' = sale_items st /\
  sessions st' = sessions (opened now st).
Proof.
  intros Hs st'. destruct (opened_same_ledger now st) as (Hp & Hm & Hsa & Hsi).
  split; [|split; [|split; [|split; [|split]]]].
  - unfold st'. rewrite stock_of_moved, Z.eqb_refl, stock_of_opened, Hs.
    reflexivity.
  - intros id Hid. unfold st'.
    rewrite stock_of_moved, (proj2 (Z.eqb_neq _ _) Hid). apply stock_of_opened.
  - unfold st', moved. simpl. rewrite Hm. reflexivity.
  - exact Hsa.
  - exact Hsi.
  - reflexivity.
Qed.

(** X2.  A movement that is accepted.  On an existing product, an entry,
    or a waste of no more than the stock, is answered with the new stock
    (stock + quantity, stock - quantity; stock, quantity and new stock
    being safe integers); the product then has that stock, every other
    product the stock it had, and exactly one movement row is appended,
    stamped with the current session; sales and sale items are
    untouched. *)
Theorem move_accepted (now : timestamp) (product_id : Z) (type : string)
    (quantity : Z) (reason : option string) (st : db) (stock : Z) :
  stock_of product_id st = Some stock ->
  type = "entry" \/ (type = "waste" /\ quantity <= stock) ->
  safe_integer stock -> safe_integer quantity ->
  safe_integer (if String.eqb type "entry" then stock + quantity
                else stock - quantity) ->
  let newStock := if String.eqb type "entry" then stock + quantity
                  else stock - quantity in
  exists cur st',
    fst (get_sessions_current now st) = res_json (BSession cur) /\
    post_inventory_move now product_id type quantity reason st =
      (res_json (BNewStock newStock), st') /\
    stock_of product_id st' = Some newStock /\
    (forall id, id <> product_id -> stock_of id st' = stock_of id st) /\
    movements st' =
      movements st ++
      [mkMovement (next_id (map m_id (movements st))) (s_id cur) product_id
                  type quantity reason now] /\
    sales st' = sales st /\
    sale_items st' = sale_items st.
Proof.
  intros Hs Htype _ _ _ newStock.
  assert (Hm : move_new_stock stock type quantity = inr newStock /\
               check_type type = true).
  { unfold newStock, move_new_stock.
    destruct Htype as [-> | [-> Hq]]; simpl; [auto|].
    rewrite (proj2 (Z.ltb_ge _ _) Hq). auto. }
  destruct Hm as [Hm Hc].
  exists (current now st). eexists.
  rewrite get_sessions_current_eq.
  rewrite (post_inventory_move_commit _ _ _ _ _ _ _ _ Hs Hm Hc).
  split; [reflexivity | split; [reflexivity|]].
  pose proof (moved_opened_facts now product_id type quantity reason newStock
                stock st Hs) as (H1 & H2 & H3 & H4 & H5 & _).
  repeat split; assumption.
Qed.

Lemma move_accepted_witness :
  exists st',
    post_inventory_move 200 1 "waste" 2 (Some "Merma") db0 =
      (res_json (BNewStock 0), st') /\
    stock_of 1 st' = Some 0 /\
    stock_of 2 st' = Some 0 /\
    movements st' = [mkMovement 1 1 1 "waste" 2 (Some "Merma") 200].
Proof.
  destruct (move_accepted 200 1 "waste" 2 (Some "Merma") db0 2 eq_refl)
    as (cur & st' & E & H1 & H2 & H3 & H4 & _).
  - right. split; [reflexivity | lia].
  - unfold safe_integer. lia.
  - unfold safe_integer. lia.
  - unfold safe_integer. simpl. lia.
  - inversion E; subst cur. exists st'.
    split; [exact H1 | split; [exact H2 | split; [|exact H4]]].
    rewrite H3 by lia. reflexivity.
Defined.

(** X3.  An entry followed by a waste of the same quantity gives the stock
    back: on a product whose stock is not negative, with stock, quantity
    and their sum safe integers, both are accepted, the second answers with
    the stock the product started from, and the two movements stay in the
    audit trail. *)
Theorem entry_then_waste_restores (now now' : timestamp) (product_id quantity : Z)
    (reason reason' : option string) (st : db) (stock : Z) :
  stock_of product_id st = Some stock ->
  0 <= stock ->
  safe_integer stock -> safe_integer quantity ->
  safe_integer (stock + quantity) ->
  let r1 := post_inventory_move now product_id "entry" quantity reason st in
  let r2 := post_inventory_move now' product_id "waste" quantity reason'
                                (snd r1) in
  fst r1 = res_json (BNewStock (stock + quantity)) /\
  fst r2 = res_json (BNewStock stock) /\
  (forall id, stock_of id (snd r2) = stock_of id st) /\
  List.length (movements (snd r2)) = (List.length (movements st) + 2)%nat.
Proof.
  intros Hs H0 _ _ _ r1 r2.
  assert (E1 : r1 = (res_json (BNewStock (stock + quantity)),
                     moved now (s_id (current now st)) product_id "entry"
                           quantity reason (stock + quantity) (opened now st))).
  { apply post_inventory_move_commit with (stock := stock); auto. }
  pose proof (moved_opened_facts now product_id "entry" quantity reason
                (stock + quantity) stock st Hs) as (A1 & A2 & A3 & _).
  assert (S1 : snd r1 = moved now (s_id (current now st)) product_id "entry"
                              quantity reason (stock + quantity) (opened now st))
    by (rewrite E1; reflexivity).
  cbv zeta in A1, A2, A3. rewrite <- S1 in A1, A2, A3.
  assert (E2 : r2 = (res_json (BNewStock stock),
                     moved now' (s_id (current now' (snd r1))) product_id
                           "waste" quantity reason' stock
                           (opened now' (snd r1)))).
  { apply post_inventory_move_commit with (stock := stock + quantity); auto.
    unfold move_new_stock. simpl.
    rewrite (proj2 (Z.ltb_ge (stock + quantity) quantity)) by lia.
    f_equal. lia. }
  pose proof (moved_opened_facts now' product_id "waste" quantity reason'
                stock (stock + quantity) (snd r1) A1) as (B1 & B2 & B3 & _).
  assert (S2 : snd r2 = moved now' (s_id (current now' (snd r1))) product_id
                              "waste" quantity reason' stock
                              (opened now' (snd r1)))
    by (rewrite E2; reflexivity).
  cbv zeta in B1, B2, B3. rewrite <- S2 in B1, B2, B3.
  split; [rewrite E1; reflexivity | split; [rewrite E2; reflexivity | split]].
  - intros id. destruct (Z.eq_dec id product_id) as [-> | Hid].
    + rewrite B1, Hs. reflexivity.
    + rewrite B2, A2; auto.
  - rewrite B3, A3, !length_app. simpl. lia.
Qed.

Lemma entry_then_waste_restores_witness :
  let r1 := post_inventory_move 200 1 "entry" 5 None db0 in
  let r2 := post_inventory_move 201 1 "waste" 5 None (snd r1) in
  fst r2 = res_json (BNewStock 2) /\ stock_of 1 (snd r2) = Some 2.
Proof.
  intros r1 r2.
  destruct (entry_then_waste_restores 200 201 1 5 None None db0 2 eq_refl)
    as (_ & H2 & H3 & _); try (unfold safe_integer; lia).
  split; [exact H2 | rewrite H3; reflexivity].
Defined.

(** X4.  Only entries and wastes move stock through the move handler.  For
    any other [type] no product's stock changes.  A type outside the CHECK
    list of the movements table makes the INSERT throw: on an existing
    product the answer is 500 "Failed to record movement" and the stock
    update staged before it is rolled back with it.  The type "sale" is in
    the list: the handler then logs a sale movement that changes no
    stock. *)
Theorem move_other_type (now : timestamp) (product_id : Z) (type : string)
    (quantity : Z) (reason : option string) (st : db) :
  type <> "entry" -> type <> "waste" ->
  let r := post_inventory_move now product_id type quantity reason st in
  (forall id, stock_of id (snd r) = stock_of id st) /\
  (forall stock, stock_of product_id st = Some stock ->
     (type <> "sale" ->
      fst r = res_status_json 500 (BError "Failed to record movement") /\
      same_ledger st (snd r)) /\
     (type = "sale" ->
      fst r = res_json (BNewStock stock) /\
      exists cur,
        fst (get_sessions_current now st) = res_json (BSession cur) /\
        movements (snd r) =
          movements st ++
          [mkMovement (next_id (map m_id (movements st))) (s_id cur)
                      product_id "sale" quantity reason now])).
Proof.
  intros He Hw r.
  apply String.eqb_neq in He. apply String.eqb_neq in Hw.
  assert (Hr : r = post_inventory_move now product_id type quantity reason st)
    by reflexivity.
  rewrite post_inventory_move_eq in Hr.
  unfold move_new_stock in Hr. rewrite He, Hw in Hr.
  destruct (stock_of product_id st) as [stock|] eqn:Hs.
  - pose proof (moved_opened_facts now product_id type quantity reason stock
                  stock st Hs) as (A1 & A2 & A3 & _).
    cbv zeta in A1, A2, A3.
    destruct (check_type type) eqn:Hc; rewrite Hr; simpl.
    + split.
      * intros id. destruct (Z.eq_dec id product_id) as [-> | Hid].
        -- rewrite A1, Hs. reflexivity.
        -- apply A2, Hid.
      * intros stock' E. inversion E; subst stock'. split.
        -- intros Hsale. unfold check_type in Hc. rewrite He, Hw in Hc.
           simpl in Hc. apply String.eqb_eq in Hc. contradiction.
        -- intros ->. split; [reflexivity|].
           exists (current now st). rewrite get_sessions_current_eq.
           split; [reflexivity | exact A3].
    + split; [intros id; apply stock_of_opened|].
      intros stock' _. split.
      * intros _. split; [reflexivity | apply opened_same_ledger].
      * intros ->. discriminate.
  - rewrite Hr. simpl. split; [intros id; apply stock_of_opened|].
    intros stock E. discriminate.
Qed.

Lemma move_other_type_witness :
  let r := post_inventory_move 200 1 "ajuste" 5 None db0 in
  fst r = res_status_json 500 (BError "Failed to record movement") /\
  snd r = db0.
Proof.
  intros r.
  destruct (move_other_type 200 1 "ajuste" 5 None db0) as [_ H];
    [discriminate | discriminate |].
  destruct (H 2 eq_refl) as [H1 _].
  destruct H1 as [H1 _]; [discriminate|].
  split; [exact H1 | reflexivity].
Defined.

(** ** Sales that fail before or in the loop *)

(** Rows are never deleted in the loop: a product that is missing at the
    start is still missing when its item is reached. *)
Lemma for_of_missing_throws (now : timestamp) (sid saleId : Z)
    (items : list item) (st : db) :
  (exists it, In it items /\ stock_of (item_id it) st = None) ->
  exists e st', for_of items (sale_item_body now sid saleId) st = Throw e st'.
Proof.
  revert st. induction items as [|it0 rest IH]; intros st Hbad.
  - destruct Hbad as (it & [] & _).
  - simpl. unfold bind. rewrite sale_item_body_eq.
    destruct (stock_of (item_id it0) st) as [s0|] eqn:Hs0; [|eauto].
    destruct (s0 <? item_quantity it0); [eauto|].
    apply IH. destruct Hbad as (it & Hin & Hnone).
    destruct Hin as [<- | Hin]; [congruence|].
    exists it. split; [exact Hin|].
    rewrite stock_of_stage_item, Hnone.
    destruct (item_id it =? item_id it0); reflexivity.
Qed.

(** X5.  A sale with an item whose product id matches no row fails with
    status 400 (reading [stock] of [undefined] throws in the transaction,
    unless an earlier item already stopped it) and nothing staged stays:
    products, movements, sales and sale items are as before. *)
Theorem checkout_unknown_product (now : timestamp) (items : list item)
    (pm : option string) (total : Q) (st : db) :
  (exists it, In it items /\ ~ In (item_id it) (map p_id (products st))) ->
  let r := post_sales now items pm total st in
  status (fst r) = 400 /\
  same_ledger st (snd r) /\
  (forall it rest,
     items = it :: rest -> ~ In (item_id it) (map p_id (products st)) ->
     check_payment_method pm = true ->
     fst r = res_status_json 400 (BError (message undefined_stock))).
Proof.
  intros Hbad r.
  assert (Hthrow : exists e,
            sale_transaction now (s_id (current now st)) items pm total
                             (opened now st) = Throw e (opened now st)).
  { unfold sale_transaction, transaction, bind.
    destruct (insert_sale now _ total pm (opened now st))
      as [saleId st1 | e st1] eqn:Hins; [|eauto].
    destruct (for_of_missing_throws now (s_id (current now st)) saleId items st1)
      as (e & st2 & E).
    - destruct Hbad as (it & Hin & Hno). exists it. split; [exact Hin|].
      rewrite (insert_sale_stock_of _ _ _ _ _ _ _ Hins), stock_of_opened.
      apply stock_of_none, Hno.
    - rewrite E. eauto. }
  destruct Hthrow as [e He].
  assert (Hr : r = (res_status_json 400 (BError (message e)), opened now st)).
  { unfold r. rewrite post_sales_eq, He. reflexivity. }
  split; [rewrite Hr; reflexivity | split].
  - rewrite Hr. apply opened_same_ledger.
  - intros it rest -> Hno Hpm. unfold r. rewrite post_sales_eq.
    unfold sale_transaction, transaction, bind, insert_sale. rewrite Hpm.
    simpl for_of. unfold bind. rewrite sale_item_body_eq.
    match goal with
    | |- context [stock_of (item_id it) ?s] =>
        replace (stock_of (item_id it) s) with (@None Z)
    end; [reflexivity|].
    symmetry. rewrite <- (stock_of_none _ _ Hno).
    rewrite <- (stock_of_opened now (item_id it) st). reflexivity.
Qed.

Lemma checkout_unknown_product_witness :
  let r := post_sales 200 [mkItem 1 "P1" 1 (10 # 1); mkItem 9 "?" 1 (1 # 1)]
                      (Some "cash") (11 # 1) db0 in
  status (fst r) = 400 /\ same_ledger db0 (snd r).
Proof.
  intros r.
  destruct (checkout_unknown_product 200
              [mkItem 1 "P1" 1 (10 # 1); mkItem 9 "?" 1 (1 # 1)]
              (Some "cash") (11 # 1) db0) as (H1 & H2 & _).
  - exists (mkItem 9 "?" 1 (1 # 1)). split; [right; left; reflexivity|].
    simpl. intros [H | [H | []]]; discriminate.
  - split; assumption.
Defined.

(** X6.  A sale whose payment method is neither "cash" nor "transfer" (nor
    null) is stopped by the CHECK constraint of the sales table before any
    item is looked at: status 400 with the constraint's message, and the
    ledger as before, whatever the items. *)
Theorem checkout_bad_payment_method (now : timestamp) (items : list item)
    (pm : string) (total : Q) (st : db) :
  pm <> "cash" -> pm <> "transfer" ->
  let r := post_sales now items (Some pm) total st in
  fst r =
    res_status_json 400
      (BError "CHECK constraint failed: payment_method IN ('cash', 'transfer')") /\
  same_ledger st (snd r) /\
  ((0 < open_count st)%nat -> snd r = st).
Proof.
  intros Hc Ht r.
  apply String.eqb_neq in Hc. apply String.eqb_neq in Ht.
  assert (Hr : r = (res_status_json 400
      (BError "CHECK constraint failed: payment_method IN ('cash', 'transfer')"),
      opened now st)).
  { unfold r. rewrite post_sales_eq.
    unfold sale_transaction, transaction, bind, insert_sale,
      check_payment_method.
    rewrite Hc, Ht. reflexivity. }
  rewrite Hr. simpl.
  split; [reflexivity | split; [apply opened_same_ledger | apply opened_id]].
Qed.

Lemma checkout_bad_payment_method_witness :
  snd (post_sales 200 [mkItem 1 "P1" 1 (10 # 1)] (Some "card") (10 # 1) db0) = db0.
Proof.
  destruct (checkout_bad_payment_method 200 [mkItem 1 "P1" 1 (10 # 1)] "card"
              (10 # 1) db0) as (_ & _ & H); [discriminate | discriminate |].
  apply H. vm_compute. lia.
Defined.

(** ** Sales that go through *)

(** A loop over items of distinct products, each in stock. *)
Lemma for_of_in_stock (now : timestamp) (sid saleId : Z) (items : list item)
    (st : db) :
  NoDup (map item_id items) ->
  Forall (fun it => exists s, stock_of (item_id it) st = Some s /\
                              item_quantity it <= s) items ->
  exists st',
    for_of items (sale_item_body now sid saleId) st = Ok tt st' /\
    (forall it s, In it items -> stock_of (item_id it) st = Some s ->
       stock_of (item_id it) st' = Some (s - item_quantity it)) /\
    (forall id, ~ In id (map item_id items) -> stock_of id st' = stock_of id st).
Proof.
  revert st. induction items as [|it0 rest IH]; intros st Hnd Hall.
  - exists st. simpl. repeat split; auto. intros it s [].
  - inversion Hnd as [|x l Hnotin Hnd']; subst.
    inversion Hall as [|x l (s0 & Hs0 & Hq0) Hrest]; subst.
    set (st1 := stage_item now sid saleId it0 st).
    assert (Hother : forall id, id <> item_id it0 ->
              stock_of id st1 = stock_of id st).
    { intros id Hid. unfold st1.
      rewrite stock_of_stage_item, (proj2 (Z.eqb_neq _ _) Hid). reflexivity. }
    assert (Hrest_ne : forall x, In x rest -> item_id x <> item_id it0).
    { intros x Hx E. apply Hnotin. rewrite <- E. apply in_map, Hx. }
    destruct (IH st1 Hnd') as (st' & Hrun & Hin & Hout).
    { rewrite Forall_forall in *. intros x Hx.
      rewrite (Hother _ (Hrest_ne x Hx)). apply Hrest, Hx. }
    exists st'. split; [|split].
    + simpl. unfold bind. rewrite sale_item_body_eq, Hs0.
      rewrite (proj2 (Z.ltb_ge _ _) Hq0). exact Hrun.
    + intros it s [<- | Hit] Hs.
      * rewrite (Hout _ Hnotin). unfold st1.
        rewrite stock_of_stage_item, Z.eqb_refl, Hs. reflexivity.
      * apply Hin; [exact Hit|]. rewrite (Hother _ (Hrest_ne it Hit)). exact Hs.
    + intros id Hid. simpl in Hid.
      rewrite Hout by tauto. apply Hother. intros E. apply Hid. left. auto.
Qed.

(** X7.  A sale that goes through.  Under an accepted payment method, when
    the items name distinct products and none asks for more than its
    product's stock (stock, quantity and their difference being safe
    integers), the sale is answered with the new sale id; every product
    sold is left with its stock less the quantity sold and every other
    product with the stock it had. *)
Theorem checkout_in_stock_succeeds (now : timestamp) (items : list item)
    (pm : option string) (total : Q) (st : db) :
  check_payment_method pm = true ->
  NoDup (map item_id items) ->
  Forall (fun it => exists s, stock_of (item_id it) st = Some s /\
                              item_quantity it <= s /\
                              safe_integer s /\
                              safe_integer (item_quantity it) /\
                              safe_integer (s - item_quantity it)) items ->
  exists st',
    post_sales now items pm total st =
      (res_json (BSaleId (next_id (map sa_id (sales st)))), st') /\
    (forall it s, In it items -> stock_of (item_id it) st = Some s ->
       stock_of (item_id it) st' = Some (s - item_quantity it)) /\
    (forall id, ~ In id (map item_id items) -> stock_of id st' = stock_of id st).
Proof.
  intros Hpm Hnd Hall.
  destruct (opened_same_ledger now st) as (_ & _ & Hs & _).
  set (sid := s_id (current now st)).
  destruct (insert_sale now sid total pm (opened now st))
    as [saleId st1 | e st1] eqn:Hins;
    [|unfold insert_sale in Hins; rewrite Hpm in Hins; discriminate].
  assert (Hid : saleId = next_id (map sa_id (sales st))).
  { unfold insert_sale in Hins. rewrite Hpm in Hins. inversion Hins.
    rewrite Hs. reflexivity. }
  assert (H1 : forall id, stock_of id st1 = stock_of id st).
  { intros id. rewrite (insert_sale_stock_of _ _ _ _ _ _ _ Hins).
    apply stock_of_opened. }
  destruct (for_of_in_stock now sid saleId items st1 Hnd)
    as (st' & Hrun & Hin & Hout).
  { rewrite Forall_forall in *. intros x Hx. rewrite H1.
    destruct (Hall x Hx) as (s & Hs1 & Hs2 & _). exists s. auto. }
  exists st'. split; [|split].
  - rewrite post_sales_eq. fold sid.
    unfold sale_transaction, transaction, bind. rewrite Hins, Hrun, Hid.
    reflexivity.
  - intros it s Hit Hst. apply Hin; [exact Hit | rewrite H1; exact Hst].
  - intros id Hno. rewrite (Hout id Hno). apply H1.
Qed.

Lemma checkout_in_stock_succeeds_witness :
  exists st',
    post_sales 200 [mkItem 1 "P1" 2 (10 # 1); mkItem 2 "P2" 0 (10 # 1)]
               (Some "transfer") (20 # 1) db0 = (res_json (BSaleId 1), st') /\
    stock_of 1 st' = Some 0.
Proof.
  destruct (checkout_in_stock_succeeds 200
              [mkItem 1 "P1" 2 (10 # 1); mkItem 2 "P2" 0 (10 # 1)]
              (Some "transfer") (20 # 1) db0) as (st' & H1 & H2 & _).
  - reflexivity.
  - simpl. repeat constructor; simpl; intuition discriminate.
  - repeat constructor; simpl.
    + exists 2. unfold safe_integer. repeat split; lia.
    + exists 0. unfold safe_integer. repeat split; lia.
  - exists st'. split; [exact H1|].
    apply (H2 (mkItem 1 "P1" 2 (10 # 1)) 2); [left; reflexivity | reflexivity].
Defined.

(** ** Every way out of a handler *)

Lemma stage_item_product_ids (now : timestamp) (sid saleId : Z) (it : item)
    (st : db) :
  map p_id (products (stage_item now sid saleId it st)) =
  map p_id (products st).
Proof. unfold stage_item. simpl. apply map_update_ids. reflexivity. Qed.

Lemma stock_of_in (id : Z) (st : db) (stock : Z) :
  stock_of id st = Some stock -> In id (map p_id (products st)).
Proof.
  intros H. destruct (stock_of_find _ _ _ H) as (p & _ & _ & Hin & <-).
  apply in_map, Hin.
Qed.

(** A loop that runs to its end has staged every item, each on a product
    that has a row. *)
Lemma for_of_sold (now : timestamp) (sid saleId : Z) (items : list item)
    (st st' : db) :
  for_of items (sale_item_body now sid saleId) st = Ok tt st' ->
  st' = sold now sid saleId items st /\
  Forall (fun it => In (item_id it) (map p_id (products st))) items.
Proof.
  revert st. induction items as [|it rest IH]; intros st H; simpl in H.
  - inversion H. split; [reflexivity | constructor].
  - unfold bind in H. rewrite sale_item_body_eq in H.
    destruct (stock_of (item_id it) st) as [stock|] eqn:Hs; [|discriminate].
    destruct (stock <? item_quantity it); [discriminate|].
    destruct (IH _ H) as [E F]. split; [exact E|].
    constructor; [eapply stock_of_in; eassumption|].
    rewrite stage_item_product_ids in F. exact F.
Qed.

Lemma sale_transaction_ok (now : timestamp) (sid : Z) (items : list item)
    (pm : option string) (total : Q) (st st' : db) (saleId : Z) :
  sale_transaction now sid items pm total st = Ok saleId st' ->
  saleId = next_id (map sa_id (sales st)) /\
  st' = sold now sid saleId items (sale_added now sid total pm st) /\
  Forall (fun it => In (item_id it) (map p_id (products st))) items.
Proof.
  unfold sale_transaction, transaction, bind, insert_sale.
  destruct (check_payment_method pm); [|discriminate].
  match goal with
  | |- context [for_of items ?b ?s] =>
      destruct (for_of items b s) as [[] st2 | e st2] eqn:Hloop
  end; [|discriminate].
  intros H. inversion H; subst.
  destruct (for_of_sold _ _ _ _ _ _ Hloop) as [E F].
  split; [reflexivity | split; [exact E | exact F]].
Qed.

(** Whatever a handler answers, the database it leaves is one of the
    [effect]s of its request. *)
Lemma handle_effect (now : timestamp) (r : request) (st : db) :
  effect now st r (snd (handle now r st)).
Proof.
  destruct r; simpl.
  - rewrite get_sessions_current_eq. apply effect_opened. reflexivity.
  - rewrite post_sessions_close_eq. apply effect_closed.
  - apply effect_none.
  - apply effect_added.
  - destruct id; [apply effect_overwritten | apply effect_none].
  - destruct id; [apply effect_deleted | apply effect_none].
  - rewrite post_inventory_move_eq.
    destruct (stock_of product_id st) as [stock|] eqn:Hs;
      [|apply effect_opened; reflexivity].
    destruct (move_new_stock stock type quantity) as [early | newStock] eqn:Hm;
      [apply effect_opened; reflexivity|].
    destruct (check_type type) eqn:Hc; [|apply effect_opened; reflexivity].
    eapply effect_moved; eassumption.
  - rewrite post_sales_eq.
    destruct (sale_transaction _ _ _ _ _ _) as [saleId st' | e st'] eqn:Htx.
    + destruct (sale_transaction_ok _ _ _ _ _ _ _ _ Htx) as (E1 & E2 & F).
      destruct (opened_same_ledger now st) as (Hp & _ & Hs & _).
      simpl. rewrite E2, E1, Hs. apply effect_sold. rewrite <- Hp. exact F.
    + rewrite (sale_transaction_throw _ _ _ _ _ _ _ _ Htx).
      apply effect_opened. reflexivity.
  - apply effect_none.
  - unfold get_reports_current, try_catch, bind.
    rewrite getCurrentSession_eq. apply effect_opened. reflexivity.
Qed.

(** ** Primary keys *)

Lemma NoDup_snoc_next (ids : list Z) : NoDup ids -> NoDup (ids ++ [next_id ids]).
Proof.
  intros H. apply NoDup_app; [exact H | repeat constructor; simpl; tauto |].
  intros a Ha [<- | []]. exact (next_id_fresh _ Ha).
Qed.

Lemma session_ids_opened (now : timestamp) (st : db) :
  map s_id (sessions (opened now st)) = map s_id (sessions st) \/
  map s_id (sessions (opened now st)) =
    map s_id (sessions st) ++ [next_id (map s_id (sessions st))].
Proof.
  unfold opened. destruct (last_by_id _); [left; reflexivity|].
  right. simpl. rewrite map_app. reflexivity.
Qed.

Lemma session_ids_closed (now : timestamp) (st : db) :
  map s_id (sessions (closed now st)) =
  map s_id (sessions (opened now st)) ++
  [next_id (map s_id (sessions (opened now st)))].
Proof.
  unfold closed. simpl. rewrite map_app, map_map. simpl.
  rewrite (map_ext _ s_id (close_row_id now _)). reflexivity.
Qed.

Lemma sessions_pk_opened (now : timestamp) (st : db) :
  NoDup (map s_id (sessions st)) -> NoDup (map s_id (sessions (opened now st))).
Proof.
  intros H. destruct (session_ids_opened now st) as [-> | ->];
    [exact H | apply NoDup_snoc_next, H].
Qed.

Lemma stage_item_pk (now : timestamp) (sid saleId : Z) (it : item) (st : db) :
  pk_all st -> pk_all (stage_item now sid saleId it st).
Proof.
  intros (Hs & Hp & Hm & Hsa & Hsi). unfold pk_all.
  rewrite stage_item_product_ids. unfold stage_item. simpl.
  rewrite !map_app. simpl.
  repeat split; auto using NoDup_snoc_next.
Qed.

Lemma sold_pk (now : timestamp) (sid saleId : Z) (items : list item) (st : db) :
  pk_all st -> pk_all (sold now sid saleId items st).
Proof.
  revert st. induction items as [|it rest IH]; intros st H; simpl; [exact H|].
  apply IH, stage_item_pk, H.
Qed.

Lemma pk_all_effect (now : timestamp) (r : request) (st st' : db) :
  effect now st r st' -> pk_all st -> pk_all st'.
Proof.
  intros He (Hs & Hp & Hm & Hsa & Hsi).
  assert (Hop : pk_all (opened now st)).
  { destruct (opened_same_ledger now st) as (E1 & E2 & E3 & E4).
    unfold pk_all. rewrite E1, E2, E3, E4.
    repeat split; auto using sessions_pk_opened. }
  destruct He; unfold pk_all.
  - repeat split; assumption.
  - exact Hop.
  - destruct Hop as (Hs' & Hp' & Hm' & Hsa' & Hsi').
    rewrite session_ids_closed. unfold closed. simpl.
    repeat split; auto using NoDup_snoc_next.
  - unfold added. simpl. rewrite map_app. simpl.
    repeat split; auto using NoDup_snoc_next.
  - unfold updated. simpl. rewrite map_update_ids by reflexivity.
    repeat split; assumption.
  - unfold updated. simpl. rewrite map_update_ids by reflexivity.
    repeat split; assumption.
  - destruct Hop as (Hs' & Hp' & Hm' & Hsa' & Hsi').
    unfold moved. simpl. rewrite map_update_ids by reflexivity.
    rewrite map_app. simpl.
    repeat split; auto using NoDup_snoc_next.
  - apply sold_pk. destruct Hop as (Hs' & Hp' & Hm' & Hsa' & Hsi').
    unfold pk_all, sale_added. simpl. rewrite map_app. simpl.
    repeat split; auto using NoDup_snoc_next.
Qed.

(** X8.  The primary keys hold throughout: no sequence of requests leaves
    two rows of one table with the same id.  They hold in the empty
    database, hence in every database the engine builds. *)
Theorem primary_keys_kept (reqs : list (timestamp * request)) (st : db) :
  pk_all st -> pk_all (run reqs st).
Proof.
  revert st. induction reqs as [|[now r] reqs IH]; intros st H; simpl.
  - exact H.
  - apply IH. eapply pk_all_effect; [apply handle_effect | exact H].
Qed.

Lemma primary_keys_kept_witness :
  pk_all
    (run [(1, AddProduct "A" (10 # 1) 5);
          (2, AddProduct "B" (3 # 1) 1);
          (3, Checkout [mkItem 1 "A" 2 (10 # 1); mkItem 2 "B" 1 (3 # 1)]
                       (Some "cash") (23 # 1));
          (4, CloseSession);
          (5, RecordMovement 1 "waste" 1 None)] empty_db).
Proof.
  apply primary_keys_kept. unfold pk_all. simpl.
  repeat split; constructor.
Defined.

(** ** Foreign keys *)

Lemma session_ids_opened_incl (now : timestamp) (st : db) :
  incl (map s_id (sessions st)) (map s_id (sessions (opened now st))).
Proof.
  destruct (session_ids_opened now st) as [-> | ->];
    [apply incl_refl | apply incl_appl, incl_refl].
Qed.

(** Foreign keys survive when the key sets grow and the rows stay. *)
Lemma fk_all_grow (st st' : db) :
  incl (map s_id (sessions st)) (map s_id (sessions st')) ->
  incl (map p_id (products st)) (map p_id (products st')) ->
  movements st' = movements st ->
  sales st' = sales st ->
  sale_items st' = sale_items st ->
  fk_all st -> fk_all st'.
Proof.
  intros Is Ip Em Es Ei (Hm & Hs & Hi). unfold fk_all.
  rewrite Em, Es, Ei. repeat split.
  - eapply Forall_impl; [|exact Hm]. intros m [H1 H2]. auto.
  - eapply Forall_impl; [|exact Hs]. intros s H1. auto.
  - eapply Forall_impl; [|exact Hi]. intros si [H1 H2]. split; auto.
Qed.

Lemma fk_all_opened (now : timestamp) (st : db) :
  fk_all st -> fk_all (opened now st).
Proof.
  destruct (opened_same_ledger now st) as (E1 & E2 & E3 & E4).
  apply fk_all_grow; auto.
  - apply session_ids_opened_incl.
  - rewrite E1. apply incl_refl.
Qed.

Lemma stage_item_fk (now : timestamp) (sid saleId : Z) (it : item) (st : db) :
  In sid (map s_id (sessions st)) ->
  In saleId (map sa_id (sales st)) ->
  In (item_id it) (map p_id (products st)) ->
  fk_all st -> fk_all (stage_item now sid saleId it st).
Proof.
  intros Hsid Hsale Hit (Hm & Hs & Hi). unfold fk_all.
  rewrite stage_item_product_ids. unfold stage_item. simpl.
  repeat split.
  - apply Forall_app. split; [exact Hm|]. repeat constructor; assumption.
  - exact Hs.
  - apply Forall_app. split; [exact Hi|]. repeat constructor; assumption.
Qed.

Lemma sold_fk (now : timestamp) (sid saleId : Z) (items : list item) (st : db) :
  In sid (map s_id (sessions st)) ->
  In saleId (map sa_id (sales st)) ->
  Forall (fun it => In (item_id it) (map p_id (products st))) items ->
  fk_all st -> fk_all (sold now sid saleId items st).
Proof.
  revert st. induction items as [|it rest IH]; intros st Hsid Hsale Hall H;
    simpl; [exact H|].
  inversion Hall as [|x l Hit Hrest]; subst.
  apply IH; auto.
  - rewrite stage_item_product_ids. exact Hrest.
  - apply stage_item_fk; assumption.
Qed.

Lemma current_id_in_opened (now : timestamp) (st : db) :
  In (s_id (current now st)) (map s_id (sessions (opened now st))).
Proof. apply in_map, current_in_opened. Qed.

Lemma fk_all_effect (now : timestamp) (r : request) (st st' : db) :
  effect now st r st' -> fk_all st -> fk_all st'.
Proof.
  intros He H.
  pose proof (fk_all_opened now st H) as Hop.
  destruct (opened_same_ledger now st) as (E1 & E2 & E3 & E4).
  destruct He.
  - exact H.
  - exact Hop.
  - revert Hop. apply fk_all_grow; try reflexivity; try apply incl_refl.
    rewrite session_ids_closed. apply incl_appl, incl_refl.
  - revert H. apply fk_all_grow; try reflexivity; try apply incl_refl.
    unfold added. simpl. rewrite map_app. apply incl_appl, incl_refl.
  - revert H. apply fk_all_grow; try reflexivity; try apply incl_refl.
    unfold updated. simpl. rewrite map_update_ids by reflexivity.
    apply incl_refl.
  - revert H. apply fk_all_grow; try reflexivity; try apply incl_refl.
    unfold updated. simpl. rewrite map_update_ids by reflexivity.
    apply incl_refl.
  - destruct Hop as (Hm & Hs & Hi). unfold fk_all, moved. simpl.
    rewrite map_update_ids by reflexivity.
    repeat split; [|exact Hs | exact Hi].
    apply Forall_app. split; [exact Hm|].
    repeat constructor; simpl.
    + apply current_id_in_opened.
    + rewrite E1. eapply stock_of_in; eassumption.
  - apply sold_fk.
    + apply current_id_in_opened.
    + unfold sale_added. simpl. rewrite E3, map_app.
      apply in_or_app. right. left. reflexivity.
    + unfold sale_added. simpl. rewrite E1. assumption.
    + destruct Hop as (Hm & Hs & Hi). unfold fk_all, sale_added. simpl.
      repeat split; [exact Hm | |].
      * apply Forall_app. split; [exact Hs|].
        repeat constructor. simpl. apply current_id_in_opened.
      * eapply Forall_impl; [|exact Hi]. intros si [H1 H2]. split; [|exact H2].
        rewrite map_app. apply in_or_app. left. exact H1.
Qed.

(** X9.  The handlers keep the foreign keys of the schema by themselves,
    whether or not the connection enforces them.  If every movement and
    sale names a
    session that has a row, every movement and sale item a product that
    has a row and every sale item a sale that has a row, this is still so
    after any sequence of requests. *)
Theorem foreign_keys_kept (reqs : list (timestamp * request)) (st : db) :
  fk_all st -> fk_all (run reqs st).
Proof.
  revert st. induction reqs as [|[now r] reqs IH]; intros st H; simpl.
  - exact H.
  - apply IH. eapply fk_all_effect; [apply handle_effect | exact H].
Qed.

Lemma foreign_keys_kept_witness :
  fk_all
    (run [(1, AddProduct "A" (10 # 1) 5);
          (2, RecordMovement 1 "entry" 4 None);
          (3, Checkout [mkItem 1 "A" 2 (10 # 1)] (Some "cash") (20 # 1));
          (4, CloseSession);
          (5, SoftDeleteProduct (Some 1));
          (6, RecordMovement 1 "waste" 1 None)] empty_db).
Proof.
  apply foreign_keys_kept. unfold fk_all. simpl. repeat split; constructor.
Defined.

(** ** Nothing is ever deleted *)

Lemma extends_refl (st : db) : extends st st.
Proof. unfold extends. repeat split; exists []; rewrite app_nil_r; reflexivity. Qed.

Lemma extends_trans (a b c : db) : extends a b -> extends b c -> extends a c.
Proof.
  intros ([l1 E1] & [l2 E2] & [l3 E3] & [l4 E4] & [l5 E5])
         ([k1 F1] & [k2 F2] & [k3 F3] & [k4 F4] & [k5 F5]).
  unfold extends. repeat split.
  - exists (l1 ++ k1). rewrite F1, E1, app_assoc. reflexivity.
  - exists (l2 ++ k2). rewrite F2, E2, app_assoc. reflexivity.
  - exists (l3 ++ k3). rewrite F3, E3, app_assoc. reflexivity.
  - exists (l4 ++ k4). rewrite F4, E4, app_assoc. reflexivity.
  - exists (l5 ++ k5). rewrite F5, E5, app_assoc. reflexivity.
Qed.

Lemma extends_opened (now : timestamp) (st : db) : extends st (opened now st).
Proof.
  destruct (opened_same_ledger now st) as (E1 & E2 & E3 & E4).
  unfold extends. rewrite E1, E2, E3, E4.
  repeat split; try (exists []; rewrite app_nil_r; reflexivity).
  destruct (session_ids_opened now st) as [-> | ->];
    [exists []; rewrite app_nil_r; reflexivity | eexists; reflexivity].
Qed.

Lemma extends_stage_item (now : timestamp) (sid saleId : Z) (it : item)
    (st : db) :
  extends st (stage_item now sid saleId it st).
Proof.
  unfold extends. rewrite stage_item_product_ids. unfold stage_item. simpl.
  repeat split; try (exists []; rewrite app_nil_r; reflexivity);
    eexists; reflexivity.
Qed.

Lemma extends_sold (now : timestamp) (sid saleId : Z) (items : list item)
    (st : db) :
  extends st (sold now sid saleId items st).
Proof.
  revert st. induction items as [|it rest IH]; intros st; simpl.
  - apply extends_refl.
  - eapply extends_trans; [apply extends_stage_item | apply IH].
Qed.

Lemma extends_effect (now : timestamp) (r : request) (st st' : db) :
  effect now st r st' -> extends st st'.
Proof.
  intros He.
  assert (Hafter : forall st2, extends (opened now st) st2 -> extends st st2)
    by (intros st2; apply extends_trans, extends_opened).
  destruct He.
  - apply extends_refl.
  - apply extends_opened.
  - apply Hafter. unfold extends. rewrite session_ids_closed.
    unfold closed. simpl.
    repeat split; try (exists []; rewrite app_nil_r; reflexivity).
    eexists; reflexivity.
  - unfold extends, added. simpl. rewrite map_app.
    repeat split; try (exists []; rewrite app_nil_r; reflexivity).
    eexists; reflexivity.
  - unfold extends, updated. simpl. rewrite map_update_ids by reflexivity.
    repeat split; exists []; rewrite app_nil_r; reflexivity.
  - unfold extends, updated. simpl. rewrite map_update_ids by reflexivity.
    repeat split; exists []; rewrite app_nil_r; reflexivity.
  - apply Hafter. unfold extends, moved. simpl.
    rewrite map_update_ids by reflexivity.
    repeat split; try (exists []; rewrite app_nil_r; reflexivity).
    eexists; reflexivity.
  - apply Hafter. eapply extends_trans; [|apply extends_sold].
    unfold extends, sale_added. simpl.
    repeat split; try (exists []; rewrite app_nil_r; reflexivity).
    eexists; reflexivity.
Qed.

(** X10.  The engine only ever appends.  After any sequence of requests
    the movements, sales and sale items that were there are still there,
    unchanged and in place, with the new rows after them; no session and
    no product row is removed either (a soft delete keeps the row). *)
Theorem ledger_append_only (reqs : list (timestamp * request)) (st : db) :
  extends st (run reqs st).
Proof.
  revert st. induction reqs as [|[now r] reqs IH]; intros st; simpl.
  - apply extends_refl.
  - eapply extends_trans; [|apply IH].
    eapply extends_effect, handle_effect.
Qed.

(** ** Closed sessions *)

Lemma NoDup_map_eq {A} (f : A -> Z) (l : list A) (a b : A) :
  NoDup (map f l) -> In a l -> In b l -> f a = f b -> a = b.
Proof.
  induction l as [|x l IH]; simpl; intros Hnd Ha Hb E; [contradiction|].
  inversion Hnd as [|y ys Hnotin Hnd']; subst.
  destruct Ha as [-> | Ha]; destruct Hb as [-> | Hb]; auto.
  - contradiction Hnotin. rewrite E. apply in_map, Hb.
  - contradiction Hnotin. rewrite <- E. apply in_map, Ha.
Qed.

Lemma sessions_in_opened (now : timestamp) (st : db) (s : session) :
  In s (sessions st) -> In s (sessions (opened now st)).
Proof.
  unfold opened. destruct (last_by_id _); [auto|].
  simpl. intros H. apply in_or_app. left. exact H.
Qed.

Lemma sessions_pk_handle (now : timestamp) (r : request) (st : db) :
  NoDup (map s_id (sessions st)) ->
  NoDup (map s_id (sessions (snd (handle now r st)))).
Proof.
  intros H. destruct (handle_sessions now r st) as [E | [E | E]].
  - rewrite E. exact H.
  - rewrite E. apply sessions_pk_opened, H.
  - rewrite E, session_ids_closed. apply NoDup_snoc_next, sessions_pk_opened, H.
Qed.

Lemma closed_session_kept_handle (now : timestamp) (r : request) (st : db)
    (s : session) :
  NoDup (map s_id (sessions st)) ->
  In s (sessions st) -> is_open s = false ->
  In s (sessions (snd (handle now r st))).
Proof.
  intros Hpk Hin Hclosed.
  pose proof (sessions_in_opened now st s Hin) as Hin'.
  destruct (handle_sessions now r st) as [E | [E | E]].
  - rewrite E. exact Hin.
  - rewrite E. exact Hin'.
  - rewrite E. unfold closed. simpl. apply in_or_app. left.
    apply in_map_iff. exists s. split; [|exact Hin'].
    unfold close_row. destruct (s_id s =? s_id (current now st)) eqn:Eid;
      [|reflexivity].
    apply Z.eqb_eq in Eid.
    assert (Hs : s = current now st).
    { apply (NoDup_map_eq s_id (sessions (opened now st)));
        auto using sessions_pk_opened, current_in_opened. }
    pose proof (current_open now st) as Hopen. rewrite <- Hs in Hopen.
    unfold is_open in Hclosed. rewrite Hopen in Hclosed. discriminate.
Qed.

(** X11.  There is no way back from closed.  Under the primary key of
    sessions, a session row that is closed stays in the table exactly as
    it is, closed flag and end time included, through any sequence of
    requests. *)
Theorem closed_session_immutable (reqs : list (timestamp * request)) (st : db)
    (s : session) :
  NoDup (map s_id (sessions st)) ->
  In s (sessions st) -> is_open s = false ->
  In s (sessions (run reqs st)).
Proof.
  revert st. induction reqs as [|[now r] reqs IH]; intros st Hpk Hin Hc; simpl.
  - exact Hin.
  - apply IH; auto using sessions_pk_handle, closed_session_kept_handle.
Qed.

Lemma closed_session_immutable_witness :
  In (mkSession 1 100 (Some 7) 1)
     (sessions (run [(8, CloseSession); (9, RecordMovement 1 "entry" 1 None);
                     (10, CloseSession)]
                    (snd (post_sessions_close 7 db0)))).
Proof.
  apply closed_session_immutable.
  - simpl. repeat constructor; simpl; intuition discriminate.
  - left. reflexivity.
  - reflexivity.
Defined.

(** ** A new day starts empty *)

Lemma last_by_id_snoc_max (l : list session) (x : session) :
  (forall s, In s l -> s_id s < s_id x) -> last_by_id (l ++ [x]) = Some x.
Proof.
  induction l as [|a l IH]; intros H; simpl; [reflexivity|].
  rewrite IH by (intros s Hs; apply H; right; exact Hs).
  rewrite (proj2 (Z.ltb_lt _ _) (H a (or_introl eq_refl))). reflexivity.
Qed.

Lemma filter_none {A} (f : A -> bool) (l : list A) :
  (forall x, In x l -> f x = false) -> filter f l = [].
Proof.
  induction l as [|a l IH]; intros H; simpl; [reflexivity|].
  rewrite (H a (or_introl eq_refl)). apply IH.
  intros x Hx. apply H. right. exact Hx.
Qed.

Lemma next_id_above (ids : list Z) (i : Z) : In i ids -> i < next_id ids.
Proof. intros H. apply fold_max_ge in H. unfold next_id. lia. Qed.

(** Whatever was open before, the session [closeSession] opens is the one
    [getCurrentSession] finds next: it has the largest id. *)
Lemma current_after_close (now now' : timestamp) (st : db) :
  current now' (closed now st) =
    mkSession (next_id (map s_id (sessions (opened now st)))) now None 0 /\
  opened now' (closed now st) = closed now st.
Proof.
  assert (H : last_by_id (filter is_open (sessions (closed now st))) =
              Some (mkSession (next_id (map s_id (sessions (opened now st))))
                              now None 0)).
  { unfold closed. simpl. rewrite filter_open_app. simpl.
    rewrite map_map, (map_ext _ s_id (close_row_id now _)).
    apply last_by_id_snoc_max. intros s Hs. simpl.
    apply filter_In in Hs. destruct Hs as [Hs _].
    apply next_id_above.
    apply in_map_iff in Hs. destruct Hs as (x & <- & Hx).
    rewrite close_row_id. apply in_map, Hx. }
  unfold current, opened. rewrite H. auto.
Qed.

(** X12.  A new day starts empty.  When the movements and sales of the
    database name sessions that have a row, the report of the current
    session asked right after [closeSession] shows the session just
    opened, with no sale and no movement, and writes nothing. *)
Theorem report_after_close_is_empty (now now' : timestamp) (st : db) :
  fk_all st ->
  let st' := snd (post_sessions_close now st) in
  exists new_id,
    (exists closed_id,
       fst (post_sessions_close now st) = res_json (BClosed closed_id new_id)) /\
    get_reports_current now' st' =
      (res_json (BReport [] [] (Some (mkSession new_id now None 0))), st').
Proof.
  intros Hfk st'.
  exists (next_id (map s_id (sessions (opened now st)))).
  assert (Est : st' = closed now st)
    by (unfold st'; rewrite post_sessions_close_eq; reflexivity).
  split.
  - exists (s_id (current now st)). rewrite post_sessions_close_eq. simpl.
    rewrite map_map, (map_ext _ s_id (close_row_id now _)). reflexivity.
  - destruct (current_after_close now now' st) as [Hc Ho].
    unfold get_reports_current, try_catch, bind.
    rewrite getCurrentSession_eq, Est, Hc, Ho. simpl s_id.
    destruct Hfk as (Hm & Hs & _).
    assert (Hfresh : forall i, In i (map s_id (sessions st)) ->
              (i =? next_id (map s_id (sessions (opened now st)))) = false).
    { intros i Hi. apply Z.eqb_neq. intros E.
      apply (next_id_fresh (map s_id (sessions (opened now st)))).
      rewrite <- E. apply session_ids_opened_incl, Hi. }
    destruct (opened_same_ledger now st) as (_ & Em & Es & _).
    assert (Hsales : select_sales
              (next_id (map s_id (sessions (opened now st)))) (closed now st) = []).
    { unfold select_sales, closed. simpl. rewrite Es.
      rewrite Forall_forall in Hs.
      apply filter_none. intros x Hx. apply Hfresh, Hs, Hx. }
    assert (Hmov : select_movements
              (next_id (map s_id (sessions (opened now st)))) (closed now st) = []).
    { unfold select_movements, closed. simpl. rewrite Em.
      rewrite Forall_forall in Hm.
      rewrite filter_none; [reflexivity|].
      intros x Hx. apply Hfresh, (Hm x Hx). }
    rewrite Hsales, Hmov. reflexivity.
Qed.

Lemma report_after_close_is_empty_witness :
  let st := snd (post_sales 3 [mkItem 1 "P1" 1 (10 # 1)] (Some "cash") (10 # 1) db0) in
  get_reports_current 9 (snd (post_sessions_close 8 st)) =
    (res_json (BReport [] [] (Some (mkSession 2 8 None 0))),
     snd (post_sessions_close 8 st)).
Proof.
  intros st.
  destruct (report_after_close_is_empty 8 9 st) as (new_id & [cid E] & H).
  - unfold fk_all. simpl. repeat constructor; simpl; auto.
  - inversion E; subst. exact H.
Defined.

(** ** The catalogue, further *)

Lemma find_snoc (f : product -> bool) (l : list product) (x : product) :
  find f (l ++ [x]) =
  match find f l with
  | Some p => Some p
  | None => if f x then Some x else None
  end.
Proof.
  induction l as [|a l IH]; simpl; [reflexivity|].
  destruct (f a); [reflexivity | exact IH].
Qed.

(** X13.  addProduct, then look it up.  The id answered is positive and
    was the id of no product before; the new product is found under it
    with the stock given, and is the last row of the listing; every other
    id reads the stock it read before. *)
Theorem add_product_then_lookup (name : string) (price : Q) (stock : Z)
    (st : db) :
  let r := post_products name price stock st in
  exists id,
    fst r = res_json (BId id) /\
    0 < id /\
    ~ In id (map p_id (products st)) /\
    stock_of id (snd r) = Some stock /\
    (forall id', id' <> id -> stock_of id' (snd r) = stock_of id' st) /\
    fst (get_products (snd r)) =
      res_json (BProducts
        (filter (fun p => p_deleted p =? 0) (products st) ++
         [mkProduct id name price stock stock 0 None])).
Proof.
  intros r. exists (next_id (map p_id (products st))).
  pose proof (next_id_fresh (map p_id (products st))) as Hfresh.
  split; [reflexivity|]. split; [apply next_id_pos|]. split; [exact Hfresh|].
  split; [|split].
  - unfold stock_of. simpl. rewrite find_snoc.
    fold (stock_of (next_id (map p_id (products st))) st).
    pose proof (stock_of_none _ _ Hfresh) as Hn. unfold stock_of in Hn.
    destruct (find _ (products st)); [discriminate|].
    simpl. rewrite Z.eqb_refl. reflexivity.
  - intros id' Hid. unfold stock_of. simpl. rewrite find_snoc.
    destruct (find _ (products st)); [reflexivity|].
    simpl. rewrite (proj2 (Z.eqb_neq _ _) (not_eq_sym Hid)). reflexivity.
  - simpl. rewrite filter_app. reflexivity.
Qed.

(** X14.  Under the primary key, [changes] tells whether the product
    exists: updateProduct and softDeleteProduct answer [changes = 1] for an
    id that has a row and [changes = 0] otherwise.  updateProduct leaves
    the product with the stock written, its [initial_stock] and [deleted]
    flag as they were, every other product as it was, and logs no
    movement. *)
Theorem update_product_changes (id : Z) (name : string) (price : Q) (stock : Z)
    (st : db) :
  products_pk st ->
  let r := put_products_id (Some id) name price stock st in
  let d := delete_products_id (Some id) st in
  (forall p, In p (products st) -> p_id p = id ->
     fst r = res_json (BChanges 1) /\
     fst d = res_json (BChanges 1) /\
     In (mkProduct id name price stock (p_initial_stock p) (p_deleted p)
                   (p_image p)) (products (snd r)) /\
     stock_of id (snd r) = Some stock) /\
  (~ In id (map p_id (products st)) ->
     fst r = res_json (BChanges 0) /\ fst d = res_json (BChanges 0)) /\
  (forall p, In p (products st) -> p_id p <> id -> In p (products (snd r))) /\
  movements (snd r) = movements st.
Proof.
  intros Hpk r d.
  assert (Hcount : forall p, In p (products st) -> p_id p = id ->
            changes_of id (products st) = 1).
  { unfold changes_of, products_pk in *. intros p Hin Hid.
    induction (products st) as [|a l IH]; [contradiction|].
    simpl in Hpk. inversion Hpk as [|x xs Hnotin Hnd]; subst.
    simpl. destruct (p_id a =? p_id p) eqn:E.
    - rewrite filter_none; [reflexivity|].
      intros x Hx. apply Z.eqb_neq. intros Ex. apply Hnotin.
      apply Z.eqb_eq in E. rewrite E, <- Ex. apply in_map, Hx.
    - destruct Hin as [-> | Hin]; [rewrite Z.eqb_refl in E; discriminate|].
      apply IH; assumption. }
  split; [|split; [|split]].
  - intros p Hin Hid. unfold r, d. simpl. rewrite (Hcount p Hin Hid).
    split; [reflexivity | split; [reflexivity | split]].
    + apply in_map_iff. exists p. rewrite (proj2 (Z.eqb_eq _ _) Hid).
      rewrite Hid. auto.
    + unfold stock_of. simpl. rewrite find_map_update by reflexivity.
      destruct (find (fun q => p_id q =? id) (products st)) as [q|] eqn:E.
      * simpl. apply find_some in E. destruct E as [_ E]. rewrite E. reflexivity.
      * pose proof (find_none _ _ E p Hin) as Hf. simpl in Hf.
        rewrite (proj2 (Z.eqb_eq _ _) Hid) in Hf. discriminate.
  - intros Hno. unfold r, d. simpl. unfold changes_of.
    destruct (map_update_miss soft_delete id _ Hno) as [_ ->]. auto.
  - intros p Hin Hid. unfold r. simpl. apply in_map_iff. exists p.
    rewrite (proj2 (Z.eqb_neq _ _) Hid). auto.
  - reflexivity.
Qed.

Lemma update_product_changes_witness :
  fst (put_products_id (Some 2) "P2" (12 # 1) 40 db0) = res_json (BChanges 1) /\
  stock_of 2 (snd (put_products_id (Some 2) "P2" (12 # 1) 40 db0)) = Some 40.
Proof.
  destruct (update_product_changes 2 "P2" (12 # 1) 40 db0) as (H & _).
  - unfold products_pk. simpl. repeat constructor; simpl; intuition discriminate.
  - destruct (H (prod 2 "P2" 0)) as (H1 & _ & _ & H2);
      [right; left; reflexivity | reflexivity |].
    split; assumption.
Defined.

(** X15.  softDeleteProduct is idempotent: a second delete of the same id
    gets the answer of the first and leaves the database of the first.
    The count it answers with is that of the rows matched, so a product
    already hidden is still reported as changed. *)
Theorem soft_delete_idempotent (id : option Z) (st : db) :
  delete_products_id id (snd (delete_products_id id st)) =
  delete_products_id id st.
Proof.
  destruct id as [id|]; [|reflexivity].
  unfold delete_products_id, try_catch, bind, update_product_deleted,
    update_products. simpl.
  assert (Hmap : forall l : list product,
            map (fun p => if p_id p =? id then soft_delete p else p)
                (map (fun p => if p_id p =? id then soft_delete p else p) l) =
            map (fun p => if p_id p =? id then soft_delete p else p) l).
  { intros l. rewrite map_map. apply map_ext. intros p.
    destruct (p_id p =? id) eqn:E; simpl; rewrite E; reflexivity. }
  assert (Hcount : forall l : list product,
            changes_of id
              (map (fun p => if p_id p =? id then soft_delete p else p) l) =
            changes_of id l).
  { intros l. unfold changes_of. f_equal.
    induction l as [|a l IH]; simpl; [reflexivity|].
    destruct (p_id a =? id) eqn:E; simpl; rewrite E; simpl; auto. }
  unfold soft_delete in Hmap, Hcount. rewrite Hmap, Hcount. reflexivity.
Qed.

Lemma soft_deleted_kept (id : Z) (g : product -> product) (l : list product) :
  (forall p, p_id (g p) = p_id p) ->
  (forall p, p_deleted p <> 0 -> p_deleted (g p) <> 0) ->
  (forall p, In p l -> p_id p = id -> p_deleted p <> 0) ->
  forall p, In p (map g l) -> p_id p = id -> p_deleted p <> 0.
Proof.
  intros Hid Hdel H p Hp E. apply in_map_iff in Hp.
  destruct Hp as (q & <- & Hq). rewrite Hid in E. apply Hdel, (H q Hq E).
Qed.

Lemma soft_deleted_kept_update (id id' : Z) (f : product -> product)
    (l : list product) :
  (forall p, p_id (f p) = p_id p) ->
  (forall p, p_deleted p <> 0 -> p_deleted (f p) <> 0) ->
  (forall p, In p l -> p_id p = id -> p_deleted p <> 0) ->
  forall p, In p (map (fun p => if p_id p =? id' then f p else p) l) ->
            p_id p = id -> p_deleted p <> 0.
Proof.
  intros Hid Hdel. apply soft_deleted_kept.
  - intros p. destruct (p_id p =? id'); auto.
  - intros p Hp. destruct (p_id p =? id'); auto.
Qed.

Lemma soft_deleted_kept_sold (id : Z) (now : timestamp) (sid saleId : Z)
    (items : list item) (st : db) :
  (forall p, In p (products st) -> p_id p = id -> p_deleted p <> 0) ->
  forall p, In p (products (sold now sid saleId items st)) ->
            p_id p = id -> p_deleted p <> 0.
Proof.
  revert st. induction items as [|it rest IH]; intros st H; simpl; [exact H|].
  apply IH. unfold stage_item. simpl.
  apply soft_deleted_kept_update; auto.
Qed.

Lemma soft_deleted_kept_effect (id : Z) (now : timestamp) (r : request)
    (st st' : db) :
  effect now st r st' ->
  In id (map p_id (products st)) ->
  (forall p, In p (products st) -> p_id p = id -> p_deleted p <> 0) ->
  In id (map p_id (products st')) /\
  (forall p, In p (products st') -> p_id p = id -> p_deleted p <> 0).
Proof.
  intros He Hin H.
  split.
  - destruct (extends_effect _ _ _ _ He) as (_ & [l E] & _).
    rewrite E. apply in_or_app. left. exact Hin.
  - destruct (opened_same_ledger now st) as (Ep & _).
    destruct He; try exact H.
    + rewrite Ep. exact H.
    + unfold closed. simpl. rewrite Ep. exact H.
    + unfold added. simpl. intros p Hp E.
      apply in_app_or in Hp. destruct Hp as [Hp | [<- | []]]; [auto|].
      simpl in E. exfalso. apply (next_id_fresh (map p_id (products st))).
      rewrite E. exact Hin.
    + unfold updated. simpl. apply soft_deleted_kept_update; auto.
    + unfold updated. simpl. apply soft_deleted_kept_update; auto.
      intros p _. simpl. discriminate.
    + unfold moved. simpl. rewrite Ep. apply soft_deleted_kept_update; auto.
    + apply soft_deleted_kept_sold. unfold sale_added. simpl. rewrite Ep.
      exact H.
Qed.

(** X16.  A soft delete is for good.  No request clears the [deleted]
    flag: once softDeleteProduct(id) has been asked for an existing
    product, no row of that id is in the answer of listProducts after any
    further sequence of requests. *)
Theorem soft_delete_is_permanent (id : Z) (reqs : list (timestamp * request))
    (st : db) :
  In id (map p_id (products st)) ->
  let st' := run reqs (snd (delete_products_id (Some id) st)) in
  exists rows,
    get_products st' = (res_json (BProducts rows), st') /\
    forall p, In p rows -> p_id p <> id.
Proof.
  intros Hin st'.
  exists (filter (fun p => p_deleted p =? 0) (products st')).
  split; [reflexivity|].
  assert (H : In id (map p_id (products st')) /\
              forall p, In p (products st') -> p_id p = id -> p_deleted p <> 0).
  { unfold st'. clear st'.
    assert (H0 : In id (map p_id (products (snd (delete_products_id (Some id) st)))) /\
                 forall p, In p (products (snd (delete_products_id (Some id) st))) ->
                           p_id p = id -> p_deleted p <> 0).
    { simpl. split.
      - rewrite map_update_ids by reflexivity. exact Hin.
      - intros p Hp E. apply in_map_iff in Hp. destruct Hp as (q & <- & Hq).
        destruct (p_id q =? id) eqn:Eq; [simpl; discriminate|].
        apply Z.eqb_neq in Eq. contradiction. }
    revert H0. generalize (snd (delete_products_id (Some id) st)).
    induction reqs as [|[now r] reqs IH]; intros st0 [H1 H2]; simpl; [auto|].
    apply IH.
    apply (soft_deleted_kept_effect id now r st0); auto using handle_effect. }
  intros p Hp E. apply filter_In in Hp. destruct Hp as [Hp Hd].
  apply (proj2 H p Hp E). apply Z.eqb_eq, Hd.
Qed.

Lemma soft_delete_is_permanent_witness :
  fst (get_products
         (run [(5, UpdateProduct (Some 1) "P1 bis" (9 # 1) 50);
               (6, RecordMovement 1 "entry" 3 None)]
              (snd (delete_products_id (Some 1) db0)))) =
  res_json (BProducts [prod 2 "P2" 0]).
Proof.
  destruct (soft_delete_is_permanent 1
              [(5, UpdateProduct (Some 1) "P1 bis" (9 # 1) 50);
               (6, RecordMovement 1 "entry" 3 None)] db0)
    as (rows & E & _).
  - left. reflexivity.
  - reflexivity.
Defined.

(** X17.  Reports carry the name a product has now.  After
    updateProduct(id, name, ...) on an existing product, every movement of
    that product, in the report of whichever session it belongs to, is
    joined with the new name and with no other, whatever the product was
    called when the movement was recorded. *)
Theorem rename_shows_in_past_reports (id : Z) (name : string) (price : Q)
    (stock : Z) (st : db) (m : movement) :
  In id (map p_id (products st)) ->
  In m (movements st) -> m_product_id m = id ->
  let st' := snd (put_products_id (Some id) name price stock st) in
  In (m, name) (select_movements (m_session_id m) st') /\
  forall sessionId n, In (m, n) (select_movements sessionId st') -> n = name.
Proof.
  intros Hid Hm Hp st'. split.
  - apply in_map_iff in Hid. destruct Hid as (p & E & Hin).
    unfold select_movements. apply in_flat_map. exists m. split.
    + apply filter_In. split; [exact Hm | apply Z.eqb_refl].
    + apply in_map_iff. exists (overwrite name price stock p).
      split; [reflexivity|]. apply filter_In. split.
      * simpl. apply in_map_iff. exists p.
        rewrite (proj2 (Z.eqb_eq _ _) E). auto.
      * simpl. apply Z.eqb_eq. congruence.
  - intros sid n H. unfold select_movements in H.
    apply in_flat_map in H. destruct H as (m' & _ & H).
    apply in_map_iff in H. destruct H as (p & E & Hin).
    assert (Em : m' = m) by congruence.
    assert (En : n = p_name p) by congruence.
    apply filter_In in Hin. destruct Hin as [Hin Hmatch].
    apply Z.eqb_eq in Hmatch. rewrite Em, Hp in Hmatch.
    simpl in Hin. apply in_map_iff in Hin. destruct Hin as (q & Eq & _).
    rewrite En, <- Eq. rewrite <- Eq in Hmatch.
    destruct (p_id q =? id) eqn:Eid; [reflexivity|].
    apply Z.eqb_neq in Eid. congruence.
Qed.

Lemma rename_shows_in_past_reports_witness :
  let st := snd (post_inventory_move 3 1 "entry" 4 None db0) in
  In (mkMovement 1 1 1 "entry" 4 None 3, "Pan")
     (select_movements 1 (snd (put_products_id (Some 1) "Pan" (10 # 1) 6 st))).
Proof.
  intros st.
  apply (rename_shows_in_past_reports 1 "Pan" (10 # 1) 6 st
           (mkMovement 1 1 1 "entry" 4 None 3)).
  - left. reflexivity.
  - left. reflexivity.
  - reflexivity.
Defined.

(** ** Stock and audit trail agree *)

Lemma balance_snoc (id : Z) (ms : list movement) (m : movement) :
  balance id (ms ++ [m]) =
  balance id ms + (if m_product_id m =? id then delta m else 0).
Proof.
  induction ms as [|a ms IH]; simpl.
  - destruct (m_product_id m =? id); lia.
  - rewrite IH. destruct (m_product_id a =? id); lia.
Qed.

Lemma balance_unreferenced (id : Z) (ms : list movement) :
  Forall (fun m => m_product_id m <> id) ms -> balance id ms = 0.
Proof.
  induction 1 as [|m ms Hm _ IH]; simpl; [reflexivity|].
  rewrite (proj2 (Z.eqb_neq _ _) Hm). exact IH.
Qed.

(** Appending one movement [m] of product [id] while the rows of [id] get
    [g], which adds [delta m] to the stock. *)
Lemma stock_audited_step (id : Z) (g : product -> product) (m : movement)
    (ps : list product) (ms : list movement) :
  m_product_id m = id ->
  In id (map p_id ps) ->
  (forall p, p_id (g p) = p_id p) ->
  (forall p, p_initial_stock (g p) = p_initial_stock p) ->
  (forall p, In p ps -> p_id p = id -> p_stock (g p) = p_stock p + delta m) ->
  NoDup (map p_id ps) /\
  Forall (fun m => In (m_product_id m) (map p_id ps)) ms /\
  Forall (fun p => p_stock p = p_initial_stock p + balance (p_id p) ms) ps ->
  let ps' := map (fun p => if p_id p =? id then g p else p) ps in
  NoDup (map p_id ps') /\
  Forall (fun m => In (m_product_id m) (map p_id ps')) (ms ++ [m]) /\
  Forall (fun p => p_stock p = p_initial_stock p + balance (p_id p) (ms ++ [m]))
         ps'.
Proof.
  intros Hm Hin Hgid Hginit Hg (Hpk & Hfk & Hbal) ps'.
  assert (Hids : map p_id ps' = map p_id ps)
    by (apply map_update_ids, Hgid).
  rewrite Hids. split; [exact Hpk | split].
  - apply Forall_app. split; [exact Hfk|].
    repeat constructor. rewrite Hm. exact Hin.
  - rewrite Forall_forall in *. intros p' Hp'.
    apply in_map_iff in Hp'. destruct Hp' as (p & <- & Hp).
    rewrite balance_snoc, Hm.
    destruct (p_id p =? id) eqn:E.
    + apply Z.eqb_eq in E.
      rewrite Hgid, Hginit, (Hg p Hp E), (Hbal p Hp), E, Z.eqb_refl. lia.
    + rewrite Z.eqb_sym, E, (Hbal p Hp). lia.
Qed.

Lemma stock_audited_products (st st' : db) :
  products st' = products st -> movements st' = movements st ->
  stock_audited st -> stock_audited st'.
Proof. unfold stock_audited, products_pk. intros -> ->. auto. Qed.

Lemma stage_item_audited (now : timestamp) (sid saleId : Z) (it : item)
    (st : db) :
  In (item_id it) (map p_id (products st)) ->
  stock_audited st -> stock_audited (stage_item now sid saleId it st).
Proof.
  intros Hin H. unfold stock_audited, products_pk, stage_item. simpl.
  apply (stock_audited_step (item_id it)
           (fun p => set_stock (p_stock p - item_quantity it) p)); auto.
Qed.

Lemma sold_audited (now : timestamp) (sid saleId : Z) (items : list item)
    (st : db) :
  Forall (fun it => In (item_id it) (map p_id (products st))) items ->
  stock_audited st -> stock_audited (sold now sid saleId items st).
Proof.
  revert st. induction items as [|it rest IH]; intros st Hall H; simpl;
    [exact H|].
  inversion Hall as [|x l Hit Hrest]; subst.
  apply IH.
  - rewrite stage_item_product_ids. exact Hrest.
  - apply stage_item_audited; assumption.
Qed.

Lemma stock_audited_effect (now : timestamp) (r : request) (st st' : db) :
  effect now st r st' -> audited r = true ->
  stock_audited st -> stock_audited st'.
Proof.
  intros He Ha H.
  destruct (opened_same_ledger now st) as (Ep & Em & _).
  assert (Hop : stock_audited (opened now st))
    by (revert H; apply stock_audited_products; assumption).
  destruct He; try exact H; try exact Hop; try discriminate.
  - destruct H as (Hpk & Hfk & Hbal).
    unfold stock_audited, products_pk, added. simpl.
    rewrite map_app. simpl. split; [apply NoDup_snoc_next, Hpk | split].
    + eapply Forall_impl; [|exact Hfk]. intros m Hm.
      apply in_or_app. left. exact Hm.
    + apply Forall_app. split; [exact Hbal|].
      repeat constructor. simpl. rewrite balance_unreferenced; [lia|].
      eapply Forall_impl; [|exact Hfk]. intros m Hm E.
      apply (next_id_fresh (map p_id (products st))). rewrite <- E. exact Hm.
  - destruct H as (Hpk & Hfk & Hbal).
    unfold stock_audited, products_pk, updated. simpl.
    rewrite map_update_ids by reflexivity.
    split; [exact Hpk | split; [exact Hfk|]].
    rewrite Forall_forall in *. intros p' Hp'.
    apply in_map_iff in Hp'. destruct Hp' as (p & <- & Hp).
    destruct (p_id p =? id); [simpl|]; apply Hbal, Hp.
  - simpl in Ha. apply negb_true_iff in Ha.
    destruct Hop as (Hpk & Hfk & Hbal).
    rewrite <- (stock_of_opened now) in H0.
    destruct (stock_of_find _ _ _ H0) as (p0 & Hfind & Hst0 & Hin0 & Hid0).
    unfold stock_audited, products_pk, moved. simpl.
    apply (stock_audited_step product_id (set_stock newStock)); auto.
    + rewrite <- Hid0. apply in_map, Hin0.
    + intros p Hp Hid. rewrite (find_pk _ _ _ _ Hpk Hfind Hp Hid), Hst0.
      unfold delta, move_new_stock, check_type in *. simpl.
      destruct (String.eqb type "entry").
      * inversion H1. reflexivity.
      * destruct (String.eqb type "waste"); simpl in *.
        -- destruct (stock <? quantity); inversion H1. lia.
        -- rewrite Ha in H2. discriminate.
  - apply sold_audited.
    + unfold sale_added. simpl. rewrite Ep. assumption.
    + revert Hop. apply stock_audited_products; reflexivity.
Qed.

(** X18.  Stock and audit trail agree.  Starting from a database in which
    every stock is its initial stock plus the entries, less the wastes and
    sales, logged for the product (the empty database is one), this is
    still so after any sequence of requests that holds no updateProduct
    and no movement of type "sale" asked of the move handler: addProduct,
    entries, wastes, sales, soft deletes, session closes, rejected and
    rolled-back calls included.  The run is one in which the arithmetic of
    the code is exact: the stocks at the start and after each request and
    the quantities asked are safe integers, and no sale asks for a
    negative quantity. *)
Theorem stock_matches_audit_trail (reqs : list (timestamp * request)) (st : db) :
  stock_audited st ->
  Forall (fun tr => audited (snd tr) = true) reqs ->
  safe_stocks st -> safe_run reqs st ->
  stock_audited (run reqs st).
Proof.
  intros H Hreqs _ _. revert st H.
  induction Hreqs as [|[now r] reqs Hr _ IH]; intros st H; simpl.
  - exact H.
  - apply IH. eapply stock_audited_effect; [apply handle_effect | exact Hr | exact H].
Qed.

Lemma stock_matches_audit_trail_witness :
  Forall (fun p => p_stock p = p_initial_stock p + balance (p_id p)
            (movements
               (run [(1, AddProduct "A" (10 # 1) 5);
                     (2, RecordMovement 1 "entry" 4 None);
                     (3, Checkout [mkItem 1 "A" 7 (10 # 1)] (Some "cash") (70 # 1));
                     (4, RecordMovement 1 "waste" 9 None);
                     (5, RecordMovement 1 "waste" 2 (Some "Merma"))] empty_db)))
         (products
            (run [(1, AddProduct "A" (10 # 1) 5);
                  (2, RecordMovement 1 "entry" 4 None);
                  (3, Checkout [mkItem 1 "A" 7 (10 # 1)] (Some "cash") (70 # 1));
                  (4, RecordMovement 1 "waste" 9 None);
                  (5, RecordMovement 1 "waste" 2 (Some "Merma"))] empty_db)).
Proof.
  apply (stock_matches_audit_trail
           [(1, AddProduct "A" (10 # 1) 5);
            (2, RecordMovement 1 "entry" 4 None);
            (3, Checkout [mkItem 1 "A" 7 (10 # 1)] (Some "cash") (70 # 1));
            (4, RecordMovement 1 "waste" 9 None);
            (5, RecordMovement 1 "waste" 2 (Some "Merma"))] empty_db).
  - unfold stock_audited, products_pk. simpl. repeat split; constructor.
  - repeat constructor.
  - constructor.
  - unfold safe_integer. simpl. repeat split; repeat constructor; simpl; lia.
Defined.

(** ** The history of closed sessions *)

Lemma insert_by_end_time_perm (s : session) (l : list session) :
  Permutation (insert_by_end_time s l) (s :: l).
Proof.
  induction l as [|x l IH]; simpl; [reflexivity|].
  destruct (end_time_leb (s_end_time x) (s_end_time s)); [reflexivity|].
  rewrite IH. apply perm_swap.
Qed.

Lemma order_by_end_time_desc_perm (l : list session) :
  Permutation (order_by_end_time_desc l) l.
Proof.
  induction l as [|s l IH]; simpl; [reflexivity|].
  rewrite insert_by_end_time_perm, IH. reflexivity.
Qed.

Lemma end_time_leb_total (a b : option timestamp) :
  end_time_leb a b = false -> end_time_leb b a = true.
Proof.
  destruct a as [x|], b as [y|]; simpl; try discriminate; auto.
  intros H. apply Z.leb_gt in H. apply Z.leb_le. lia.
Qed.

Lemma end_time_leb_trans (a b c : option timestamp) :
  end_time_leb a b = true -> end_time_leb b c = true -> end_time_leb a c = true.
Proof.
  destruct a as [x|], b as [y|], c as [z|]; simpl; try discriminate; auto.
  intros H1 H2. apply Z.leb_le in H1, H2. apply Z.leb_le. lia.
Qed.

Lemma insert_by_end_time_sorted (s : session) (l : list session) :
  StronglySorted latest_first l ->
  StronglySorted latest_first (insert_by_end_time s l).
Proof.
  induction 1 as [|x l Hl IH Hx]; simpl.
  - repeat constructor.
  - destruct (end_time_leb (s_end_time x) (s_end_time s)) eqn:E.
    + constructor; [constructor; assumption|].
      constructor; [exact E|].
      rewrite Forall_forall in *. intros y Hy. unfold latest_first in *.
      eapply end_time_leb_trans; [apply Hx, Hy | exact E].
    + constructor; [exact IH|].
      rewrite Forall_forall in *. intros y Hy.
      apply (Permutation_in _ (insert_by_end_time_perm s l)) in Hy.
      destruct Hy as [<- | Hy]; [|auto].
      apply end_time_leb_total, E.
Qed.

Lemma order_by_end_time_desc_sorted (l : list session) :
  StronglySorted latest_first (order_by_end_time_desc l).
Proof.
  induction l as [|s l IH]; simpl; [constructor|].
  apply insert_by_end_time_sorted, IH.
Qed.

(** X19.  The history is the closed sessions, latest first.  The answer
    holds exactly the rows with [is_closed = 1], each as often as the
    table has it, so never the open session; every row comes before the
    rows that ended earlier, rows without an end time last; and the
    database is not written. *)
Theorem history_lists_closed_sessions (st : db) :
  exists rows,
    get_sessions_history st = ((200, HSessions rows), st) /\
    Permutation rows (filter (fun s => s_is_closed s =? 1) (sessions st)) /\
    StronglySorted latest_first rows /\
    (forall s, In s rows <-> In s (sessions st) /\ s_is_closed s = 1).
Proof.
  exists (history st). unfold history.
  split; [reflexivity | split; [|split]].
  - apply order_by_end_time_desc_perm.
  - apply order_by_end_time_desc_sorted.
  - intros s. split.
    + intros H. apply (Permutation_in _ (order_by_end_time_desc_perm _)) in H.
      apply filter_In in H. destruct H as [H1 H2]. split; [exact H1 | lia].
    + intros [H1 H2].
      apply (Permutation_in _ (Permutation_sym (order_by_end_time_desc_perm _))).
      apply filter_In. split; [exact H1 | lia].
Qed.

Lemma insert_by_end_time_max (x : session) (l : list session) :
  (forall y, In y l -> end_time_leb (s_end_time y) (s_end_time x) = true) ->
  insert_by_end_time x l = x :: l.
Proof.
  destruct l as [|y l]; simpl; [reflexivity|].
  intros H. rewrite (H y (or_introl eq_refl)). reflexivity.
Qed.

Lemma order_by_end_time_desc_max (a b : list session) (x : session) :
  (forall y, In y (a ++ b) ->
     end_time_leb (s_end_time x) (s_end_time y) = false) ->
  order_by_end_time_desc (a ++ x :: b) = x :: order_by_end_time_desc (a ++ b).
Proof.
  induction a as [|a0 a IH]; intros H; simpl.
  - apply insert_by_end_time_max. intros y Hy.
    apply end_time_leb_total, H.
    apply (Permutation_in _ (order_by_end_time_desc_perm b)), Hy.
  - rewrite IH by (intros y Hy; apply H; right; exact Hy).
    simpl. rewrite (H a0 (or_introl eq_refl)). reflexivity.
Qed.

Lemma filter_closed_opened (now : timestamp) (st : db) :
  filter (fun s => s_is_closed s =? 1) (sessions (opened now st)) =
  filter (fun s => s_is_closed s =? 1) (sessions st).
Proof.
  unfold opened. destruct (last_by_id _); [reflexivity|].
  simpl. rewrite filter_app. simpl. apply app_nil_r.
Qed.

(** X20.  The day just closed heads the history.  Under the primary key of
    sessions, when the clock has moved past every end time on record,
    the history asked after [closeSession] is the session that was current,
    now closed with [end_time = now], followed by the history as it was
    before. *)
Theorem closed_session_heads_history (now : timestamp) (st : db) :
  NoDup (map s_id (sessions st)) ->
  (forall s e, In s (sessions st) -> s_end_time s = Some e -> e < now) ->
  exists cur,
    fst (get_sessions_current now st) = res_json (BSession cur) /\
    fst (get_sessions_history (snd (post_sessions_close now st))) =
      (200, HSessions (mkSession (s_id cur) (s_start_time cur) (Some now) 1
                         :: history st)).
Proof.
  intros Hpk Hlate. exists (current now st).
  rewrite get_sessions_current_eq, post_sessions_close_eq.
  split; [reflexivity|]. simpl snd.
  unfold get_sessions_history, select_closed_sessions, history. simpl fst.
  f_equal. f_equal.
  pose proof (sessions_pk_opened now st Hpk) as Hpk'.
  destruct (in_split _ _ (current_in_opened now st)) as (l1 & l2 & EL).
  assert (Hother : forall y, In y (l1 ++ l2) -> s_id y <> s_id (current now st)).
  { intros y Hy E. rewrite EL, map_app in Hpk'. simpl in Hpk'.
    apply NoDup_remove_2 in Hpk'. apply Hpk'. rewrite <- map_app, <- E.
    apply in_map, Hy. }
  assert (Hrows : map (close_row now (s_id (current now st)))
                      (sessions (opened now st)) =
                  l1 ++ mkSession (s_id (current now st))
                                  (s_start_time (current now st)) (Some now) 1
                     :: l2).
  { rewrite EL, map_app. simpl. unfold close_row at 2. rewrite Z.eqb_refl.
    f_equal; [|f_equal]; rewrite <- (map_id) ; apply map_ext_in; intros y Hy;
      unfold close_row;
      rewrite (proj2 (Z.eqb_neq _ _) (Hother y ltac:(apply in_or_app; auto)));
      reflexivity. }
  unfold closed. simpl sessions. rewrite Hrows.
  rewrite <- (filter_closed_opened now st), EL.
  rewrite !filter_app. simpl.
  rewrite (proj2 (Z.eqb_neq _ _)) by (rewrite current_open; discriminate).
  rewrite app_nil_r.
  apply order_by_end_time_desc_max.
  intros y Hy. rewrite <- filter_app in Hy. apply filter_In in Hy.
  destruct Hy as [Hy _]. simpl.
  assert (Hin : In y (sessions st)).
  { assert (Hy' : In y (sessions (opened now st)))
      by (rewrite EL; apply in_app_or in Hy; apply in_or_app; simpl; tauto).
    unfold opened in Hy', EL. unfold current in Hother.
    destruct (last_by_id (filter is_open (sessions st))); [exact Hy'|].
    simpl in Hy'. apply in_app_or in Hy'. destruct Hy' as [Hy' | [<- | []]];
      [exact Hy'|].
    exfalso. apply (Hother _ Hy). reflexivity. }
  destruct (s_end_time y) as [e|] eqn:Ee; [|reflexivity].
  apply Z.leb_gt. apply (Hlate y e Hin Ee).
Qed.

Lemma closed_session_heads_history_witness :
  fst (get_sessions_history
         (snd (post_sessions_close 9 (snd (post_sessions_close 7 db0))))) =
  (200, HSessions [mkSession 2 7 (Some 9) 1; mkSession 1 100 (Some 7) 1]).
Proof.
  destruct (closed_session_heads_history 9 (snd (post_sessions_close 7 db0)))
    as (cur & E & H).
  - simpl. repeat constructor; simpl; intuition discriminate.
  - simpl. intros s e [<- | [<- | []]]; simpl; intros E; inversion E; lia.
  - inversion E; subst cur. exact H.
Defined.

(** * The cart of the client *)

Lemma cart_ids_map (g : cart_item -> cart_item) (l : list cart_item) :
  (forall it, ci_id (g it) = ci_id it) -> map ci_id (map g l) = map ci_id l.
Proof. intros H. rewrite map_map. apply map_ext, H. Qed.

Lemma NoDup_filter_map (f : cart_item -> bool) (l : list cart_item) :
  NoDup (map ci_id l) -> NoDup (map ci_id (filter f l)).
Proof.
  induction l as [|a l IH]; simpl; intros H; [constructor|].
  inversion H as [|x xs Hnotin Hnd]; subst.
  destruct (f a); simpl; [|auto].
  constructor; [|auto].
  intros Hin. apply Hnotin. apply in_map_iff in Hin.
  destruct Hin as (y & E & Hy). apply filter_In in Hy.
  rewrite <- E. apply in_map, Hy.
Qed.

(** Distinct products, each with a quantity of at least 1. *)
Lemma cart_step_inv (a : cart_action) (cart : list cart_item) :
  NoDup (map ci_id cart) /\ Forall (fun it => 1 <= ci_quantity it) cart ->
  NoDup (map ci_id (cart_step a cart)) /\
  Forall (fun it => 1 <= ci_quantity it) (cart_step a cart).
Proof.
  intros [Hnd Hq]. destruct a as [p | id | id d]; simpl.
  - unfold addToCart. destruct (cp_stock p <=? 0); [auto|].
    destruct (find _ cart) as [existing|] eqn:E.
    + destruct (cp_stock p <=? ci_quantity existing); [auto|]. split.
      * rewrite cart_ids_map; [exact Hnd|].
        intros it. destruct (ci_id it =? cp_id p); reflexivity.
      * rewrite Forall_forall in *. intros it' Hit.
        apply in_map_iff in Hit. destruct Hit as (it & <- & Hit).
        specialize (Hq it Hit).
        destruct (ci_id it =? cp_id p); simpl; lia.
    + split.
      * rewrite map_app. simpl. apply NoDup_app; [exact Hnd | |].
        -- repeat constructor. simpl. tauto.
        -- intros x Hx [<- | []]. apply in_map_iff in Hx.
           destruct Hx as (it & Eid & Hit).
           pose proof (find_none _ _ E it Hit) as Hf. simpl in Hf. lia.
      * apply Forall_app. split; [exact Hq|]. repeat constructor. simpl. lia.
  - split.
    + apply NoDup_filter_map, Hnd.
    + rewrite Forall_forall in *. intros it Hit. apply filter_In in Hit.
      apply Hq, Hit.
  - split.
    + unfold updateCartQuantity. rewrite cart_ids_map; [exact Hnd|].
      intros it. destruct (ci_id it =? id); reflexivity.
    + rewrite Forall_forall in *. intros it' Hit.
      apply in_map_iff in Hit. destruct Hit as (it & <- & Hit).
      specialize (Hq it Hit). destruct (ci_id it =? id); simpl; lia.
Qed.

(** X21.  Whatever the user does on the selling screen, starting from an
    empty cart, the cart holds each product at most once and every
    quantity is at least 1: the items the client sends to
    [POST /api/sales] name distinct products and ask for positive
    quantities. *)
Theorem cart_well_formed (actions : list cart_action) :
  let items := map item_of_cart (cart_after actions []) in
  NoDup (map item_id items) /\
  Forall (fun it => 1 <= item_quantity it) items.
Proof.
  assert (H : forall cart,
            NoDup (map ci_id cart) /\ Forall (fun it => 1 <= ci_quantity it) cart ->
            NoDup (map ci_id (cart_after actions cart)) /\
            Forall (fun it => 1 <= ci_quantity it) (cart_after actions cart)).
  { induction actions as [|a actions IH]; intros cart Hc; simpl; [exact Hc|].
    apply IH, cart_step_inv, Hc. }
  destruct (H []) as [H1 H2]; [split; constructor|].
  simpl. split.
  - rewrite map_map. exact H1.
  - rewrite Forall_map. exact H2.
Qed.

(** X22.  The quantity buttons keep a quantity within the stock the item
    carries: after [updateCartQuantity(id, delta)], whatever [delta], an
    item of that product with a stock of at least 1 has a quantity between
    1 and its stock, and an out-of-range [delta] stops at the nearer bound;
    the other items are as they were. *)
Theorem update_cart_quantity_bounds (productId delta : Z)
    (cart : list cart_item) :
  Forall2
    (fun old new =>
       ci_id new = ci_id old /\ ci_stock new = ci_stock old /\
       (ci_id old <> productId -> new = old) /\
       (ci_id old = productId ->
        1 <= ci_quantity new /\
        (1 <= ci_stock old ->
         ci_quantity new <= ci_stock old /\
         (1 <= ci_quantity old + delta <= ci_stock old ->
          ci_quantity new = ci_quantity old + delta) /\
         (ci_quantity old + delta < 1 -> ci_quantity new = 1) /\
         (ci_stock old < ci_quantity old + delta ->
          ci_quantity new = ci_stock old))))
    cart (updateCartQuantity productId delta cart).
Proof.
  induction cart as [|it cart IH]; simpl; constructor; [|exact IH].
  destruct (ci_id it =? productId) eqn:E.
  - apply Z.eqb_eq in E. simpl.
    repeat split; try reflexivity; try lia.
  - apply Z.eqb_neq in E.
    repeat split; try reflexivity; intros; contradiction.
Qed.

(** X23.  [addToCart] never takes the cart past the stock shown: after
    adding a product, the cart has an item of it only if its stock is
    positive, and that item's quantity is 1 if it is new, and otherwise at
    most the larger of the quantity it had and the product's stock. *)
Theorem add_to_cart_within_stock (product : client_product)
    (cart : list cart_item) (it : cart_item) :
  NoDup (map ci_id cart) ->
  In it (addToCart product cart) -> ci_id it = cp_id product ->
  (~ In (cp_id product) (map ci_id cart) ->
   0 < cp_stock product /\ ci_quantity it = 1 /\
   ci_stock it = cp_stock product) /\
  (forall old, In old cart -> ci_id old = cp_id product ->
     ci_quantity old <= ci_quantity it <= Z.max (ci_quantity old) (cp_stock product) /\
     (0 < cp_stock product -> ci_quantity old < cp_stock product ->
      ci_quantity it = ci_quantity old + 1)).
Proof.
  intros Hnd Hin Hid.
  assert (Heq : forall a b, In a cart -> In b cart -> ci_id a = ci_id b -> a = b).
  { intros a b. apply (NoDup_map_eq ci_id cart a b Hnd). }
  unfold addToCart in Hin. split.
  - intros Hnew.
    assert (Hnone : find (fun x => ci_id x =? cp_id product) cart = None).
    { destruct (find _ cart) as [x|] eqn:E; [|reflexivity].
      apply find_some in E. destruct E as [Hx Ex]. exfalso. apply Hnew.
      apply Z.eqb_eq in Ex. rewrite <- Ex. apply in_map, Hx. }
    rewrite Hnone in Hin.
    destruct (cp_stock product <=? 0) eqn:Es.
    + exfalso. apply Hnew. rewrite <- Hid. apply in_map, Hin.
    + apply Z.leb_gt in Es. apply in_app_or in Hin.
      destruct Hin as [Hin | [<- | []]]; [|simpl; auto].
      exfalso. apply Hnew. rewrite <- Hid. apply in_map, Hin.
  - intros old Hold Eold.
    assert (Hfind : find (fun x => ci_id x =? cp_id product) cart = Some old).
    { destruct (find _ cart) as [x|] eqn:E.
      - apply find_some in E. destruct E as [Hx Ex]. apply Z.eqb_eq in Ex.
        f_equal. apply Heq; auto. congruence.
      - pose proof (find_none _ _ E old Hold) as Hf. simpl in Hf. lia. }
    rewrite Hfind in Hin.
    destruct (cp_stock product <=? 0) eqn:Es.
    + apply Z.leb_le in Es.
      rewrite (Heq it old Hin Hold) by congruence. split; lia.
    + apply Z.leb_gt in Es.
      destruct (cp_stock product <=? ci_quantity old) eqn:Eq.
      * apply Z.leb_le in Eq.
        rewrite (Heq it old Hin Hold) by congruence. split; lia.
      * apply Z.leb_gt in Eq. apply in_map_iff in Hin.
        destruct Hin as (x & Ex & Hx).
        assert (x = old).
        { apply Heq; auto. rewrite Eold, <- Hid, <- Ex.
          destruct (ci_id x =? cp_id product); reflexivity. }
        subst x. rewrite (proj2 (Z.eqb_eq _ _) Eold) in Ex. subst it.
        simpl. split; lia.
Qed.

Lemma add_to_cart_within_stock_witness :
  ci_quantity (mkCartItem 1 "A" (10 # 1) 5 5 3) <= 5.
Proof.
  destruct (add_to_cart_within_stock (mkClientProduct 1 "A" (10 # 1) 5 5)
              [mkCartItem 1 "A" (10 # 1) 5 5 2]
              (mkCartItem 1 "A" (10 # 1) 5 5 3)) as [_ H].
  - repeat constructor. simpl. tauto.
  - left. reflexivity.
  - reflexivity.
  - destruct (H (mkCartItem 1 "A" (10 # 1) 5 5 2)) as [[_ H1] _];
      [left; reflexivity | reflexivity |].
    simpl in H1. simpl. lia.
Defined.

(** * The offline mirror *)

Lemma close_first_open_count (now : timestamp) (l : list session) (s : session) :
  find (fun s => s_is_closed s =? 0) l = Some s ->
  S (local_open_count (close_first_open now l)) = local_open_count l.
Proof.
  unfold local_open_count. revert s.
  induction l as [|a l IH]; simpl; intros s H; [discriminate|].
  destruct (s_is_closed a =? 0) eqn:E; simpl.
  - reflexivity.
  - rewrite E. apply (IH s H).
Qed.

Lemma api_closeSession_count (now : timestamp) (l : list session) :
  local_open_count (api_closeSession now l) = local_open_count l.
Proof.
  unfold api_closeSession.
  destruct (find _ l) as [s|] eqn:E; [|reflexivity].
  rewrite <- (close_first_open_count now l s E).
  unfold local_open_count. rewrite filter_app, length_app. simpl. lia.
Qed.

Lemma localDB_getCurrentSession_count (now : timestamp) (l : list session) :
  local_open_count (snd (localDB_getCurrentSession now l)) =
  Nat.max 1 (local_open_count l).
Proof.
  unfold localDB_getCurrentSession, local_open_count.
  destruct (find _ l) as [s|] eqn:E; simpl.
  - apply find_some in E. destruct E as [Hin Hopen].
    assert (In s (filter (fun s => s_is_closed s =? 0) l))
      by (apply filter_In; auto).
    destruct (filter _ l); [contradiction | simpl; lia].
  - rewrite filter_app, length_app. simpl.
    rewrite filter_none; [reflexivity|].
    intros x Hx. apply (find_none _ _ E x Hx).
Qed.

(** X24.  Offline, the number of open sessions is kept too.
    [api.closeSession] never changes it: with a session open it closes the
    first one found and opens another, with none open it does nothing (it
    does not open one, where the server would).  [localDB.getCurrentSession]
    opens a session only when none is open.  Hence, starting from an empty
    table, never more than one session is open, and exactly one after the
    first [getCurrentSession]. *)
Theorem offline_one_open_session
    (actions : list (timestamp * local_session_action)) :
  (forall now sessions,
     local_open_count (api_closeSession now sessions) =
     local_open_count sessions) /\
  (local_open_count
     (fold_left (fun l a => local_session_step a l) actions []) <= 1)%nat /\
  (forall now,
     local_open_count
       (fold_left (fun l a => local_session_step a l) actions
          (snd (localDB_getCurrentSession now []))) = 1%nat).
Proof.
  assert (Hstep : forall a l,
            local_open_count (local_session_step a l) = local_open_count l \/
            (local_open_count l = 0%nat /\
             local_open_count (local_session_step a l) = 1%nat)).
  { intros [now [|]] l; unfold local_session_step; simpl.
    - rewrite localDB_getCurrentSession_count.
      destruct (local_open_count l); [right; auto | left; lia].
    - left. apply api_closeSession_count. }
  assert (Hle : forall l, (local_open_count l <= 1)%nat ->
            (local_open_count
               (fold_left (fun l a => local_session_step a l) actions l) <= 1)%nat).
  { induction actions as [|a actions IH]; intros l H; simpl; [exact H|].
    apply IH. destruct (Hstep a l) as [-> | [_ ->]]; lia. }
  assert (Heq : forall l, local_open_count l = 1%nat ->
            local_open_count
              (fold_left (fun l a => local_session_step a l) actions l) = 1%nat).
  { clear Hle.
    induction actions as [|a actions IH]; intros l H; simpl; [exact H|].
    apply IH. destruct (Hstep a l) as [-> | [H0 _]]; [exact H | lia]. }
  split; [intros now l; apply api_closeSession_count | split].
  - apply Hle. unfold local_open_count. simpl. lia.
  - intros now. apply Heq. reflexivity.
Qed.

Lemma find_update_first (id id' : Z) (f : product -> product)
    (l : list product) :
  (forall p, p_id (f p) = p_id p) ->
  find (fun p => p_id p =? id') (update_first id f l) =
  if id' =? id
  then option_map f (find (fun p => p_id p =? id') l)
  else find (fun p => p_id p =? id') l.
Proof.
  intros Hf. induction l as [|a l IH]; simpl.
  - destruct (id' =? id); reflexivity.
  - destruct (p_id a =? id) eqn:E; simpl.
    + rewrite Hf. apply Z.eqb_eq in E. rewrite E.
      rewrite (Z.eqb_sym id id'). destruct (id' =? id); reflexivity.
    + destruct (p_id a =? id') eqn:E'; [|exact IH].
      apply Z.eqb_eq in E'. rewrite <- E', (Z.eqb_sym (p_id a) id), Z.eqb_sym, E.
      reflexivity.
Qed.

(** X25.  Offline, a movement is never refused.  For a product the local
    table has, [api.moveInventory] adds the quantity of an entry to its
    stock and takes that of a waste from it without comparing it with the
    stock (the server answers 400 when the waste is larger), so the stock
    it leaves can be negative (stock, quantity and result being safe
    integers); it leaves every other product as it was and
    logs one movement with the product's name.  For a product the table
    does not have, it changes nothing. *)
Theorem offline_move_unchecked (now : timestamp) (product_id : Z)
    (type : string) (quantity : Z) (reason : option string)
    (store : local_store) :
  let store' := api_moveInventory now product_id type quantity reason store in
  (forall stock, local_stock_of product_id store = Some stock ->
     safe_integer stock -> safe_integer quantity ->
     safe_integer (if String.eqb type "entry" then stock + quantity
                   else if String.eqb type "waste" then stock - quantity
                        else stock) ->
     local_stock_of product_id store' =
       Some (if String.eqb type "entry" then stock + quantity
             else if String.eqb type "waste" then stock - quantity
                  else stock) /\
     (forall id, id <> product_id ->
        local_stock_of id store' = local_stock_of id store) /\
     exists m,
       l_movements store' = l_movements store ++ [m] /\
       lm_product_id m = product_id /\ lm_type m = type /\
       lm_quantity m = quantity /\
       In (lm_session_id m) (map s_id (l_sessions store')) /\
       exists p, In p (l_products store) /\ p_id p = product_id /\
                 lm_product_name m = p_name p) /\
  (local_stock_of product_id store = None -> store' = store).
Proof.
  intros store'. unfold store', api_moveInventory, local_stock_of. split.
  - intros stock Hs _ _ _.
    destruct (find (fun p => p_id p =? product_id) (l_products store))
      as [product|] eqn:E; [|discriminate].
    simpl in Hs. inversion Hs; subst stock.
    assert (Hf : forall p,
              p_id (if String.eqb type "entry"
                    then set_stock (p_stock p + quantity) p
                    else if String.eqb type "waste"
                         then set_stock (p_stock p - quantity) p
                         else p) = p_id p).
    { intros p. destruct (String.eqb type "entry"); [reflexivity|].
      destruct (String.eqb type "waste"); reflexivity. }
    destruct (localDB_getCurrentSession now (l_sessions store))
      as [session sessions] eqn:Eg.
    simpl. split; [|split].
    + rewrite find_update_first by exact Hf. rewrite Z.eqb_refl, E. simpl.
      destruct (String.eqb type "entry"); [reflexivity|].
      destruct (String.eqb type "waste"); reflexivity.
    + intros id Hid. rewrite find_update_first by exact Hf.
      rewrite (proj2 (Z.eqb_neq _ _) Hid). reflexivity.
    + eexists. split; [reflexivity|]. simpl.
      repeat split.
      * unfold localDB_getCurrentSession in Eg.
        destruct (find _ (l_sessions store)) as [cur|] eqn:Ec;
          inversion Eg; subst.
        -- apply in_map. apply (find_some _ _ Ec).
        -- rewrite map_app. apply in_or_app. right. left. reflexivity.
      * exists product. destruct (find_some _ _ E) as [Hin Hid].
        repeat split; [exact Hin | apply Z.eqb_eq, Hid].
  - intros Hnone.
    destruct (find (fun p => p_id p =? product_id) (l_products store));
      [discriminate | reflexivity].
Qed.

Lemma offline_move_unchecked_witness :
  local_stock_of 1
    (api_moveInventory 50 1 "waste" 10 (Some "Merma")
       (mkLocalStore [prod 1 "A" 3] [] [])) = Some (-7).
Proof.
  destruct (offline_move_unchecked 50 1 "waste" 10 (Some "Merma")
              (mkLocalStore [prod 1 "A" 3] [] [])) as [H _].
  destruct (H 3 eq_refl) as [H1 _]; try (unfold safe_integer; simpl; lia).
  exact H1.
Defined.

(** * What is recorded shows in the report *)

Lemma current_sessions (now : timestamp) (a b : db) :
  sessions a = sessions b -> current now a = current now b.
Proof. unfold current. intros ->. reflexivity. Qed.

Lemma current_opened (now now' : timestamp) (st : db) :
  current now' (opened now st) = current now st.
Proof.
  unfold current, opened.
  destruct (last_by_id (filter is_open (sessions st))) as [s|] eqn:E.
  - rewrite E. reflexivity.
  - apply last_by_id_none in E. simpl. rewrite filter_open_app, E. reflexivity.
Qed.

Lemma sold_sessions_sales (now : timestamp) (sid saleId : Z)
    (items : list item) (st : db) :
  sessions (sold now sid saleId items st) = sessions st /\
  sales (sold now sid saleId items st) = sales st.
Proof.
  revert st. induction items as [|it rest IH]; intros st; simpl; [auto|].
  destruct (IH (stage_item now sid saleId it st)) as [-> ->]. auto.
Qed.

(** X26.  What is recorded shows in the report of the day.  After an
    accepted entry or waste, the report of the current session lists the
    new movement joined with the name of its product; after a sale that
    went through, it lists the new sale with the total and payment method
    given.  Either way the session of the report is the session the row
    was stamped with. *)
Theorem recorded_shows_in_current_report (now now' : timestamp) (st : db) :
  (forall product_id type quantity reason stock p,
     stock_of product_id st = Some stock ->
     type = "entry" \/ (type = "waste" /\ quantity <= stock) ->
     In p (products st) -> p_id p = product_id ->
     let st' := snd (post_inventory_move now product_id type quantity reason st) in
     exists sales rows cur,
       fst (get_reports_current now' st') =
         res_json (BReport sales rows (Some cur)) /\
       In (mkMovement (next_id (map m_id (movements st))) (s_id cur)
                      product_id type quantity reason now, p_name p) rows) /\
  (forall items pm total saleId st',
     post_sales now items pm total st = (res_json (BSaleId saleId), st') ->
     exists sales rows cur,
       fst (get_reports_current now' st') =
         res_json (BReport sales rows (Some cur)) /\
       In (mkSale saleId (s_id cur) total pm now) sales).
Proof.
  split.
  - intros pid type q reason stock p Hs Htype Hp Hid st'.
    set (newStock := if String.eqb type "entry" then stock + q else stock - q).
    assert (Hm : move_new_stock stock type q = inr newStock /\
                 check_type type = true).
    { unfold newStock, move_new_stock.
      destruct Htype as [-> | [-> Hq]]; simpl; [auto|].
      rewrite (proj2 (Z.ltb_ge _ _) Hq). auto. }
    destruct Hm as [Hm Hc].
    assert (Est : st' = moved now (s_id (current now st)) pid type q reason
                              newStock (opened now st)).
    { unfold st'.
      rewrite (post_inventory_move_commit _ _ _ _ _ _ _ _ Hs Hm Hc).
      reflexivity. }
    assert (Hcur : current now' st' = current now st).
    { rewrite <- (current_opened now now' st). apply current_sessions.
      rewrite Est. reflexivity. }
    assert (Hop : opened now' st' = st').
    { apply opened_id. rewrite (open_count_sessions (opened now st) st')
        by (rewrite Est; reflexivity).
      pose proof (current_in_opened now st) as Hin.
      pose proof (current_open now st) as Ho.
      unfold open_count.
      assert (In (current now st) (filter is_open (sessions (opened now st)))).
      { apply filter_In. split; [exact Hin|]. unfold is_open. lia. }
      destruct (filter is_open (sessions (opened now st)));
        [contradiction | simpl; lia]. }
    eexists _, _, (current now st).
    unfold get_reports_current, try_catch, bind.
    rewrite getCurrentSession_eq, Hcur, Hop. simpl fst.
    split; [reflexivity|].
    unfold select_movements. apply in_flat_map.
    destruct (opened_same_ledger now st) as (Ep & Em & _).
    exists (mkMovement (next_id (map m_id (movements st)))
                       (s_id (current now st)) pid type q reason now).
    split.
    + apply filter_In. split; [|simpl; apply Z.eqb_refl].
      rewrite Est. unfold moved. simpl. rewrite Em.
      apply in_or_app. right. left. reflexivity.
    + apply in_map_iff. exists (set_stock newStock p).
      split; [reflexivity|]. apply filter_In. split.
      * rewrite Est. unfold moved. simpl. rewrite Ep.
        apply in_map_iff. exists p.
        rewrite (proj2 (Z.eqb_eq _ _) Hid). auto.
      * simpl. apply Z.eqb_eq. auto.
  - intros items pm total saleId st' H.
    rewrite post_sales_eq in H.
    destruct (sale_transaction _ _ _ _ _ _) as [id st2 | e st2] eqn:Htx;
      [|discriminate].
    inversion H; subst id st2.
    destruct (sale_transaction_ok _ _ _ _ _ _ _ _ Htx) as (E1 & E2 & _).
    destruct (sold_sessions_sales now (s_id (current now st)) saleId items
                (sale_added now (s_id (current now st)) total pm (opened now st)))
      as [Hses Hsal].
    rewrite <- E2 in Hses, Hsal.
    assert (Hcur : current now' st' = current now st).
    { rewrite <- (current_opened now now' st). apply current_sessions.
      rewrite Hses. reflexivity. }
    assert (Hop : opened now' st' = st').
    { apply opened_id. rewrite (open_count_sessions (opened now st) st')
        by (rewrite Hses; reflexivity).
      pose proof (current_in_opened now st) as Hin.
      pose proof (current_open now st) as Ho.
      unfold open_count.
      assert (In (current now st) (filter is_open (sessions (opened now st)))).
      { apply filter_In. split; [exact Hin|]. unfold is_open. lia. }
      destruct (filter is_open (sessions (opened now st)));
        [contradiction | simpl; lia]. }
    eexists _, _, (current now st).
    unfold get_reports_current, try_catch, bind.
    rewrite getCurrentSession_eq, Hcur, Hop. simpl fst.
    split; [reflexivity|].
    unfold select_sales. apply filter_In. split; [|simpl; apply Z.eqb_refl].
    rewrite Hsal. unfold sale_added. simpl. rewrite <- E1.
    apply in_or_app. right. left. reflexivity.
Qed.

Lemma recorded_shows_in_current_report_witness :
  exists sales rows cur,
    fst (get_reports_current 9
           (snd (post_inventory_move 8 1 "entry" 3 None db0))) =
      res_json (BReport sales rows (Some cur)) /\
    In (mkMovement 1 (s_id cur) 1 "entry" 3 None 8, "P1") rows.
Proof.
  destruct (recorded_shows_in_current_report 8 9 db0) as [H _].
  apply (H 1 "entry" 3 None 2 (prod 1 "P1" 2)).
  - reflexivity.
  - left. reflexivity.
  - left. reflexivity.
  - reflexivity.
Defined.
